(** * sconv: a shallow embedding of [src/main.cpp]

    sconv reads a byte stream, converts every chunk it reads from UTF-8 to
    the platform's [wchar_t] encoding with iconv, writes the converted bytes
    to standard output or to a temporary file, and finally renames that
    temporary file onto the path given with [-o].

    The program is a sequence of calls into the C library and the kernel.
    Its embedding is a state-and-exception monad over a [World] record: the
    file system, the descriptor table, the two standard streams, the
    program's global [outfile], the decisions the environment takes
    (short writes, the name [mkstemp] picks, failing [chmod] or [rename]),
    and two ghost fields, the trace of the calls made and the file system
    after each of them.

    Layout: the library models ([getopt_long], the system calls, iconv),
    then the functions of [main.cpp] in source order, then the theorems. *)

From stdpp Require Import gmap strings list pretty.
From Stdlib Require Import ZArith Strings.Byte Strings.Ascii Lia.

Local Open Scope Z_scope.

(** ** C strings *)

(** [strchr s c]: the suffix of [s] that starts at the first [c]. *)
Fixpoint strchr (s : string) (c : ascii) : option string :=
  match s with
  | EmptyString => None
  | String a s' => if Ascii.eqb c a then Some s else strchr s' c
  end.

(** [strrchr s c], as the number of characters up to and including the
    last [c] of [s] (what [p+1 - fname] is in [get_basedir]). *)
Fixpoint strrchr_end (s : string) (c : ascii) : option nat :=
  match s with
  | EmptyString => None
  | String a s' =>
      match strrchr_end s' c with
      | Some n => Some (S n)
      | None => if Ascii.eqb a c then Some 1%nat else None
      end
  end.

(** The first [n] characters of [s]. *)
Fixpoint str_take (n : nat) (s : string) : string :=
  match n, s with
  | S n', String a s' => String a (str_take n' s')
  | _, _ => EmptyString
  end.

(** [s] without its last [n] characters, and those last characters. *)
Definition str_drop_end (n : nat) (s : string) : string :=
  str_take (String.length s - n) s.

Fixpoint str_skip (n : nat) (s : string) : string :=
  match n, s with
  | S n', String _ s' => str_skip n' s'
  | _, _ => s
  end.

Definition str_last (n : nat) (s : string) : string :=
  str_skip (String.length s - n) s.

(** The text before the first ['='] and, when there is one, the text
    after it (the [nameend] scan of [getopt_long]). *)
Fixpoint split_eq (s : string) : string * option string :=
  match s with
  | EmptyString => (EmptyString, None)
  | String a s' =>
      if Ascii.eqb a "=" then (EmptyString, Some s')
      else let '(n, v) := split_eq s' in (String a n, v)
  end.

(** The [int] value of a character returned by [getopt_long]. *)
Definition char_code (c : ascii) : Z := Z.of_nat (nat_of_ascii c).

(** ** getopt_long (GNU C library), as documented in getopt(3)

    [getopt_long] keeps its position in static variables and permutes
    [argv] while it scans, so that in the end all non-options are behind
    the options. The model keeps four pieces: the elements already taken as
    options or option values ([g_done]), the non-options passed over
    ([g_nonopts]), the elements not yet looked at ([g_rest]) and the rest
    of the short-option cluster being read ([g_nextchar]). [optind] is one
    more than the length of [g_done]. *)

Inductive has_arg_t := no_argument | required_argument | optional_argument.

Record option_t := {
  o_name : string;
  o_has_arg : has_arg_t;
  o_flag : option string;   (* the variable [flag] points to; [None] is 0 *)
  o_val : Z
}.

Record getopt_data := {
  g_prog : string;
  g_done : list string;
  g_nonopts : list string;
  g_rest : list string;
  g_nextchar : string
}.

Definition g_optind (d : getopt_data) : nat := S (length (g_done d)).

Definition g_argv (d : getopt_data) : list string :=
  g_prog d :: g_done d ++ g_nonopts d ++ g_rest d.

Definition getopt_init (prog : string) (args : list string) : getopt_data :=
  {| g_prog := prog; g_done := []; g_nonopts := []; g_rest := args;
     g_nextchar := "" |}.

(** What one call returns: the value [c], [optarg], the index stored
    through [longind] (when it is stored) and the text the library itself
    prints on standard error ([opterr] is nonzero unless the caller clears
    it). *)
Record getopt_res := {
  r_c : Z;
  r_optarg : option string;
  r_longind : option nat;
  r_diag : option string
}.

Definition res_done : getopt_res :=
  {| r_c := -1; r_optarg := None; r_longind := None; r_diag := None |}.

Definition res_err (diag : string) : getopt_res :=
  {| r_c := char_code "?"; r_optarg := None; r_longind := None;
     r_diag := Some diag |}.

(** [argv[optind][0] != '-' || argv[optind][1] == '\0'] *)
Definition NONOPTION_P (a : string) : bool :=
  match a with
  | String c (String _ _) => negb (Ascii.eqb c "-")
  | _ => true
  end.

(** The leading non-options of [rest], and what follows them. *)
Fixpoint skip_nonoptions (rest : list string) : list string * list string :=
  match rest with
  | a :: r =>
      if NONOPTION_P a
      then let '(n, r') := skip_nonoptions r in (a :: n, r')
      else ([], rest)
  | [] => ([], [])
  end.

Definition has_arg_eqb (a b : has_arg_t) : bool :=
  match a, b with
  | no_argument, no_argument => true
  | required_argument, required_argument => true
  | optional_argument, optional_argument => true
  | _, _ => false
  end.

Definition same_option (p q : option_t) : bool :=
  has_arg_eqb (o_has_arg p) (o_has_arg q)
  && bool_decide (o_flag p = o_flag q) && (o_val p =? o_val q).

(** The entries of the table whose name starts with [name], each with its
    index. *)
Fixpoint abbreviations (name : string) (i : nat) (opts : list option_t)
  : list (nat * option_t) :=
  match opts with
  | [] => []
  | p :: ps =>
      if String.prefix name (o_name p)
      then (i, p) :: abbreviations name (S i) ps
      else abbreviations name (S i) ps
  end.

Fixpoint exact_match (name : string) (i : nat) (opts : list option_t)
  : option (nat * option_t) :=
  match opts with
  | [] => None
  | p :: ps =>
      if String.eqb name (o_name p) then Some (i, p)
      else exact_match name (S i) ps
  end.

Inductive lookup_res :=
  | Found (i : nat) (p : option_t)
  | Ambiguous (cands : list option_t)
  | Unknown.

(** First an exact match; otherwise the first abbreviation, which is
    ambiguous when a later one differs from it in [has_arg], [flag] or
    [val]. *)
Definition lookup_long (longopts : list option_t) (name : string)
  : lookup_res :=
  match exact_match name 0 longopts with
  | Some (i, p) => Found i p
  | None =>
      match abbreviations name 0 longopts with
      | [] => Unknown
      | (i, p) :: more =>
          let others := filter (fun q => negb (same_option p q.2)) more in
          match others with
          | [] => Found i p
          | _ => Ambiguous (p :: (snd <$> others))
          end
      end
  end.

Fixpoint possibilities (cands : list option_t) : string :=
  match cands with
  | [] => ""
  | p :: ps => " '--" +:+ o_name p +:+ "'" +:+ possibilities ps
  end.

Definition nl : string := String (ascii_of_nat 10) "".

Definition with_done (d : getopt_data) (a : string) (rest : list string)
  (next : string) : getopt_data :=
  {| g_prog := g_prog d; g_done := g_done d ++ [a]; g_nonopts := g_nonopts d;
     g_rest := rest; g_nextchar := next |}.

Definition with_nextchar (d : getopt_data) (next : string) : getopt_data :=
  {| g_prog := g_prog d; g_done := g_done d; g_nonopts := g_nonopts d;
     g_rest := g_rest d; g_nextchar := next |}.

(** What [getopt_long] returns for an option whose required argument is
    missing: [':'] when [optstring] starts with a colon, ['?'] otherwise. *)
Definition missing_arg_code (optstring : string) : Z :=
  match optstring with
  | String c _ => if Ascii.eqb c ":" then char_code ":" else char_code "?"
  | EmptyString => char_code "?"
  end.

(** Whether the option character at the head of [temp], a suffix of
    [optstring], takes an argument: one colon after it says required,
    two say optional. *)
Definition short_has_arg (temp : string) : has_arg_t :=
  match temp with
  | String _ (String t1 more) =>
      if Ascii.eqb t1 ":" then
        match more with
        | String t2 _ =>
            if Ascii.eqb t2 ":" then optional_argument
            else required_argument
        | EmptyString => required_argument
        end
      else no_argument
  | _ => no_argument
  end.

(** A long option [--text]; the element itself is already in [g_done]. *)
Definition process_long_option (optstring : string)
  (longopts : list option_t) (text : string) (d : getopt_data)
  : getopt_res * getopt_data :=
  let '(name, value) := split_eq text in
  match lookup_long longopts name with
  | Ambiguous cands =>
      (res_err (g_prog d +:+ ": option '--" +:+ text
                +:+ "' is ambiguous; possibilities:"
                +:+ possibilities cands +:+ nl), d)
  | Unknown =>
      (res_err (g_prog d +:+ ": unrecognized option '--" +:+ text +:+ "'"
                +:+ nl), d)
  | Found i p =>
      let ok (arg : option string) (d' : getopt_data) :=
        ({| r_c := match o_flag p with Some _ => 0 | None => o_val p end;
            r_optarg := arg; r_longind := Some i; r_diag := None |}, d') in
      match value with
      | Some v =>
          match o_has_arg p with
          | no_argument =>
              (res_err (g_prog d +:+ ": option '--" +:+ o_name p
                        +:+ "' doesn't allow an argument" +:+ nl), d)
          | _ => ok (Some v) d
          end
      | None =>
          match o_has_arg p with
          | required_argument =>
              match g_rest d with
              | a :: r => ok (Some a) (with_done d a r "")
              | [] =>
                  ({| r_c := missing_arg_code optstring;
                      r_optarg := None; r_longind := None;
                      r_diag := Some (g_prog d +:+ ": option '--" +:+ o_name p
                                      +:+ "' requires an argument" +:+ nl) |},
                   d)
              end
          | _ => ok None d
          end
      end
  end.

(** The short option [c], followed in its element by [s]; the element
    itself is already in [g_done]. *)
Definition process_short_option (optstring : string) (c : ascii)
  (s : string) (d : getopt_data) : getopt_res * getopt_data :=
  let invalid :=
    (res_err (g_prog d +:+ ": invalid option -- '" +:+ String c "'" +:+ nl),
     with_nextchar d s) in
  let ret (arg : option string) (d' : getopt_data) :=
    ({| r_c := char_code c; r_optarg := arg; r_longind := None;
        r_diag := None |}, d') in
  match strchr optstring c with
  | None => invalid
  | Some temp =>
      if Ascii.eqb c ":" || Ascii.eqb c ";" then invalid
      else
        match short_has_arg temp with
        | optional_argument =>
            (* only the rest of this element can be the argument *)
            match s with
            | EmptyString => ret None (with_nextchar d "")
            | _ => ret (Some s) (with_nextchar d "")
            end
        | required_argument =>
            (* the rest of this element, or else the next element *)
            match s with
            | String _ _ => ret (Some s) (with_nextchar d "")
            | EmptyString =>
                match g_rest d with
                | a :: r => ret (Some a) (with_done d a r "")
                | [] =>
                    ({| r_c := missing_arg_code optstring;
                        r_optarg := None; r_longind := None;
                        r_diag := Some (g_prog d
                                  +:+ ": option requires an argument -- '"
                                  +:+ String c "'" +:+ nl) |},
                     with_nextchar d "")
                end
            end
        | no_argument => ret None (with_nextchar d s)
        end
  end.

(** Passing over non-options: they are moved behind the options, unless
    the scan is in POSIX order, where it stops at the first of them. *)
Definition permute (d : getopt_data) : getopt_data :=
  let '(n, r) := skip_nonoptions (g_rest d) in
  {| g_prog := g_prog d; g_done := g_done d;
     g_nonopts := g_nonopts d ++ n; g_rest := r;
     g_nextchar := g_nextchar d |}.

(** One call of [getopt_long(argc, argv, optstring, longopts, &index)].
    [posix] says whether POSIXLY_CORRECT is set in the environment. *)
Definition getopt_long (posix : bool) (optstring : string)
  (longopts : list option_t) (d : getopt_data) : getopt_res * getopt_data :=
  match g_nextchar d with
  | String c s => process_short_option optstring c s d
  | EmptyString =>
      let d1 := if posix then d else permute d in
      match g_rest d1 with
      | [] => (res_done, d1)
      | a :: r =>
          if String.eqb a "--" then
            (res_done,
             {| g_prog := g_prog d1; g_done := g_done d1 ++ [a];
                g_nonopts := g_nonopts d1 ++ r; g_rest := [];
                g_nextchar := "" |})
          else if NONOPTION_P a then (res_done, d1)
          else
            match a with
            | String _ (String c s) =>
                if Ascii.eqb c "-"
                then process_long_option optstring longopts s
                       (with_done d1 a r "")
                else process_short_option optstring c s (with_done d1 a r s)
            | _ => (res_done, d1)
            end
      end
  end.

(** ** The world outside the program *)

Definition byte := Byte.byte.

Record file := { f_data : list byte; f_mode : Z }.

(** What the next [read] of a readable descriptor finds: bytes that are
    available (a [read] takes at most [count] of them and leaves the rest
    for the next call; none available is end of file), or an error. A
    descriptor whose list is empty is at end of file. *)
Inductive rd_result :=
  | RdData (bs : list byte)
  | RdError.

(** What the kernel does with one [write]: all of it, only the first [k]
    bytes, or nothing and an error. *)
Inductive wr_outcome :=
  | WrAll
  | WrShort (k : nat)
  | WrError.

Inductive fd_obj :=
  | FdReader (pending : list rd_result)
  | FdStdout
  | FdFile (path : string)
  | FdOther.

Inductive event :=
  | EvOpen (path : string) (ret : Z)
  | EvMkstemp (template : string) (ret : Z)
  | EvRead (fd : Z) (count : nat) (ret : Z)
  | EvIconvOpen (ok : bool)
  | EvIconv (input : list byte) (inleft outleft : nat)
  | EvWrite (fd : Z) (count : Z) (ret : Z)
  | EvClose (fd : Z)
  | EvChmod (path : string) (mode : Z) (ret : Z)
  | EvRename (old new : string) (ret : Z).

(** The result of one [iconv] call on a chunk: its return value, the input
    bytes it left unconverted ([*inbytesleft] afterwards) and the bytes it
    stored through [*outbuf]. It never stores more than the room it is
    given, and [*outbytesleft] goes down by what it stored. *)
Record iconv_result := {
  ic_ret : Z;
  ic_inleft : nat;
  ic_written : list byte
}.

Definition codec := list byte -> nat -> iconv_result.

(** What is fixed for one run of the program. *)
Record platform := {
  p_wchar_size : nat;               (* sizeof(wchar_t) *)
  p_iconv : option codec;           (* UTF-8 to WCHAR_T, when supported *)
  p_posixly_correct : bool;         (* the environment variable *)
  p_mkstemp : option string;        (* the six characters mkstemp picks *)
  p_chmod_fails : bool;
  p_rename_fails : bool
}.

Record World := {
  w_fs : gmap string file;
  w_fds : gmap Z fd_obj;
  w_stdout : list byte;
  w_stderr : string;
  w_writes : list wr_outcome;       (* outcomes of the coming writes *)
  outfile : string;                 (* the global of main.cpp *)
  w_trace : list event;             (* ghost: the calls made so far *)
  w_hist : list (gmap string file)  (* ghost: the file system after each *)
}.

Definition set_fs (fs : gmap string file) (w : World) : World :=
  {| w_fs := fs; w_fds := w_fds w; w_stdout := w_stdout w;
     w_stderr := w_stderr w; w_writes := w_writes w; outfile := outfile w;
     w_trace := w_trace w; w_hist := w_hist w |}.

Definition set_fds (fds : gmap Z fd_obj) (w : World) : World :=
  {| w_fs := w_fs w; w_fds := fds; w_stdout := w_stdout w;
     w_stderr := w_stderr w; w_writes := w_writes w; outfile := outfile w;
     w_trace := w_trace w; w_hist := w_hist w |}.

Definition set_stdout (out : list byte) (w : World) : World :=
  {| w_fs := w_fs w; w_fds := w_fds w; w_stdout := out;
     w_stderr := w_stderr w; w_writes := w_writes w; outfile := outfile w;
     w_trace := w_trace w; w_hist := w_hist w |}.

Definition set_stderr (err : string) (w : World) : World :=
  {| w_fs := w_fs w; w_fds := w_fds w; w_stdout := w_stdout w;
     w_stderr := err; w_writes := w_writes w; outfile := outfile w;
     w_trace := w_trace w; w_hist := w_hist w |}.

Definition set_writes (ws : list wr_outcome) (w : World) : World :=
  {| w_fs := w_fs w; w_fds := w_fds w; w_stdout := w_stdout w;
     w_stderr := w_stderr w; w_writes := ws; outfile := outfile w;
     w_trace := w_trace w; w_hist := w_hist w |}.

Definition set_outfile (o : string) (w : World) : World :=
  {| w_fs := w_fs w; w_fds := w_fds w; w_stdout := w_stdout w;
     w_stderr := w_stderr w; w_writes := w_writes w; outfile := o;
     w_trace := w_trace w; w_hist := w_hist w |}.

(** Every call is recorded together with the file system it leaves. *)
Definition log (ev : event) (w : World) : World :=
  {| w_fs := w_fs w; w_fds := w_fds w; w_stdout := w_stdout w;
     w_stderr := w_stderr w; w_writes := w_writes w; outfile := outfile w;
     w_trace := w_trace w ++ [ev]; w_hist := w_hist w ++ [w_fs w] |}.

(** ** The monad: state, C++ exceptions and [std::exit] *)

Inductive exn :=
  | StdExn (what : string)          (* derived from std::exception *)
  | OtherExn.

Inductive outcome (A : Type) :=
  | Ret (a : A)
  | Throw (e : exn)
  | Exit (code : Z)
  | OutOfFuel.
Arguments Ret {A} a.
Arguments Throw {A} e.
Arguments Exit {A} code.
Arguments OutOfFuel {A}.

Definition M (A : Type) : Type := World -> outcome A * World.

Definition ret {A} (a : A) : M A := fun w => (Ret a, w).

Definition bind {A B} (m : M A) (k : A -> M B) : M B :=
  fun w =>
    match m w with
    | (Ret a, w') => k a w'
    | (Throw e, w') => (Throw e, w')
    | (Exit c, w') => (Exit c, w')
    | (OutOfFuel, w') => (OutOfFuel, w')
    end.

Definition throw {A} (what : string) : M A := fun w => (Throw (StdExn what), w).
Definition std_exit {A} (code : Z) : M A := fun w => (Exit code, w).
Definition out_of_fuel {A} : M A := fun w => (OutOfFuel, w).
Definition get : M World := fun w => (Ret w, w).
Definition modify (f : World -> World) : M unit := fun w => (Ret tt, f w).

Notation "'let*' x ':=' m 'in' k" := (bind m (fun x => k))
  (at level 10, x pattern, m at level 200, k at level 200).
Notation "m ';;' k" := (bind m (fun _ => k))
  (at level 100, k at level 200, right associativity).

(** [std::cerr << s] *)
Definition cerr (s : string) : M unit :=
  modify (fun w => set_stderr (w_stderr w +:+ s) w).

(** ** System calls *)

Definition STDIN_FILENO : Z := 0.
Definition STDOUT_FILENO : Z := 1.

(** The lowest descriptor number that is not in use. *)
Definition alloc_fd (fds : gmap Z fd_obj) : option Z :=
  List.find (fun n => bool_decide (fds !! n = None))
    (Z.of_nat <$> seq 0 (S (size fds))).

(** [open(path, O_RDONLY)]: the descriptor reads the file as it is now. *)
Definition sys_open (path : string) : M Z :=
  fun w =>
    match w_fs w !! path, alloc_fd (w_fds w) with
    | Some f, Some fd =>
        (Ret fd,
         log (EvOpen path fd)
           (set_fds (<[fd := FdReader [RdData (f_data f)]]> (w_fds w)) w))
    | _, _ => (Ret (-1), log (EvOpen path (-1)) w)
    end.

Definition is_alnum (c : ascii) : bool :=
  let n := nat_of_ascii c in
  ((48 <=? n) && (n <=? 57) || (65 <=? n) && (n <=? 90)
   || (97 <=? n) && (n <=? 122))%nat.

Fixpoint str_forallb (f : ascii -> bool) (s : string) : bool :=
  match s with
  | EmptyString => true
  | String a s' => f a && str_forallb f s'
  end.

Definition valid_suffix (sfx : string) : bool :=
  (String.length sfx =? 6)%nat && str_forallb is_alnum sfx.

(** The name [mkstemp] makes of [template] when it picks [sfx]. *)
Definition temp_name (template sfx : string) : string :=
  str_drop_end 6 template +:+ sfx.

(** [mkstemp(template)]: the template has to end in XXXXXX; the file is
    created exclusively (the name is not in use), empty, with mode 0600.
    Returns the descriptor and the contents of the buffer afterwards. *)
Definition sys_mkstemp (P : platform) (template : string) : M (Z * string) :=
  fun w =>
    let fail := (Ret (-1, template), log (EvMkstemp template (-1)) w) in
    if negb (String.eqb (str_last 6 template) "XXXXXX") then fail
    else
      match p_mkstemp P with
      | None => fail
      | Some sfx =>
          if negb (valid_suffix sfx) then fail
          else
            let name := temp_name template sfx in
            match w_fs w !! name, alloc_fd (w_fds w) with
            | None, Some fd =>
                (Ret (fd, name),
                 log (EvMkstemp template fd)
                   (set_fds (<[fd := FdFile name]> (w_fds w))
                      (set_fs (<[name := {| f_data := []; f_mode := 384 |}]>
                                 (w_fs w)) w)))
            | _, _ => fail
            end
      end.

(** [read(fd, buf, count)]: the return value and the bytes put in [buf].
    A file made by [mkstemp] is open for reading too, but its offset is at
    its end after every [write], so a [read] of it finds end of file. *)
Definition sys_read (fd : Z) (count : nat) : M (Z * list byte) :=
  fun w =>
    match w_fds w !! fd with
    | Some (FdReader (RdData bs :: more)) =>
        let got := take count bs in
        let later := drop count bs in
        let pending := match later with [] => more | _ => RdData later :: more end in
        let rv := Z.of_nat (length got) in
        (Ret (rv, got),
         log (EvRead fd count rv) (set_fds (<[fd := FdReader pending]> (w_fds w)) w))
    | Some (FdReader (RdError :: more)) =>
        (Ret (-1, []),
         log (EvRead fd count (-1)) (set_fds (<[fd := FdReader more]> (w_fds w)) w))
    | Some (FdReader []) | Some (FdFile _) =>
        (Ret (0, []), log (EvRead fd count 0) w)
    | _ => (Ret (-1, []), log (EvRead fd count (-1)) w)
    end.

Definition append_data (bs : list byte) (f : file) : file :=
  {| f_data := f_data f ++ bs; f_mode := f_mode f |}.

(** Where the bytes of a successful [write] go. *)
Definition deliver (o : fd_obj) (bs : list byte) (w : World) : World :=
  match o with
  | FdStdout => set_stdout (w_stdout w ++ bs) w
  | FdFile p => set_fs (alter (append_data bs) p (w_fs w)) w
  | _ => w
  end.

Definition writable (o : fd_obj) : bool :=
  match o with
  | FdStdout | FdFile _ => true
  | _ => false
  end.

(** [write(fd, buf, count)] with the first [count] bytes of [buf]. *)
Definition sys_write (fd : Z) (buf : list byte) (count : Z) : M Z :=
  fun w =>
    match w_fds w !! fd with
    | Some o =>
        if writable o then
          let '(oc, rest) := match w_writes w with
                             | [] => (WrAll, [])
                             | oc :: rest => (oc, rest)
                             end in
          let w1 := set_writes rest w in
          match oc with
          | WrAll =>
              (Ret count,
               log (EvWrite fd count count)
                 (deliver o (take (Z.to_nat count) buf) w1))
          | WrShort k =>
              let n := Z.min (Z.of_nat k) count in
              (Ret n,
               log (EvWrite fd count n) (deliver o (take (Z.to_nat n) buf) w1))
          | WrError => (Ret (-1), log (EvWrite fd count (-1)) w1)
          end
        else (Ret (-1), log (EvWrite fd count (-1)) w)
    | None => (Ret (-1), log (EvWrite fd count (-1)) w)
    end.

Definition sys_close (fd : Z) : M unit :=
  fun w => (Ret tt, log (EvClose fd) (set_fds (delete fd (w_fds w)) w)).

Definition set_mode (mode : Z) (f : file) : file :=
  {| f_data := f_data f; f_mode := mode |}.

(** [chmod(path, mode)]: 0 on success. *)
Definition sys_chmod (P : platform) (path : string) (mode : Z) : M Z :=
  fun w =>
    match w_fs w !! path with
    | Some f =>
        if p_chmod_fails P then (Ret (-1), log (EvChmod path mode (-1)) w)
        else
          (Ret 0,
           log (EvChmod path mode 0)
             (set_fs (<[path := set_mode mode f]> (w_fs w)) w))
    | None => (Ret (-1), log (EvChmod path mode (-1)) w)
    end.

(** [rename(old, new)]: 0 on success; the new name is replaced in one
    step, and renaming a file to itself does nothing. *)
Definition sys_rename (P : platform) (old new : string) : M Z :=
  fun w =>
    match w_fs w !! old with
    | Some f =>
        if p_rename_fails P then (Ret (-1), log (EvRename old new (-1)) w)
        else
          (Ret 0,
           log (EvRename old new 0)
             (set_fs (<[new := f]> (delete old (w_fs w))) w))
    | None => (Ret (-1), log (EvRename old new (-1)) w)
    end.

(** [iconv_open("WCHAR_T", "UTF-8")]: [None] is the [(void* )-1] result. *)
Definition sys_iconv_open (P : platform) : M (option codec) :=
  fun w =>
    (Ret (p_iconv P),
     log (EvIconvOpen (match p_iconv P with Some _ => true | None => false end))
       w).

(** [iconv(conv, &pIn, &sIn, &pOut, &sOut)] on [sIn] bytes with room for
    [sOut]: the new [sIn], the new [sOut] and the bytes now in [out]. *)
Definition sys_iconv (cd : codec) (input : list byte) (sOut : nat)
  : M (nat * nat * list byte) :=
  fun w =>
    let r := cd input sOut in
    let stored := take sOut (ic_written r) in
    let sOut' := (sOut - length stored)%nat in
    (Ret (ic_inleft r, sOut', stored),
     log (EvIconv input (ic_inleft r) sOut') w).

(** [getopt_long], printing its own diagnostics. *)
Definition sys_getopt_long (P : platform) (optstring : string)
  (longopts : list option_t) (d : getopt_data) : M (getopt_res * getopt_data) :=
  let '(r, d') := getopt_long (p_posixly_correct P) optstring longopts d in
  match r_diag r with
  | Some text => cerr text ;; ret (r, d')
  | None => ret (r, d')
  end.

(** ** main.cpp *)

Definition VERSION : string := "0.0.1".

Definition usage (prog version : string) : string :=
  "Usage: " +:+ prog +:+ " [options] (input file)" +:+ nl
  +:+ "Executes sconv " +:+ version +:+ nl +:+ nl
  +:+ "Converts an input file (or STDIN when not specified) from a given format" +:+ nl
  +:+ "to another file (or STDOUt when not set)" +:+ nl +:+ nl
  +:+ "-o, --output-file f Specifies output file (f) to be written; when not set, STDOUT" +:+ nl
  +:+ "                    is used as output" +:+ nl
  +:+ "    --help          prints this help and exit" +:+ nl +:+ nl.

Definition print_help (prog version : string) : M unit :=
  cerr (usage prog version).

Definition long_options : list option_t :=
  [ {| o_name := "output-file"; o_has_arg := required_argument;
       o_flag := None; o_val := char_code "o" |};
    {| o_name := "help"; o_has_arg := no_argument;
       o_flag := None; o_val := 0 |} ].

(** The body of [switch (c)] in [parse_args]. *)
Definition parse_switch (prog version : string) (r : getopt_res) : M unit :=
  let c := r_c r in
  let option_index := default 0%nat (r_longind r) in
  if c =? 0 then
    match long_options !! option_index with
    | Some o =>
        if bool_decide (o_flag o <> None) then ret tt
        else if String.eqb "help" (o_name o)
        then print_help prog version ;; std_exit 0
        else ret tt
    | None => ret tt
    end
  else if c =? char_code "o" then
    modify (set_outfile (default "" (r_optarg r)))
  else if c =? char_code "?" then ret tt
  else
    throw ("Invalid option '"
           +:+ String (ascii_of_nat (Z.to_nat (c mod 256))) "'").

(** The [while (1)] of [parse_args]; it ends when [getopt_long] returns
    -1. *)
Fixpoint parse_loop (P : platform) (fuel : nat) (prog version : string)
  (d : getopt_data) : M getopt_data :=
  match fuel with
  | O => out_of_fuel
  | S fuel' =>
      let* (r, d') := sys_getopt_long P "o:" long_options d in
      if r_c r =? -1 then ret d'
      else parse_switch prog version r ;; parse_loop P fuel' prog version d'
  end.

(** Every call of [getopt_long] that does not return -1 uses up a
    character of a cluster or an element of [argv]. *)
Definition getopt_measure (d : getopt_data) : nat :=
  String.length (g_nextchar d)
  + foldr (fun a n => S (String.length a + n)) 0%nat (g_rest d).

(** [parse_args(argc, argv, prog, version)]: [optind], and [argv] as
    [getopt_long] leaves it. *)
Definition parse_args (P : platform) (argv : list string)
  (prog version : string) : M (nat * list string) :=
  let d0 := getopt_init (hd "" argv) (tl argv) in
  let* d := parse_loop P (S (getopt_measure d0)) prog version d0 in
  ret (g_optind d, g_argv d).

Definition get_basedir (fname : string) : string :=
  match strrchr_end fname "/" with
  | None => ""
  | Some n => str_take n fname
  end.

Definition buf_sz : nat := 4096.

Definition S_IRWXU : Z := 448.   (* 0700 *)
Definition S_IRGRP : Z := 32.    (* 0040 *)
Definition S_IROTH : Z := 4.     (* 0004 *)

(** [snprintf(buf, 255, "%ssconv-XXXXXX", dir)]: at most 254 characters
    are stored. *)
Definition mkstemp_template (out : string) : string :=
  str_take 254 (get_basedir out +:+ "sconv-XXXXXX").

(** The body of the [while] in [main], after a [read] that returned
    [rv > 0] with [buf]: the new value of [total_cnv]. *)
Definition convert_chunk (P : platform) (out_fd : Z) (rv : Z)
  (buf : list byte) (total_cnv : Z) : M Z :=
  let* conv := sys_iconv_open P in
  let sIn := Z.to_nat rv in
  let sOut := (Z.to_nat rv * p_wchar_size P)%nat in
  match conv with
  | None => throw "This system can't convert from UTF-8 to WCHAR_T"
  | Some cd =>
      let* (sIn', sOut', out) := sys_iconv cd (take sIn buf) sOut in
      let to_write := rv * Z.of_nat (p_wchar_size P) - Z.of_nat sOut' in
      let* written := sys_write out_fd out to_write in
      if negb (to_write =? written)
      then throw "Couldn't write the required bytes to stdout"
      else ret (total_cnv + to_write)
  end.

Fixpoint conv_loop (P : platform) (fuel : nat) (in_fd out_fd : Z)
  (total_cnv : Z) : M Z :=
  match fuel with
  | O => out_of_fuel
  | S fuel' =>
      let* (rv, buf) := sys_read in_fd (buf_sz - 1) in
      if rv >? 0 then
        let* total := convert_chunk P out_fd rv buf total_cnv in
        conv_loop P fuel' in_fd out_fd total
      else ret total_cnv
  end.

(** Every [read] that returns more than 0 takes bytes off the input. *)
Definition pending_measure (pending : list rd_result) : nat :=
  foldr (fun r n => match r with
                    | RdData bs => S (length bs + n)
                    | RdError => S n
                    end) 0%nat pending.

Definition read_measure (fd : Z) (w : World) : nat :=
  match w_fds w !! fd with
  | Some (FdReader pending) => pending_measure pending
  | _ => 0%nat
  end.

(** The publishing step and the report, after the loop. *)
Definition publish (P : platform) (out_fd : Z) (tmpfile : string)
  (total_cnv : Z) : M Z :=
  let* w := get in
  (if negb (String.eqb (outfile w) "") then
     sys_close out_fd ;;
     let* rc := sys_chmod P tmpfile (Z.lor (Z.lor S_IRWXU S_IRGRP) S_IROTH) in
     if negb (rc =? 0) then throw "Can't change permissions of output file"
     else
       let* rr := sys_rename P tmpfile (outfile w) in
       if negb (rr =? 0) then throw "Can't swap temp file to output file"
       else ret tt
   else ret tt) ;;
  cerr ("Written: " +:+ pretty total_cnv +:+ " bytes" +:+ nl) ;;
  ret 0.

(** [main] from the loop on. *)
Definition recode (P : platform) (in_fd out_fd : Z) (tmpfile : string)
  : M Z :=
  let* w := get in
  let* total_cnv := conv_loop P (S (read_measure in_fd w)) in_fd out_fd 0 in
  publish P out_fd tmpfile total_cnv.

(** The first part of the [try] block: the arguments are parsed and the
    input is opened; the value is [in_fd]. *)
Definition open_input (P : platform) (argv : list string) : M Z :=
  let argc := length argv in
  let* (optind, argv') := parse_args P argv (hd "" argv) VERSION in
  if (optind <? argc)%nat then
    let path := default "" (argv' !! optind) in
    let* fd := sys_open path in
    if fd =? -1
    then throw ("Can't open file '" +:+ path +:+ "' as input")
    else ret fd
  else ret STDIN_FILENO.

(** The rest of the [try] block: the output is opened and the stream is
    converted; the value is what [main] returns. *)
Definition convert_to_output (P : platform) (in_fd : Z) : M Z :=
  let* w := get in
  if negb (String.eqb (outfile w) "") then
    let* (out_fd, buf) := sys_mkstemp P (mkstemp_template (outfile w)) in
    if out_fd =? -1 then ret 0        (* return false *)
    else recode P in_fd out_fd buf
  else recode P in_fd STDOUT_FILENO "".

Definition main_try (P : platform) (argv : list string) : M Z :=
  let* in_fd := open_input P argv in
  convert_to_output P in_fd.

(** The two handlers of [main] around a [try] block; the value is the exit
    status of the process. After a handler, control reaches the end of
    [main], which returns 0. (A block that runs out of fuel has no
    counterpart in the program; [main_total] shows that the block of
    [main] never does.) *)
Definition main_catch (body : M Z) : World -> Z * World :=
  fun w =>
    match body w with
    | (Ret status, w') => (status, w')
    | (Throw (StdExn what), w') =>
        (0, set_stderr (w_stderr w' +:+ "Exception: " +:+ what +:+ nl) w')
    | (Throw OtherExn, w') =>
        (0, set_stderr (w_stderr w' +:+ "Unknown exception" +:+ nl) w')
    | (Exit code, w') => (code, w')
    | (OutOfFuel, w') => (-1, w')
    end.

Definition main (P : platform) (argv : list string) : World -> Z * World :=
  main_catch (main_try P argv).

(** The process: static initialisation leaves [outfile] empty, then [main]
    runs. *)
Definition sconv (P : platform) (argv : list string) (w : World)
  : Z * World :=
  main P argv (set_outfile "" w).

(** ** A converter to run the program with

    A UTF-8 decoder that stores each character as a little-endian
    [wchar_t] of [W] bytes and, like [iconv], stops at the first byte
    sequence that is invalid or cut short, or when the room is used up. *)

Inductive decoded :=
  | DecEnd
  | DecChar (cp : N) (rest : list byte)
  | DecInvalid
  | DecIncomplete.

Definition is_cont (b : byte) : bool :=
  let n := Byte.to_N b in ((128 <=? n) && (n <=? 191))%N.

Definition cont_bits (b : byte) : N := (Byte.to_N b - 128)%N.

Definition decode_one (inp : list byte) : decoded :=
  match inp with
  | [] => DecEnd
  | b0 :: r =>
      let n0 := Byte.to_N b0 in
      if (n0 <? 128)%N then DecChar n0 r
      else if ((194 <=? n0) && (n0 <=? 223))%N then
        match r with
        | [] => DecIncomplete
        | b1 :: r1 =>
            if is_cont b1
            then DecChar ((n0 - 192) * 64 + cont_bits b1)%N r1
            else DecInvalid
        end
      else if ((224 <=? n0) && (n0 <=? 239))%N then
        match r with
        | [] => DecIncomplete
        | [b1] => if is_cont b1 then DecIncomplete else DecInvalid
        | b1 :: b2 :: r2 =>
            let cp := ((n0 - 224) * 4096 + cont_bits b1 * 64 + cont_bits b2)%N in
            if is_cont b1 && is_cont b2 && (2048 <=? cp)%N
            then DecChar cp r2 else DecInvalid
        end
      else if ((240 <=? n0) && (n0 <=? 244))%N then
        match r with
        | [] => DecIncomplete
        | [b1] => if is_cont b1 then DecIncomplete else DecInvalid
        | [b1; b2] =>
            if is_cont b1 && is_cont b2 then DecIncomplete else DecInvalid
        | b1 :: b2 :: b3 :: r3 =>
            let cp := ((n0 - 240) * 262144 + cont_bits b1 * 4096
                       + cont_bits b2 * 64 + cont_bits b3)%N in
            if is_cont b1 && is_cont b2 && is_cont b3
               && (65536 <=? cp)%N && (cp <=? 1114111)%N
            then DecChar cp r3 else DecInvalid
        end
      else DecInvalid
  end.

Definition byte_of_N (n : N) : byte :=
  default Byte.x00 (Byte.of_N (n mod 256)).

Fixpoint wchar_bytes (W : nat) (cp : N) : list byte :=
  match W with
  | O => []
  | S W' => byte_of_N cp :: wchar_bytes W' (cp / 256)
  end.

Fixpoint utf8_loop (W fuel : nat) (inp : list byte) (room : nat)
  : iconv_result :=
  let stop := {| ic_ret := -1; ic_inleft := length inp; ic_written := [] |} in
  match fuel with
  | O => stop
  | S fuel' =>
      match decode_one inp with
      | DecEnd => {| ic_ret := 0; ic_inleft := 0; ic_written := [] |}
      | DecChar cp rest =>
          if (room <? W)%nat then stop
          else
            let r := utf8_loop W fuel' rest (room - W) in
            {| ic_ret := ic_ret r; ic_inleft := ic_inleft r;
               ic_written := wchar_bytes W cp ++ ic_written r |}
      | DecInvalid | DecIncomplete => stop
      end
  end.

Definition utf8_to_wchar (W : nat) : codec :=
  fun inp room => utf8_loop W (S (length inp)) inp room.

(** A platform with a 4-byte [wchar_t] on which nothing fails. *)
Definition linux (sfx : string) : platform :=
  {| p_wchar_size := 4; p_iconv := Some (utf8_to_wchar 4);
     p_posixly_correct := false; p_mkstemp := Some sfx;
     p_chmod_fails := false; p_rename_fails := false |}.

(** A process started with the given files and standard input. *)
Definition boot (fs : gmap string file) (stdin : list rd_result)
  (writes : list wr_outcome) : World :=
  {| w_fs := fs;
     w_fds := <[0 := FdReader stdin]> (<[1 := FdStdout]> (<[2 := FdOther]> ∅));
     w_stdout := []; w_stderr := ""; w_writes := writes; outfile := "";
     w_trace := []; w_hist := [] |}.

Definition bytes_of (s : string) : list byte := String.list_byte_of_string s.

(** ** Names for the quantities of one loop iteration

    For a chunk of [rv] bytes in [buf] and a converter [cd]: the room
    [rv * sizeof(wchar_t)] given to [iconv], what [iconv] reports, the bytes
    it stored in [out], the value of [sOut] afterwards and [to_write]. *)

Definition chunk_room (P : platform) (rv : Z) : nat :=
  (Z.to_nat rv * p_wchar_size P)%nat.

Definition chunk_iconv (P : platform) (cd : codec) (rv : Z) (buf : list byte)
  : iconv_result :=
  cd (take (Z.to_nat rv) buf) (chunk_room P rv).

Definition chunk_stored (P : platform) (cd : codec) (rv : Z) (buf : list byte)
  : list byte :=
  take (chunk_room P rv) (ic_written (chunk_iconv P cd rv buf)).

Definition chunk_outleft (P : platform) (cd : codec) (rv : Z)
  (buf : list byte) : nat :=
  (chunk_room P rv - length (chunk_stored P cd rv buf))%nat.

Definition chunk_to_write (P : platform) (cd : codec) (rv : Z)
  (buf : list byte) : Z :=
  rv * Z.of_nat (p_wchar_size P) - Z.of_nat (chunk_outleft P cd rv buf).

(** The world when [write] is called in that iteration. *)
Definition before_write (P : platform) (cd : codec) (rv : Z)
  (buf : list byte) (w : World) : World :=
  log (EvIconv (take (Z.to_nat rv) buf) (ic_inleft (chunk_iconv P cd rv buf))
         (chunk_outleft P cd rv buf))
    (log (EvIconvOpen true) w).

(** The bytes that have arrived at the object behind a descriptor: the
    standard output stream, or the contents of the file. *)
Definition output_of (o : fd_obj) (w : World) : option (list byte) :=
  match o with
  | FdStdout => Some (w_stdout w)
  | FdFile p => f_data <$> w_fs w !! p
  | _ => None
  end.

(** ** The output as a function of the input

    The chunk that the next [read] of at most [count] bytes delivers, with
    what is pending afterwards; [None] when that [read] returns zero or
    less. *)
Definition next_chunk (count : nat) (pending : list rd_result)
  : option (list byte * list rd_result) :=
  match pending with
  | RdData bs :: more =>
      match take count bs with
      | [] => None
      | got =>
          Some (got, match drop count bs with
                     | [] => more
                     | later => RdData later :: more
                     end)
      end
  | _ => None
  end.

(** The bytes the loop produces from a pending input: every chunk is
    converted on its own, and the results are put one after the other. *)
Fixpoint convert_stream (P : platform) (fuel : nat)
  (pending : list rd_result) : list byte :=
  match fuel with
  | O => []
  | S fuel' =>
      match next_chunk (buf_sz - 1) pending, p_iconv P with
      | Some (got, pending'), Some cd =>
          chunk_stored P cd (Z.of_nat (length got)) got
          ++ convert_stream P fuel' pending'
      | _, _ => []
      end
  end.

(** What a descriptor still has to deliver. *)
Definition pending_of (fd : Z) (w : World) : list rd_result :=
  match w_fds w !! fd with
  | Some (FdReader pending) => pending
  | _ => []
  end.

Definition recoded (P : platform) (in_fd : Z) (w : World) : list byte :=
  convert_stream P (S (read_measure in_fd w)) (pending_of in_fd w).

(** ** Two particular targets

    A path whose directory part is 255 characters long, the 248th to 253rd
    of them being XXXXXX: the 254 characters that [snprintf] keeps of the
    template end in XXXXXX. *)
Fixpoint str_repeat (n : nat) (c : ascii) : string :=
  match n with
  | O => ""
  | S n' => String c (str_repeat n' c)
  end.

Definition long_target : string :=
  str_repeat 247 "a" +:+ "/XXXXXX/f".

(** ** What an observer of the target path sees

    [new] are the file systems recorded after each call of a run and [wf]
    is the world at its end. Either the target is throughout what it was
    before ([prior]: a file, or absent), or it is so up to the last call,
    which puts the complete converted content there with mode 0744. *)
Definition target_unchanged (out : string) (prior : option file)
  (new : list (gmap string file)) (wf : World) : Prop :=
  Forall (fun s : gmap string file => s !! out = prior) new
  /\ w_fs wf !! out = prior.

Definition target_published (out : string) (prior : option file)
  (content : list byte) (new : list (gmap string file)) (wf : World) : Prop :=
  exists pre,
    new = pre ++ [w_fs wf]
    /\ Forall (fun s : gmap string file => s !! out = prior) pre
    /\ w_fs wf !! out = Some {| f_data := content; f_mode := 484 |}.

(** ** Reading an argument vector the way [getopt_long] does

    The text of a long option element ([--text]) and the characters of a
    short option cluster ([-abc]). *)
Definition long_text (a : string) : option string :=
  match a with
  | String c1 (String c2 text) =>
      if Ascii.eqb c1 "-" && Ascii.eqb c2 "-" then Some text else None
  | _ => None
  end.

Definition short_cluster (a : string) : option string :=
  match a with
  | String c1 (String c2 s) =>
      if Ascii.eqb c1 "-" && negb (Ascii.eqb c2 "-")
      then Some (String c2 s) else None
  | _ => None
  end.

(** [name] is a non-empty beginning of [full]. *)
Definition abbreviates (name full : string) : bool :=
  negb (String.eqb name "") && String.prefix name full.

(** The element is [--help] or one of [--h], [--he], [--hel]. *)
Definition is_help (a : string) : bool :=
  match long_text a with
  | Some text =>
      match split_eq text with
      | (name, None) => abbreviates name "help"
      | _ => false
      end
  | None => false
  end.

(** A cluster of short options ends in an [o] that has no value in the
    cluster itself: the first [o] is its last character. *)
Fixpoint cluster_wants_next (s : string) : bool :=
  match s with
  | EmptyString => false
  | String c s' =>
      if Ascii.eqb c "o"
      then match s' with EmptyString => true | _ => false end
      else cluster_wants_next s'
  end.

(** The element is an option that takes the following element as its
    value: [--output-file] (or a beginning of it) without [=value], or a
    cluster as above. *)
Definition consumes_next (a : string) : bool :=
  match long_text a with
  | Some text =>
      match split_eq text with
      | (name, None) => abbreviates name "output-file"
      | _ => false
      end
  | None =>
      match short_cluster a with
      | Some s => cluster_wants_next s
      | None => false
      end
  end.

(** The element that follows [pre] is read as an option: no element of
    [pre] is [--], none takes that element as its value, and under
    POSIXLY_CORRECT none is a non-option. *)
Fixpoint reads_as_option (posix : bool) (pre : list string) : bool :=
  match pre with
  | [] => true
  | a :: pre' =>
      if String.eqb a "--" then false
      else if NONOPTION_P a then negb posix && reads_as_option posix pre'
      else if consumes_next a then
        match pre' with
        | [] => false
        | _ :: pre'' => reads_as_option posix pre''
        end
      else reads_as_option posix pre'
  end.

(** The same, when the scan is inside a cluster of which [next] is still
    to be read. *)
Definition reads_from (posix : bool) (next : string) (pre : list string)
  : bool :=
  if cluster_wants_next next then
    match pre with
    | [] => false
    | _ :: pre' => reads_as_option posix pre'
    end
  else reads_as_option posix pre.

(** In the state [d] of the scan, the element [h] lies ahead, followed by
    [rest], and will be read as an option. *)
Definition option_ahead (posix : bool) (h : string) (rest : list string)
  (d : getopt_data) : Prop :=
  exists pre,
    g_rest d = pre ++ h :: rest
    /\ reads_from posix (g_nextchar d) pre = true.

(** The diagnostic for a character that is not an option. *)
Definition invalid_option (prog : string) (c : ascii) : string :=
  prog +:+ ": invalid option -- '" +:+ String c "'" +:+ nl.

(** ** Comparing two scans

    The state [d] with [x] put before the arguments already taken:
    [getopt_long] only ever adds to that list, at its end. *)
Definition shift_done (x : list string) (d : getopt_data) : getopt_data :=
  {| g_prog := g_prog d; g_done := x ++ g_done d; g_nonopts := g_nonopts d;
     g_rest := g_rest d; g_nextchar := g_nextchar d |}.

(** The diagnostics for a cluster in which no character is an option. *)
Fixpoint invalid_options (prog : string) (s : string) : string :=
  match s with
  | EmptyString => ""
  | String c s' => invalid_option prog c +:+ invalid_options prog s'
  end.

(** No character of the cluster is [o]. *)
Definition no_option_in (s : string) : bool :=
  str_forallb (fun a => negb (Ascii.eqb a "o")) s.

(** ** Options at the front of the arguments *)

(** The state of the scan when the elements [lead] are taken and [args]
    is still to be read. *)
Definition scan_behind (prog : string) (lead args : list string)
  (next : string) : getopt_data :=
  {| g_prog := prog; g_done := lead; g_nonopts := []; g_rest := args;
     g_nextchar := next |}.

(** The four ways to give the output file, at the front of the
    arguments. *)
Inductive output_option (f : string) : list string -> Prop :=
  | short_separate : output_option f ["-o"; f]
  | short_joined : f <> "" -> output_option f ["-o" +:+ f]
  | long_separate name :
      abbreviates name "output-file" = true ->
      output_option f ["--" +:+ name; f]
  | long_joined name :
      abbreviates name "output-file" = true ->
      output_option f ["--" +:+ name +:+ "=" +:+ f].


(** ** The operands

    What is left of an argument vector when the options and their values
    are taken out, the way [getopt_long] reads it: after [--] everything
    is an operand; an element that is no option is one, and with
    POSIXLY_CORRECT set so is everything behind the first such element. *)
Fixpoint operands (posix : bool) (args : list string) : list string :=
  match args with
  | [] => []
  | a :: r =>
      if String.eqb a "--" then r
      else if NONOPTION_P a then
        if posix then args else a :: operands posix r
      else if consumes_next a then
        match r with
        | [] => []
        | _ :: r' => operands posix r'
        end
      else operands posix r
  end.

(** The same, when the scan is inside a cluster of which [next] is still
    to be read. *)
Definition operands_from (posix : bool) (next : string) (rest : list string)
  : list string :=
  if cluster_wants_next next then
    match rest with
    | [] => []
    | _ :: r => operands posix r
    end
  else operands posix rest.

(** The operands in the state [d] of the scan: those passed over, and
    those still to come. *)
Definition operands_ahead (posix : bool) (d : getopt_data) : list string :=
  g_nonopts d ++ operands_from posix (g_nextchar d) (g_rest d).

(** What [main] does with the operands: the first is opened as the input,
    and without one the input is the standard input. *)
Definition open_operand (ops : list string) : M Z :=
  match ops with
  | [] => ret STDIN_FILENO
  | path :: _ =>
      let* fd := sys_open path in
      if fd =? -1
      then throw ("Can't open file '" +:+ path +:+ "' as input")
      else ret fd
  end.

(** ** The calls of the conversion loop

    A [read] of at most 4095 bytes from the input, [iconv_open], [iconv],
    or a [write] to the output. *)
Definition loop_call (in_fd out_fd : Z) (ev : event) : Prop :=
  match ev with
  | EvRead fd n _ => fd = in_fd /\ n = (buf_sz - 1)%nat
  | EvIconvOpen _ | EvIconv _ _ _ => True
  | EvWrite fd _ _ => fd = out_fd
  | _ => False
  end.

(** From [w] to [w'] only calls with the property [Q] were made. *)
Definition only_calls (Q : event -> Prop) (w w' : World) : Prop :=
  exists new, w_trace w' = w_trace w ++ new /\ Forall Q new.

(** * Properties *)

(** ** The argument scan terminates *)

Definition rest_measure (rest : list string) : nat :=
  foldr (fun a n => S (String.length a + n)) 0%nat rest.

Lemma skip_nonoptions_measure rest :
  (rest_measure (skip_nonoptions rest).2 <= rest_measure rest)%nat.
Proof.
  induction rest as [|a r IH]; simpl; [lia|].
  destruct (NONOPTION_P a); [|simpl; lia].
  destruct (skip_nonoptions r) as [n r']; simpl in *. lia.
Qed.

Lemma permute_measure d :
  (getopt_measure (permute d) <= getopt_measure d)%nat.
Proof.
  unfold permute, getopt_measure.
  pose proof (skip_nonoptions_measure (g_rest d)) as H.
  destruct (skip_nonoptions (g_rest d)) as [n r]; simpl in *.
  unfold rest_measure in H. lia.
Qed.

Lemma permute_nextchar d : g_nextchar (permute d) = g_nextchar d.
Proof.
  unfold permute. by destruct (skip_nonoptions (g_rest d)).
Qed.

Lemma process_short_option_measure optstring c s d :
  (getopt_measure (process_short_option optstring c s d).2
   <= String.length s + rest_measure (g_rest d))%nat.
Proof.
  unfold process_short_option, getopt_measure, rest_measure.
  destruct (strchr optstring c) as [temp|]; simpl; [|lia].
  destruct (_ || _); simpl; [lia|].
  destruct (short_has_arg temp); simpl; [lia| |].
  - destruct s; simpl; [|lia].
    destruct (g_rest d) eqn:E; simpl; rewrite ?E; simpl; lia.
  - destruct s; simpl; lia.
Qed.

Lemma process_long_option_measure optstring longopts text d :
  g_nextchar d = "" ->
  (getopt_measure (process_long_option optstring longopts text d).2
   <= rest_measure (g_rest d))%nat.
Proof.
  intros Hn.
  assert (Hd : (getopt_measure d <= rest_measure (g_rest d))%nat).
  { unfold getopt_measure, rest_measure. rewrite Hn. simpl. lia. }
  unfold process_long_option.
  destruct (split_eq text) as [name value].
  destruct (lookup_long longopts name) as [i p|cands|]; simpl; try done.
  destruct value as [v|]; destruct (o_has_arg p); simpl; try done.
  destruct (g_rest d) as [|a r] eqn:E; simpl; [exact Hd|].
  unfold getopt_measure, rest_measure. simpl. lia.
Qed.

(** A call of [getopt_long] either ends the scan or makes progress. *)
Lemma getopt_long_measure posix optstring longopts d :
  let '(r, d') := getopt_long posix optstring longopts d in
  r_c r = -1 \/ (getopt_measure d' < getopt_measure d)%nat.
Proof.
  unfold getopt_long.
  destruct (g_nextchar d) as [|c s] eqn:Hn.
  - set (d1 := if posix then d else permute d).
    assert (H1 : (getopt_measure d1 <= getopt_measure d)%nat).
    { subst d1. destruct posix; [lia | apply permute_measure]. }
    assert (Hn1 : g_nextchar d1 = "").
    { subst d1. destruct posix; [done | by rewrite permute_nextchar]. }
    destruct (g_rest d1) as [|a r] eqn:Hr; [by left|].
    destruct (String.eqb a "--"); [by left|].
    destruct (NONOPTION_P a); [by left|].
    destruct a as [|a0 [|c s]]; [by left | by left |].
    assert (Hd1 : getopt_measure d1
                  = S (S (S (String.length s + rest_measure r)))).
    { unfold getopt_measure. rewrite Hn1, Hr. simpl. unfold rest_measure. lia. }
    destruct (Ascii.eqb c "-").
    + pose proof (process_long_option_measure optstring longopts s
                    (with_done d1 (String a0 (String c s)) r "") eq_refl) as H.
      destruct (process_long_option _ _ _ _) as [res d']. simpl in H.
      right. lia.
    + pose proof (process_short_option_measure optstring c s
                    (with_done d1 (String a0 (String c s)) r s)) as H.
      destruct (process_short_option _ _ _ _) as [res d']. simpl in H.
      right. lia.
  - pose proof (process_short_option_measure optstring c s d) as H.
    destruct (process_short_option _ _ _ _) as [res d']. simpl in H.
    right. unfold getopt_measure at 2. rewrite Hn. simpl.
    unfold rest_measure in H. lia.
Qed.

Ltac unfold_monad :=
  unfold bind, ret, throw, std_exit, out_of_fuel, get, modify, cerr in *.

Lemma parse_switch_result prog version r w :
  parse_switch prog version r w = (Ret tt, w)
  \/ parse_switch prog version r w
     = (Ret tt, set_outfile (default "" (r_optarg r)) w)
  \/ parse_switch prog version r w
     = (Exit 0, set_stderr (w_stderr w +:+ usage prog version) w)
  \/ exists what, parse_switch prog version r w = (Throw (StdExn what), w).
Proof.
  unfold parse_switch.
  destruct (r_c r =? 0).
  - destruct (long_options !! _) as [o|]; [|by left].
    destruct (bool_decide _); [by left|].
    destruct (String.eqb _ _); [|by left].
    right; right; left. reflexivity.
  - destruct (r_c r =? char_code "o"); [right; left; reflexivity|].
    destruct (r_c r =? char_code "?"); [by left|].
    right; right; right. eexists. reflexivity.
Qed.

Lemma sys_getopt_long_run P optstring longopts d w :
  sys_getopt_long P optstring longopts d w
  = (Ret (getopt_long (p_posixly_correct P) optstring longopts d),
     match r_diag (getopt_long (p_posixly_correct P) optstring longopts d).1 with
     | Some text => set_stderr (w_stderr w +:+ text) w
     | None => w
     end).
Proof.
  unfold sys_getopt_long.
  destruct (getopt_long _ _ _ _) as [r d']; simpl.
  destruct (r_diag r); reflexivity.
Qed.

(** How a computation may end when it ends the way [main] can: with a
    value, with an exception, or with [std::exit(0)]. *)
Definition proper {A} (o : outcome A) : Prop :=
  match o with
  | Ret _ | Throw (StdExn _) => True
  | Exit c => c = 0
  | _ => False
  end.

(** The same without [std::exit]. *)
Definition returns_or_throws {A} (o : outcome A) : Prop :=
  match o with
  | Ret _ | Throw (StdExn _) => True
  | _ => False
  end.

(** With the fuel [parse_args] gives it, the loop of [parse_args] comes
    to an end, and the only exit is the [std::exit(0)] of [--help]. *)
Lemma parse_loop_proper P fuel prog version d w :
  (getopt_measure d < fuel)%nat ->
  proper (parse_loop P fuel prog version d w).1.
Proof.
  revert d w. induction fuel as [|fuel IH]; intros d w Hlt; [lia|].
  simpl. unfold bind at 1. rewrite sys_getopt_long_run.
  pose proof (getopt_long_measure (p_posixly_correct P) "o:" long_options d) as Hm.
  destruct (getopt_long _ _ _ d) as [r d']. cbn [fst snd].
  destruct (r_c r =? -1) eqn:Hc; [done|].
  destruct Hm as [Hm|Hm]; [apply Z.eqb_neq in Hc; done|].
  unfold bind.
  destruct (parse_switch_result prog version r
              match r_diag r with
              | Some text => set_stderr (w_stderr w +:+ text) w
              | None => w
              end) as [H|[H|[H|[what H]]]]; rewrite H; try done.
  - apply IH. lia.
  - apply IH. lia.
Qed.

Lemma parse_args_proper P argv prog version w :
  proper (parse_args P argv prog version w).1.
Proof.
  unfold parse_args, bind.
  pose proof (parse_loop_proper P
                (S (getopt_measure (getopt_init (hd "" argv) (tl argv))))
                prog version (getopt_init (hd "" argv) (tl argv)) w
                ltac:(lia)) as H.
  by destruct (parse_loop _ _ _ _ _ _) as [[d|e|c|] w'].
Qed.

(** ** The system calls, one by one *)

(** What [write] returns, given the descriptor and the kernel's
    decision. *)
Definition write_ret (w : World) (fd : Z) (count : Z) : Z :=
  match w_fds w !! fd with
  | Some o =>
      if writable o then
        match w_writes w with
        | [] | WrAll :: _ => count
        | WrShort k :: _ => Z.min (Z.of_nat k) count
        | WrError :: _ => -1
        end
      else -1
  | None => -1
  end.

Lemma sys_write_ret fd buf count w :
  exists w', sys_write fd buf count w = (Ret (write_ret w fd count), w')
    /\ w_fds w' = w_fds w /\ w_stderr w' = w_stderr w
    /\ outfile w' = outfile w
    /\ w_trace w' = w_trace w ++ [EvWrite fd count (write_ret w fd count)]
    /\ w_hist w' = w_hist w ++ [w_fs w'].
Proof.
  unfold sys_write, write_ret.
  destruct (w_fds w !! fd) as [o|]; [|eexists; split; [reflexivity|done]].
  destruct (writable o) eqn:Ho; [|eexists; split; [reflexivity|done]].
  destruct (w_writes w) as [|[|k|] rest];
    (eexists; split; [reflexivity|]); destruct o; done.
Qed.

Lemma convert_chunk_unsupported P out_fd rv buf total w :
  p_iconv P = None ->
  convert_chunk P out_fd rv buf total w
  = (Throw (StdExn "This system can't convert from UTF-8 to WCHAR_T"),
     log (EvIconvOpen false) w).
Proof.
  intros Hc. unfold convert_chunk, sys_iconv_open. unfold_monad.
  rewrite Hc. reflexivity.
Qed.

(** The iteration body, once the converter is there, in terms of the
    [write] it ends with. *)
Lemma convert_chunk_run P cd out_fd rv buf total w :
  p_iconv P = Some cd ->
  convert_chunk P out_fd rv buf total w
  = match sys_write out_fd (chunk_stored P cd rv buf)
            (chunk_to_write P cd rv buf) (before_write P cd rv buf w) with
    | (Ret written, w') =>
        if negb (chunk_to_write P cd rv buf =? written)
        then (Throw (StdExn "Couldn't write the required bytes to stdout"), w')
        else (Ret (total + chunk_to_write P cd rv buf), w')
    | (Throw e, w') => (Throw e, w')
    | (Exit c, w') => (Exit c, w')
    | (OutOfFuel, w') => (OutOfFuel, w')
    end.
Proof.
  intros Hc. unfold convert_chunk, sys_iconv_open, sys_iconv. unfold_monad.
  rewrite Hc.
  change (sys_write out_fd _ _ _)
    with (sys_write out_fd (chunk_stored P cd rv buf)
            (chunk_to_write P cd rv buf) (before_write P cd rv buf w)).
  destruct (sys_write _ _ _ _) as [[written| | |] w']; try reflexivity.
  change (rv * Z.of_nat (p_wchar_size P) - Z.of_nat _)
    with (chunk_to_write P cd rv buf).
  by destruct (negb _).
Qed.

Lemma convert_chunk_frame P out_fd rv buf total w :
  let '(o, w') := convert_chunk P out_fd rv buf total w in
  w_fds w' = w_fds w /\ w_stderr w' = w_stderr w
  /\ outfile w' = outfile w /\ returns_or_throws o.
Proof.
  destruct (p_iconv P) as [cd|] eqn:Hc.
  - rewrite (convert_chunk_run _ cd) by done.
    destruct (sys_write_ret out_fd (chunk_stored P cd rv buf)
                (chunk_to_write P cd rv buf) (before_write P cd rv buf w))
      as (w' & -> & Hf & He & Ho & _).
    destruct (negb _); simpl in *; rewrite Hf, He, Ho; done.
  - rewrite convert_chunk_unsupported by done. done.
Qed.

Lemma set_fds_same w : set_fds (w_fds w) w = w.
Proof. by destruct w. Qed.

Lemma sys_read_run fd count w :
  exists rv buf fds',
    sys_read fd count w
    = (Ret (rv, buf), log (EvRead fd count rv) (set_fds fds' w))
    /\ rv <= Z.of_nat count /\ -1 <= rv
    /\ (0 < rv -> rv = Z.of_nat (length buf))
    /\ (forall fd', fd' <> fd -> fds' !! fd' = w_fds w !! fd')
    /\ (0 < rv ->
        (read_measure fd (set_fds fds' w) < read_measure fd w)%nat).
Proof.
  unfold sys_read, read_measure.
  destruct (w_fds w !! fd) as [[[|[bs|] more]| |path|]|] eqn:Hfd;
    try (exists (-1), [], (w_fds w); rewrite set_fds_same;
         repeat split; [lia..|done|lia]);
    try (exists 0, [], (w_fds w); rewrite set_fds_same;
         repeat split; [lia..|done|lia]).
  - eexists _, _, _. split; [reflexivity|].
    rewrite length_take. repeat split; try lia.
    + intros fd' Hne. by rewrite lookup_insert_ne.
    + intros Hpos. simpl. rewrite lookup_insert_eq.
      destruct (drop count bs) as [|b l] eqn:Hd; simpl.
      * lia.
      * assert (length (drop count bs) = S (length l)) as Hl by by rewrite Hd.
        rewrite length_drop in Hl. lia.
  - exists (-1), [], (<[fd := FdReader more]> (w_fds w)).
    repeat split; try lia. intros fd' Hne. by rewrite lookup_insert_ne.
Qed.

Lemma conv_loop_S P fuel in_fd out_fd total w :
  conv_loop P (S fuel) in_fd out_fd total w
  = match sys_read in_fd (buf_sz - 1) w with
    | (Ret (rv, buf), w1) =>
        if rv >? 0 then
          match convert_chunk P out_fd rv buf total w1 with
          | (Ret total', w2) => conv_loop P fuel in_fd out_fd total' w2
          | (Throw e, w2) => (Throw e, w2)
          | (Exit c, w2) => (Exit c, w2)
          | (OutOfFuel, w2) => (OutOfFuel, w2)
          end
        else (Ret total, w1)
    | (Throw e, w1) => (Throw e, w1)
    | (Exit c, w1) => (Exit c, w1)
    | (OutOfFuel, w1) => (OutOfFuel, w1)
    end.
Proof.
  cbn [conv_loop]. unfold bind at 1.
  destruct (sys_read in_fd (buf_sz - 1) w) as [[[rv buf]|e|c|] w1]; try done.
  destruct (rv >? 0); done.
Qed.

(** With the fuel [main] gives it, the conversion loop comes to an end,
    with a total or with an exception. *)
Lemma conv_loop_proper P fuel in_fd out_fd total w :
  (read_measure in_fd w < fuel)%nat ->
  returns_or_throws (conv_loop P fuel in_fd out_fd total w).1.
Proof.
  revert total w. induction fuel as [|fuel IH]; intros total w Hlt; [lia|].
  rewrite conv_loop_S.
  destruct (sys_read_run in_fd (buf_sz - 1) w)
    as (rv & buf & fds' & -> & _ & _ & _ & _ & Hm).
  destruct (rv >? 0) eqn:Hrv; [|done].
  apply Z.gtb_gt in Hrv.
  pose proof (convert_chunk_frame P out_fd rv buf total
                (log (EvRead in_fd (buf_sz - 1) rv) (set_fds fds' w))) as Hf.
  destruct (convert_chunk _ _ _ _ _ _) as [[total'|e|c|] w'];
    destruct Hf as (Hfds & _ & _ & Hoof); try done.
  apply IH. unfold read_measure in *. rewrite Hfds. simpl in *.
  specialize (Hm ltac:(lia)). lia.
Qed.

(** A property of the world that [read] and the body of the loop keep
    holds when the loop is left. *)
Lemma conv_loop_inv P in_fd out_fd (I : World -> Prop) :
  (forall w, I w -> I (sys_read in_fd (buf_sz - 1) w).2) ->
  (forall w rv buf total, I w -> I (convert_chunk P out_fd rv buf total w).2) ->
  forall fuel total w, I w -> I (conv_loop P fuel in_fd out_fd total w).2.
Proof.
  intros Hread Hchunk. induction fuel as [|fuel IH]; intros total w HI; [done|].
  rewrite conv_loop_S.
  specialize (Hread w HI).
  destruct (sys_read in_fd (buf_sz - 1) w) as [[[rv buf]|e|c|] w1];
    simpl in *; try done.
  destruct (rv >? 0); [|done].
  specialize (Hchunk w1 rv buf total Hread).
  destruct (convert_chunk P out_fd rv buf total w1) as [[total'|e|c|] w2];
    simpl in *; try done.
  by apply IH.
Qed.

(** ** How [main] can end *)

Definition status_zero (o : outcome Z) : Prop :=
  match o with
  | Ret status => status = 0
  | Throw (StdExn _) => True
  | Exit c => c = 0
  | _ => False
  end.

Lemma publish_result P out_fd tmpfile total w :
  status_zero (publish P out_fd tmpfile total w).1.
Proof.
  unfold publish, sys_close, sys_chmod, sys_rename. unfold_monad.
  destruct (negb (String.eqb (outfile w) "")); [|done].
  cbn [w_fs log set_fds].
  destruct (w_fs w !! tmpfile) as [f|]; [|done].
  destruct (p_chmod_fails P); [done|]. cbn -[Z.lor].
  rewrite lookup_insert_eq. destruct (p_rename_fails P); done.
Qed.

Lemma recode_result P in_fd out_fd tmpfile w :
  status_zero (recode P in_fd out_fd tmpfile w).1.
Proof.
  unfold recode. unfold bind at 1. unfold get. unfold bind at 1.
  pose proof (conv_loop_proper P (S (read_measure in_fd w)) in_fd out_fd 0 w
                ltac:(lia)) as H.
  destruct (conv_loop _ _ _ _ _ _) as [[total|[]|c|] w']; try done.
  apply publish_result.
Qed.

Lemma convert_to_output_result P in_fd w :
  status_zero (convert_to_output P in_fd w).1.
Proof.
  unfold convert_to_output. unfold bind at 1. unfold get.
  destruct (negb _); [|apply recode_result].
  unfold bind.
  destruct (sys_mkstemp P _ w) as [[[out_fd buf]|[]|c|] w'] eqn:Hm;
    try (unfold sys_mkstemp in Hm;
         repeat match type of Hm with
                | context [if ?b then _ else _] => destruct b
                | context [match ?x with _ => _ end] => destruct x
                end; done).
  destruct (out_fd =? -1); [done|]. apply recode_result.
Qed.

Lemma open_input_result P argv w :
  proper (open_input P argv w).1.
Proof.
  unfold open_input. unfold bind at 1.
  pose proof (parse_args_proper P argv (hd "" argv) VERSION w) as H.
  destruct (parse_args _ _ _ _ _) as [[[optind argv']|[]|c|] w']; try done.
  destruct (_ <? _)%nat; [|done].
  unfold bind, sys_open.
  destruct (w_fs w' !! _); [destruct (alloc_fd (w_fds w')) as [fd|]|];
    try done.
  by destruct (fd =? -1).
Qed.

(** The [try] block of [main] ends with the value 0, with an exception
    derived from [std::exception], or in [std::exit(0)]. *)
Lemma main_try_result P argv w :
  status_zero (main_try P argv w).1.
Proof.
  unfold main_try, bind.
  pose proof (open_input_result P argv w) as H.
  destruct (open_input P argv w) as [[in_fd|[]|c|] w']; try done.
  apply convert_to_output_result.
Qed.

Lemma main_total P argv w :
  (main_try P argv w).1 <> OutOfFuel.
Proof.
  pose proof (main_try_result P argv w) as H.
  by destruct (main_try P argv w) as [[status|[]|c|] w'].
Qed.

(** C7. Every fatal error of a run is an exception derived from
    [std::exception]; [main] prints its message after "Exception: " on
    standard error (an exception of another kind would give "Unknown
    exception"), and the exit status of the process is 0, after a reported
    error as well as after a normal run. *)
Theorem fatal_error_reported_status_zero P argv w :
  (sconv P argv w).1 = 0
  /\ (forall e w',
        main_try P argv (set_outfile "" w) = (Throw e, w') ->
        exists what, e = StdExn what
          /\ (sconv P argv w).2
             = set_stderr (w_stderr w' +:+ "Exception: " +:+ what +:+ nl) w')
  /\ (forall body w',
        body w = (Throw OtherExn, w') ->
        main_catch body w
        = (0, set_stderr (w_stderr w' +:+ "Unknown exception" +:+ nl) w')).
Proof.
  split; [|split].
  - unfold sconv, main, main_catch.
    pose proof (main_try_result P argv (set_outfile "" w)) as H.
    by destruct (main_try _ _ _) as [[status|[]|c|] w'].
  - intros e w' He. unfold sconv, main, main_catch.
    pose proof (main_try_result P argv (set_outfile "" w)) as H.
    rewrite He in *. destruct e as [what|]; [|done]. by exists what.
  - intros body w' Hb. unfold main_catch. by rewrite Hb.
Qed.

(** A run in which the kernel refuses the first [write]. *)
Lemma fatal_error_reported_status_zero_witness :
  (sconv (linux "Ab3dE9") ["sconv"]
     (boot ∅ [RdData (bytes_of "hi")] [WrError])).1 = 0
  /\ w_stderr (sconv (linux "Ab3dE9") ["sconv"]
                 (boot ∅ [RdData (bytes_of "hi")] [WrError])).2
     = "Exception: Couldn't write the required bytes to stdout" +:+ nl.
Proof.
  destruct (fatal_error_reported_status_zero (linux "Ab3dE9") ["sconv"]
              (boot ∅ [RdData (bytes_of "hi")] [WrError])) as (H0 & Hs & _).
  split; [exact H0|].
  destruct (Hs _ _ eq_refl) as (what & Hw & ->).
  injection Hw as <-. reflexivity.
Defined.

(** ** What the argument scan touches *)

(** [parse_args] changes nothing but [outfile] and standard error. *)
Definition only_options_changed (w w' : World) : Prop :=
  w_fs w' = w_fs w /\ w_fds w' = w_fds w /\ w_stdout w' = w_stdout w
  /\ w_writes w' = w_writes w /\ w_trace w' = w_trace w
  /\ w_hist w' = w_hist w.

Lemma only_options_changed_refl w : only_options_changed w w.
Proof. by repeat split. Qed.

Lemma only_options_changed_trans w1 w2 w3 :
  only_options_changed w1 w2 -> only_options_changed w2 w3 ->
  only_options_changed w1 w3.
Proof.
  intros (?&?&?&?&?&?) (?&?&?&?&?&?). repeat split; congruence.
Qed.

Lemma sys_getopt_long_frame P optstring longopts d w :
  only_options_changed w (sys_getopt_long P optstring longopts d w).2.
Proof.
  rewrite sys_getopt_long_run. simpl.
  destruct (r_diag _); by repeat split.
Qed.

Lemma parse_switch_frame prog version r w :
  only_options_changed w (parse_switch prog version r w).2.
Proof.
  destruct (parse_switch_result prog version r w) as [H|[H|[H|[what H]]]];
    rewrite H; by repeat split.
Qed.

Lemma parse_loop_frame P fuel prog version d w :
  only_options_changed w (parse_loop P fuel prog version d w).2.
Proof.
  revert d w. induction fuel as [|fuel IH]; intros d w;
    [apply only_options_changed_refl|].
  simpl. unfold bind at 1.
  pose proof (sys_getopt_long_frame P "o:" long_options d w) as H1.
  rewrite sys_getopt_long_run in *.
  destruct (getopt_long _ _ _ d) as [r d']. cbn [fst snd] in *.
  destruct (r_c r =? -1); [exact H1|].
  unfold bind.
  pose proof (parse_switch_frame prog version r
                match r_diag r with
                | Some text => set_stderr (w_stderr w +:+ text) w
                | None => w
                end) as H2.
  destruct (parse_switch _ _ _ _) as [[[]|e|c|] w2]; cbn [snd] in *;
    try exact (only_options_changed_trans _ _ _ H1 H2).
  eapply only_options_changed_trans; [|apply IH].
  exact (only_options_changed_trans _ _ _ H1 H2).
Qed.

Lemma parse_args_frame P argv prog version w :
  only_options_changed w (parse_args P argv prog version w).2.
Proof.
  unfold parse_args, bind.
  pose proof (parse_loop_frame P
                (S (getopt_measure (getopt_init (hd "" argv) (tl argv))))
                prog version (getopt_init (hd "" argv) (tl argv)) w) as H.
  by destruct (parse_loop _ _ _ _ _ _) as [[d|e|c|] w'].
Qed.

(** When [open_input] returns a descriptor, the arguments were parsed
    without an exit, the standard streams and [outfile] are as
    [parse_args] left them, no file was changed and at most one call was
    made, an [open]. *)
Lemma open_input_ret P argv w in_fd w1 :
  open_input P argv w = (Ret in_fd, w1) ->
  exists optind argv' w0,
    parse_args P argv (hd "" argv) VERSION w = (Ret (optind, argv'), w0)
    /\ w_stderr w1 = w_stderr w0 /\ outfile w1 = outfile w0
    /\ w_stdout w1 = w_stdout w /\ w_fs w1 = w_fs w
    /\ w_writes w1 = w_writes w
    /\ ((in_fd = STDIN_FILENO /\ w_trace w1 = w_trace w
         /\ w_hist w1 = w_hist w /\ w_fds w1 = w_fds w)
        \/ (exists path f,
              w_fs w !! path = Some f /\ alloc_fd (w_fds w) = Some in_fd
              /\ path = default "" (argv' !! optind)
              /\ w_trace w1 = w_trace w ++ [EvOpen path in_fd]
              /\ w_hist w1 = w_hist w ++ [w_fs w]
              /\ w_fds w1
                 = <[in_fd := FdReader [RdData (f_data f)]]> (w_fds w))).
Proof.
  unfold open_input. unfold bind at 1.
  pose proof (parse_args_frame P argv (hd "" argv) VERSION w) as Hf.
  destruct (parse_args _ _ _ _ _) as [[[optind argv']|e|c|] w0]; try done.
  destruct Hf as (Hfs & Hfds & Hout & Hwr & Htr & Hh). simpl in *.
  intros H. exists optind, argv', w0. split; [done|].
  destruct (_ <? _)%nat eqn:Hlt.
  - unfold bind, sys_open in H.
    destruct (w_fs w0 !! _) as [f|] eqn:Hfile;
      [destruct (alloc_fd (w_fds w0)) as [fd|] eqn:Ha|]; simpl in H;
      try done.
    destruct (fd =? -1); [done|]. injection H as <- <-. simpl.
    repeat split; try done. right.
    exists (default "" (argv' !! optind)), f.
    rewrite <- Hfs, <- Hfds, <- Htr, <- Hh. done.
  - injection H as <- <-. repeat split; try done. by left.
Qed.

(** ** When the temporary file cannot be created *)

(** C8. If [-o] is set and [mkstemp] returns -1, [main] returns at once
    with status 0: the only call after the input was opened is that
    [mkstemp]; nothing is added to standard error after what the argument
    scan left there (no "Exception: " line, no byte count), nothing is
    written to standard output, no file is changed, and no [read], [iconv]
    or [write] is made. *)
Theorem mkstemp_failure_silent P argv w in_fd w1 buf w2 :
  open_input P argv (set_outfile "" w) = (Ret in_fd, w1) ->
  outfile w1 <> "" ->
  sys_mkstemp P (mkstemp_template (outfile w1)) w1 = (Ret (-1, buf), w2) ->
  sconv P argv w = (0, w2)
  /\ w2 = log (EvMkstemp (mkstemp_template (outfile w1)) (-1)) w1
  /\ (exists r w0,
        parse_args P argv (hd "" argv) VERSION (set_outfile "" w)
        = (Ret r, w0)
        /\ w_stderr w2 = w_stderr w0)
  /\ w_stdout w2 = w_stdout w
  /\ w_fs w2 = w_fs w
  /\ (forall ev, ev ∈ w_trace w2 ->
        ev ∈ w_trace w \/ (exists path fd, ev = EvOpen path fd)
        \/ ev = EvMkstemp (mkstemp_template (outfile w1)) (-1)).
Proof.
  intros Hin Hout Hmk.
  assert (Hw2 : w2 = log (EvMkstemp (mkstemp_template (outfile w1)) (-1)) w1).
  { unfold sys_mkstemp in Hmk.
    destruct (negb (String.eqb _ "XXXXXX")); [by injection Hmk|].
    destruct (p_mkstemp P) as [sfx|]; [|by injection Hmk].
    destruct (negb (valid_suffix sfx)); [by injection Hmk|].
    destruct (w_fs w1 !! _); [by injection Hmk|].
    destruct (alloc_fd (w_fds w1)) as [fd|] eqn:Ha; [|by injection Hmk].
    exfalso. injection Hmk as Hfd _ _. subst fd.
    unfold alloc_fd in Ha. apply find_some in Ha as [Ha _].
    apply list_elem_of_In, list_elem_of_fmap in Ha as (n & Hn & _). lia. }
  split; [|split; [done|]].
  - unfold sconv, main, main_catch, main_try. unfold bind at 1.
    rewrite Hin. unfold convert_to_output. unfold bind at 1. unfold get.
    apply String.eqb_neq in Hout. rewrite Hout. simpl.
    unfold bind. by rewrite Hmk.
  - destruct (open_input_ret _ _ _ _ _ Hin)
      as (optind & argv' & w0 & Hp & Herr & _ & Hso & Hfs & _ & Htr).
    subst w2. simpl. repeat split; try done.
    + by exists (optind, argv'), w0.
    + intros ev Hev. apply elem_of_app in Hev as [Hev|Hev].
      * destruct Htr as [(_ & Htr & _)|(path & f & _ & _ & _ & Htr & _)];
          rewrite Htr in Hev; simpl in Hev; [by left|].
        apply elem_of_app in Hev as [Hev|Hev]; [by left|].
        apply list_elem_of_singleton in Hev. right; left. by eexists _, _.
      * apply list_elem_of_singleton in Hev. by right; right.
Qed.

(** A run with [-o out] on a platform where [mkstemp] fails. *)
Lemma mkstemp_failure_silent_witness :
  let P := {| p_wchar_size := 4; p_iconv := Some (utf8_to_wchar 4);
              p_posixly_correct := false; p_mkstemp := None;
              p_chmod_fails := false; p_rename_fails := false |} in
  let w := boot ∅ [RdData (bytes_of "hi")] [] in
  sconv P ["sconv"; "-o"; "out"] w
  = (0, log (EvMkstemp "sconv-XXXXXX" (-1)) (set_outfile "out" w)).
Proof.
  intros P w.
  assert (Hne : outfile (set_outfile "out" w) <> "") by (simpl; congruence).
  destruct (mkstemp_failure_silent P ["sconv"; "-o"; "out"] w 0
              (set_outfile "out" w) "sconv-XXXXXX"
              (log (EvMkstemp "sconv-XXXXXX" (-1)) (set_outfile "out" w))
              eq_refl Hne eq_refl) as [H _].
  exact H.
Defined.

(** ** One iteration of the loop *)

Lemma chunk_to_write_length P cd rv buf :
  0 <= rv ->
  chunk_to_write P cd rv buf = Z.of_nat (length (chunk_stored P cd rv buf)).
Proof.
  intros Hrv. unfold chunk_to_write, chunk_outleft.
  assert (length (chunk_stored P cd rv buf) <= chunk_room P rv)%nat as Hle.
  { unfold chunk_stored. rewrite length_take. lia. }
  assert (rv * Z.of_nat (p_wchar_size P) = Z.of_nat (chunk_room P rv)) as ->.
  { unfold chunk_room. lia. }
  lia.
Qed.

(** A [write] that returns the count it was given has passed on exactly
    the first [count] bytes of the buffer. *)
Lemma sys_write_full fd buf count w o :
  w_fds w !! fd = Some o ->
  0 <= count ->
  write_ret w fd count = count ->
  output_of o (sys_write fd buf count w).2
  = (fun old => old ++ take (Z.to_nat count) buf) <$> output_of o w.
Proof.
  intros Hfd Hc. unfold write_ret, sys_write. rewrite Hfd.
  destruct (writable o) eqn:Ho; [|lia].
  assert (Hdel : forall bs ws,
            output_of o (deliver o bs (set_writes ws w))
            = (fun old => old ++ bs) <$> output_of o w).
  { intros bs ws. destruct o as [| |p|]; try done. simpl.
    rewrite lookup_alter_eq. by destruct (w_fs w !! p). }
  destruct (w_writes w) as [|[|k|] rest]; intros Hret; simpl.
  - destruct o; try done; apply Hdel.
  - destruct o; try done; apply Hdel.
  - rewrite Hret. destruct o; try done; apply Hdel.
  - lia.
Qed.

(** The two ways the iteration can end, by what [write] returns, and
    where the bytes have gone when it returns the count it was given. *)
Lemma convert_chunk_spec P cd out_fd rv buf total w :
  p_iconv P = Some cd ->
  0 < rv ->
  let to_write := chunk_to_write P cd rv buf in
  let w2 := before_write P cd rv buf w in
  let written := write_ret w2 out_fd to_write in
  let w' := (sys_write out_fd (chunk_stored P cd rv buf) to_write w2).2 in
  convert_chunk P out_fd rv buf total w
  = (if to_write =? written
     then Ret (total + to_write)
     else Throw (StdExn "Couldn't write the required bytes to stdout"),
     w')
  /\ (written = to_write ->
      forall o, w_fds w !! out_fd = Some o ->
        output_of o w'
        = (fun old => old ++ chunk_stored P cd rv buf) <$> output_of o w).
Proof.
  intros Hcd Hrv to_write w2 written w'.
  pose proof (chunk_to_write_length P cd rv buf ltac:(lia)) as Hlen.
  destruct (sys_write_ret out_fd (chunk_stored P cd rv buf) to_write w2)
    as (w'' & Hw & _).
  split.
  - rewrite (convert_chunk_run P cd) by done.
    fold to_write w2. unfold w'. rewrite Hw. fold written. simpl.
    by destruct (to_write =? written).
  - intros Heq o Ho.
    pose proof (sys_write_full out_fd (chunk_stored P cd rv buf) to_write w2 o
                  Ho ltac:(lia) Heq) as Hfull.
    unfold w'. rewrite Hfull.
    subst to_write. rewrite Hlen, Nat2Z.id, firstn_all.
    by destruct o.
Qed.



(** ** The loop *)

Lemma sys_read_trace fd count w :
  exists rv buf,
    (sys_read fd count w).1 = Ret (rv, buf)
    /\ rv <= Z.of_nat count
    /\ w_trace (sys_read fd count w).2 = w_trace w ++ [EvRead fd count rv].
Proof.
  destruct (sys_read_run fd count w) as (rv & buf & fds' & -> & Hle & _).
  by exists rv, buf.
Qed.

Lemma convert_chunk_trace P out_fd rv buf total w ev :
  ev ∈ w_trace (convert_chunk P out_fd rv buf total w).2 ->
  ev ∈ w_trace w \/ forall fd n r, ev <> EvRead fd n r.
Proof.
  destruct (p_iconv P) as [cd|] eqn:Hc.
  - rewrite (convert_chunk_run P cd) by done.
    destruct (sys_write_ret out_fd (chunk_stored P cd rv buf)
                (chunk_to_write P cd rv buf) (before_write P cd rv buf w))
      as (w' & -> & _ & _ & _ & Htr & _).
    assert (ev ∈ w_trace w' -> ev ∈ w_trace w \/ forall fd n r, ev <> EvRead fd n r)
      as Hgoal.
    { rewrite Htr. unfold before_write. simpl.
      rewrite !elem_of_app, !list_elem_of_singleton.
      intros [[[H| ->]| ->]| ->]; [by left|by right..]. }
    by destruct (negb _).
  - rewrite convert_chunk_unsupported by done. simpl.
    rewrite elem_of_app, list_elem_of_singleton.
    intros [H| ->]; [by left|by right].
Qed.

(** When the loop returns a total, the last call was a [read] that
    returned zero or less. *)
Lemma conv_loop_ret_last P fuel in_fd out_fd total w total' w' :
  conv_loop P fuel in_fd out_fd total w = (Ret total', w') ->
  exists rv, rv <= 0
    /\ last (w_trace w') = Some (EvRead in_fd (buf_sz - 1) rv).
Proof.
  revert total w. induction fuel as [|fuel IH]; intros total w; [done|].
  rewrite conv_loop_S.
  destruct (sys_read_run in_fd (buf_sz - 1) w)
    as (rv & buf & fds' & -> & _).
  destruct (rv >? 0) eqn:Hrv.
  - destruct (convert_chunk _ _ _ _ _ _) as [[t|e|c|] w2]; try done.
    apply IH.
  - intros [= <- <-]. exists rv. split; [lia|]. simpl. by rewrite last_snoc.
Qed.

(** C4. Every [read] of the loop asks for 4095 bytes of the input
    descriptor and returns no more; as soon as a [read] returns zero or a
    negative value the loop is left with the total reached so far, no
    exception is raised, and [main] goes on to the publishing step and the
    report of the byte count. *)
Theorem loop_reads_and_stops P in_fd out_fd :
  (forall fuel total w ev,
     ev ∈ w_trace (conv_loop P fuel in_fd out_fd total w).2 ->
     ev ∈ w_trace w
     \/ forall fd n rv, ev = EvRead fd n rv ->
          fd = in_fd /\ n = 4095%nat /\ rv <= 4095)
  /\ (forall fuel total w rv buf w1,
        sys_read in_fd 4095 w = (Ret (rv, buf), w1) ->
        rv <= 0 ->
        conv_loop P (S fuel) in_fd out_fd total w = (Ret total, w1))
  /\ (forall tmpfile w total w',
        conv_loop P (S (read_measure in_fd w)) in_fd out_fd 0 w
        = (Ret total, w') ->
        (exists rv, rv <= 0 /\ last (w_trace w') = Some (EvRead in_fd 4095 rv))
        /\ recode P in_fd out_fd tmpfile w = publish P out_fd tmpfile total w').
Proof.
  split; [|split].
  - intros fuel total w.
    apply (conv_loop_inv P in_fd out_fd
             (fun w' => forall ev, ev ∈ w_trace w' ->
                ev ∈ w_trace w
                \/ forall fd n rv, ev = EvRead fd n rv ->
                     fd = in_fd /\ n = 4095%nat /\ rv <= 4095)).
    + intros w0 H0 ev.
      destruct (sys_read_trace in_fd (buf_sz - 1) w0) as (rv & buf & _ & Hle & ->).
      rewrite elem_of_app, list_elem_of_singleton.
      intros [H| ->]; [by apply H0|]. right.
      intros fd n rv' [= <- <- <-].
      change (Z.of_nat (buf_sz - 1)) with 4095 in Hle. done.
    + intros w0 rv buf total0 H0 ev Hev.
      apply convert_chunk_trace in Hev as [Hev|Hev]; [by apply H0|].
      right. intros fd n r ->. by destruct (Hev fd n r).
    + intros ev Hev. by left.
  - intros fuel total w rv buf w1 Hread Hrv.
    rewrite conv_loop_S. change (buf_sz - 1)%nat with 4095%nat.
    rewrite Hread.
    destruct (rv >? 0) eqn:Hgt; [apply Z.gtb_gt in Hgt; lia|done].
  - intros tmpfile w total w' Hloop. split.
    + apply conv_loop_ret_last in Hloop. exact Hloop.
    + unfold recode. unfold bind at 1. unfold get. unfold bind at 1.
      by rewrite Hloop.
Qed.

(** A [read] that fails at once: the loop returns the total 0 and the run
    goes on to report "Written: 0 bytes". *)
Lemma loop_reads_and_stops_witness :
  let P := linux "Ab3dE9" in
  let w := boot ∅ [RdError] [] in
  (conv_loop P 1 STDIN_FILENO STDOUT_FILENO 0 w).1 = Ret 0
  /\ (recode P STDIN_FILENO STDOUT_FILENO "" w).1 = Ret 0
  /\ w_stderr (recode P STDIN_FILENO STDOUT_FILENO "" w).2
     = "Written: 0 bytes" +:+ nl.
Proof.
  intros P w.
  destruct (loop_reads_and_stops P STDIN_FILENO STDOUT_FILENO)
    as (_ & Hstop & Hrec).
  pose proof (Hstop 0%nat 0 w (-1) [] _ eq_refl ltac:(lia)) as H1.
  split; [by rewrite H1|].
  destruct (Hrec "" w 0 _ eq_refl) as [_ H2].
  rewrite H2. split; reflexivity.
Defined.



(** ** The output of the loop *)

Lemma sys_read_keeps fd count w :
  (forall fd' o, w_fds w !! fd' = Some o -> writable o = true ->
     w_fds (sys_read fd count w).2 !! fd' = Some o)
  /\ w_fs (sys_read fd count w).2 = w_fs w
  /\ w_stdout (sys_read fd count w).2 = w_stdout w
  /\ w_stderr (sys_read fd count w).2 = w_stderr w
  /\ outfile (sys_read fd count w).2 = outfile w
  /\ w_hist (sys_read fd count w).2 = w_hist w ++ [w_fs w].
Proof.
  unfold sys_read.
  destruct (w_fds w !! fd) as [[[|[bs|] more]| |path|]|] eqn:Hfd; simpl;
    repeat split; try done;
    intros fd' o Ho Hw;
    (destruct (decide (fd' = fd)) as [->|Hne];
     [rewrite Hfd in Ho; by injection Ho as <-
     |by rewrite lookup_insert_ne]).
Qed.

(** [read] in terms of [next_chunk]. *)
Lemma sys_read_next fd count w :
  match next_chunk count (pending_of fd w) with
  | Some (got, pending') =>
      sys_read fd count w
      = (Ret (Z.of_nat (length got), got),
         log (EvRead fd count (Z.of_nat (length got)))
           (set_fds (<[fd := FdReader pending']> (w_fds w)) w))
      /\ (0 < length got)%nat
      /\ (pending_measure pending' < read_measure fd w)%nat
  | None => exists rv, (sys_read fd count w).1 = Ret (rv, []) /\ rv <= 0
  end.
Proof.
  unfold next_chunk, pending_of, sys_read, read_measure.
  destruct (w_fds w !! fd) as [[[|[bs|] more]| |path|]|] eqn:Hfd; simpl;
    try (by exists 0); try (by exists (-1)).
  destruct (take count bs) as [|b got] eqn:Htake; [by exists 0|].
  assert (length (take count bs) + length (drop count bs) = length bs)%nat
    as Hlen by (rewrite <- length_app, take_drop; done).
  rewrite Htake in Hlen. simpl in Hlen.
  destruct (drop count bs); simpl in *; (split; [done|split; lia]).
Qed.

Lemma fmap_app_app (o : option (list byte)) (xs ys : list byte) :
  (fun old => old ++ ys) <$> ((fun old => old ++ xs) <$> o)
  = (fun old => old ++ xs ++ ys) <$> o.
Proof. destruct o; simpl; [by rewrite <- app_assoc|done]. Qed.

(** What has arrived at the output when the loop returns: the conversion
    of the pending input, chunk by chunk, after what was there; and the
    total has grown by the number of those bytes. *)
Lemma conv_loop_output P fuel in_fd out_fd o total w total' w' :
  w_fds w !! out_fd = Some o ->
  writable o = true ->
  (read_measure in_fd w < fuel)%nat ->
  conv_loop P fuel in_fd out_fd total w = (Ret total', w') ->
  output_of o w'
  = (fun old => old ++ convert_stream P fuel (pending_of in_fd w))
    <$> output_of o w
  /\ total'
     = total + Z.of_nat (length (convert_stream P fuel (pending_of in_fd w)))
  /\ w_fds w' !! out_fd = Some o.
Proof.
  revert total w. induction fuel as [|fuel IH]; intros total w Ho Hw Hlt;
    [lia|].
  rewrite conv_loop_S. cbn [convert_stream].
  pose proof (sys_read_next in_fd (buf_sz - 1) w) as Hnext.
  pose proof (sys_read_keeps in_fd (buf_sz - 1) w)
    as (Hkeep & Hfs & Hso & _).
  destruct (next_chunk (buf_sz - 1) (pending_of in_fd w))
    as [[got pending']|].
  - destruct Hnext as (Hread & Hpos & Hm).
    rewrite Hread in *. simpl in Hfs, Hso.
    destruct (Z.gtb_spec (Z.of_nat (length got)) 0) as [Hgt|Hgt]; [|lia].
    set (w1 := log _ _) in *.
    assert (Ho1 : w_fds w1 !! out_fd = Some o) by by apply Hkeep.
    destruct (p_iconv P) as [cd|] eqn:Hcd;
      [|by rewrite convert_chunk_unsupported].
    destruct (convert_chunk_spec P cd out_fd (Z.of_nat (length got)) got
                total w1 Hcd ltac:(lia)) as [Hrun Hout].
    pose proof (chunk_to_write_length P cd (Z.of_nat (length got)) got
                  ltac:(lia)) as Hlen.
    set (w2 := (sys_write out_fd _ _ _).2) in *.
    rewrite Hrun.
    destruct (Z.eqb_spec (chunk_to_write P cd (Z.of_nat (length got)) got)
                (write_ret (before_write P cd (Z.of_nat (length got)) got w1)
                   out_fd (chunk_to_write P cd (Z.of_nat (length got)) got)))
      as [Heq|Hne]; [|done].
    intros Hloop.
    pose proof (convert_chunk_frame P out_fd (Z.of_nat (length got)) got
                  total w1) as Hf.
    rewrite Hrun in Hf. destruct Hf as (Hfds & _).
    assert (Hp2 : pending_of in_fd w2 = pending').
    { unfold pending_of. rewrite Hfds. unfold w1. simpl.
      by rewrite lookup_insert_eq. }
    apply IH in Hloop as (Hout' & Htot & Hfd').
    + rewrite Hp2 in *. split; [|split; [|done]].
      * rewrite Hout', (Hout (eq_sym Heq) o Ho1), fmap_app_app.
        by destruct o.
      * rewrite Htot, Hlen, length_app. lia.
    + by rewrite Hfds.
    + done.
    + unfold read_measure. rewrite Hfds. unfold w1. simpl.
      rewrite lookup_insert_eq. lia.
  - destruct Hnext as (rv & Hrv & Hle).
    destruct (sys_read in_fd (buf_sz - 1) w) as [[[rv' buf]|e|c|] w1] eqn:Hsys;
      try done.
    simpl in Hrv. injection Hrv as -> ->.
    destruct (Z.gtb_spec rv 0) as [Hgt|Hgt]; [lia|].
    intros [= <- <-]. simpl in *.
    split; [|split; [lia|by apply Hkeep]].
    destruct o; simpl; try done.
    + by rewrite Hso, app_nil_r.
    + rewrite Hfs. destruct (w_fs w !! path); simpl; [|done].
      by rewrite app_nil_r.
Qed.

(** ** What the loop leaves alone *)

(** From [w] to [w'] no file was touched except the one behind [o], no
    mode was changed, and the same holds of every file system recorded in
    between; standard error and [outfile] are as they were. *)
Definition wrote_only_to (o : fd_obj) (w w' : World) : Prop :=
  w_stderr w' = w_stderr w
  /\ outfile w' = outfile w
  /\ (forall p, o <> FdFile p -> w_fs w' !! p = w_fs w !! p)
  /\ (forall p, f_mode <$> w_fs w' !! p = f_mode <$> w_fs w !! p)
  /\ exists new,
       w_hist w' = w_hist w ++ new
       /\ Forall (fun s : gmap string file =>
                    forall p, o <> FdFile p -> s !! p = w_fs w !! p) new.

Lemma wrote_only_to_refl o w : wrote_only_to o w w.
Proof.
  repeat split; try done. exists []. by rewrite app_nil_r.
Qed.

Lemma wrote_only_to_trans o w1 w2 w3 :
  wrote_only_to o w1 w2 -> wrote_only_to o w2 w3 -> wrote_only_to o w1 w3.
Proof.
  intros (He1 & Ho1 & Hf1 & Hm1 & n1 & Hh1 & Hn1)
         (He2 & Ho2 & Hf2 & Hm2 & n2 & Hh2 & Hn2).
  repeat split; try congruence.
  - intros p Hp. rewrite Hf2, Hf1; done.
  - exists (n1 ++ n2). split; [by rewrite Hh2, Hh1, app_assoc|].
    apply Forall_app. split; [done|].
    eapply Forall_impl; [exact Hn2|]. simpl.
    intros s Hs p Hp. rewrite Hs, Hf1; done.
Qed.

Lemma wrote_only_to_log o ev w : wrote_only_to o w (log ev w).
Proof.
  repeat split; try done. exists [w_fs w]. split; [done|].
  by apply Forall_singleton.
Qed.

Lemma sys_read_wrote fd count o w :
  wrote_only_to o w (sys_read fd count w).2.
Proof.
  destruct (sys_read_keeps fd count w) as (_ & Hfs & _ & Herr & Hout & Hh).
  repeat split; try done; try (by rewrite Hfs).
  exists [w_fs w]. split; [done|]. by apply Forall_singleton.
Qed.

Lemma sys_write_wrote fd buf count o w :
  w_fds w !! fd = Some o ->
  wrote_only_to o w (sys_write fd buf count w).2.
Proof.
  intros Ho. unfold sys_write. rewrite Ho.
  assert (Hdel : forall bs ws ev,
            wrote_only_to o w (log ev (deliver o bs (set_writes ws w)))).
  { intros bs ws ev.
    assert (Hfs : forall p, o <> FdFile p ->
              w_fs (deliver o bs (set_writes ws w)) !! p = w_fs w !! p).
    { intros p Hp. destruct o as [| |path|]; try done. simpl.
      apply lookup_alter_ne. congruence. }
    repeat split.
    - by destruct o.
    - by destruct o.
    - exact Hfs.
    - intros p. destruct o as [| |path|]; try done. simpl.
      destruct (decide (path = p)) as [->|Hne].
      + rewrite lookup_alter_eq. by destruct (w_fs w !! p).
      + by rewrite lookup_alter_ne.
    - exists [w_fs (deliver o bs (set_writes ws w))].
      split; [by destruct o|]. by apply Forall_singleton. }
  assert (Hskip : forall ws ev, wrote_only_to o w (log ev (set_writes ws w))).
  { intros ws ev. repeat split; try done. exists [w_fs w].
    split; [done|]. by apply Forall_singleton. }
  destruct (writable o); [|apply wrote_only_to_log].
  destruct (w_writes w) as [|[|k|] rest]; simpl;
    try apply Hdel; apply Hskip.
Qed.

Lemma convert_chunk_wrote P out_fd rv buf total o w :
  w_fds w !! out_fd = Some o ->
  wrote_only_to o w (convert_chunk P out_fd rv buf total w).2.
Proof.
  intros Ho. destruct (p_iconv P) as [cd|] eqn:Hcd.
  - rewrite (convert_chunk_run P cd) by done.
    pose proof (sys_write_wrote out_fd (chunk_stored P cd rv buf)
                  (chunk_to_write P cd rv buf) o
                  (before_write P cd rv buf w) Ho) as Hw.
    assert (wrote_only_to o w (before_write P cd rv buf w)) as Hb.
    { unfold before_write.
      eapply wrote_only_to_trans; apply wrote_only_to_log. }
    destruct (sys_write _ _ _ _) as [[written|e|c|] w'];
      try destruct (negb _);
      exact (wrote_only_to_trans _ _ _ _ Hb Hw).
  - rewrite convert_chunk_unsupported by done. apply wrote_only_to_log.
Qed.

Lemma conv_loop_wrote P fuel in_fd out_fd o total w :
  w_fds w !! out_fd = Some o ->
  writable o = true ->
  wrote_only_to o w (conv_loop P fuel in_fd out_fd total w).2
  /\ w_fds (conv_loop P fuel in_fd out_fd total w).2 !! out_fd = Some o.
Proof.
  intros Ho Hw.
  apply (conv_loop_inv P in_fd out_fd
           (fun w' => wrote_only_to o w w' /\ w_fds w' !! out_fd = Some o)).
  - intros w0 [H0 Ho0]. split.
    + eapply wrote_only_to_trans; [exact H0|apply sys_read_wrote].
    + by apply sys_read_keeps.
  - intros w0 rv buf total0 [H0 Ho0]. split.
    + eapply wrote_only_to_trans; [exact H0|by apply convert_chunk_wrote].
    + pose proof (convert_chunk_frame P out_fd rv buf total0 w0) as Hf.
      destruct (convert_chunk _ _ _ _ _ _) as [oc w2].
      destruct Hf as (Hfds & _). simpl. by rewrite Hfds.
  - split; [apply wrote_only_to_refl|done].
Qed.

(** ** Creating and publishing the temporary file *)

Lemma alloc_fd_free fds fd :
  alloc_fd fds = Some fd -> fds !! fd = None /\ 0 <= fd.
Proof.
  unfold alloc_fd. intros H. apply find_some in H as [Hin Hfree].
  apply bool_decide_eq_true in Hfree. split; [done|].
  apply list_elem_of_In, list_elem_of_fmap in Hin as (n & -> & _). lia.
Qed.

Definition created (template name : string) (fd : Z) (w : World) : World :=
  log (EvMkstemp template fd)
    (set_fds (<[fd := FdFile name]> (w_fds w))
       (set_fs (<[name := {| f_data := []; f_mode := 384 |}]> (w_fs w)) w)).

(** A [mkstemp] that does not return -1. *)
Lemma sys_mkstemp_ok P template w fd name w2 :
  sys_mkstemp P template w = (Ret (fd, name), w2) ->
  fd <> -1 ->
  exists sfx,
    p_mkstemp P = Some sfx /\ valid_suffix sfx = true
    /\ str_last 6 template = "XXXXXX"
    /\ name = temp_name template sfx
    /\ w_fs w !! name = None
    /\ w_fds w !! fd = None
    /\ w2 = created template name fd w.
Proof.
  unfold sys_mkstemp. intros H Hfd.
  destruct (String.eqb_spec (str_last 6 template) "XXXXXX") as [Hx|Hx];
    simpl in H; [|by injection H as <- _ _].
  destruct (p_mkstemp P) as [sfx|]; [|by injection H as <- _ _].
  destruct (valid_suffix sfx) eqn:Hv; simpl in H; [|by injection H as <- _ _].
  destruct (w_fs w !! temp_name template sfx) eqn:Hn; [by injection H as <- _ _|].
  destruct (alloc_fd (w_fds w)) as [fd'|] eqn:Ha; [|by injection H as <- _ _].
  injection H as <- <- <-. apply alloc_fd_free in Ha as [Ha _].
  by exists sfx.
Qed.

Definition mode_0744 : Z := Z.lor (Z.lor S_IRWXU S_IRGRP) S_IROTH.

Lemma mode_0744_value : mode_0744 = 484.
Proof. reflexivity. Qed.

(** The publishing step when no output file was asked for. *)
Lemma publish_stdout P out_fd tmpfile total w :
  outfile w = "" ->
  publish P out_fd tmpfile total w
  = (Ret 0,
     set_stderr (w_stderr w +:+ "Written: " +:+ pretty total +:+ " bytes"
                 +:+ nl) w).
Proof.
  intros Ho. unfold publish. unfold_monad. by rewrite Ho.
Qed.

(** The publishing step when [outfile] is set and the temporary file is
    there, by cases on what [chmod] and [rename] do. *)
Lemma publish_file P out_fd tmpfile total w f :
  outfile w <> "" ->
  w_fs w !! tmpfile = Some f ->
  let '(o, w') := publish P out_fd tmpfile total w in
  let fs1 := <[tmpfile := set_mode 484 f]> (w_fs w) in
  if p_chmod_fails P then
    o = Throw (StdExn "Can't change permissions of output file")
    /\ w_trace w' = w_trace w ++ [EvClose out_fd; EvChmod tmpfile 484 (-1)]
    /\ w_hist w' = w_hist w ++ [w_fs w; w_fs w]
    /\ w_fs w' = w_fs w /\ w_stderr w' = w_stderr w
  else if p_rename_fails P then
    o = Throw (StdExn "Can't swap temp file to output file")
    /\ w_trace w'
       = w_trace w ++ [EvClose out_fd; EvChmod tmpfile 484 0;
                       EvRename tmpfile (outfile w) (-1)]
    /\ w_hist w' = w_hist w ++ [w_fs w; fs1; fs1]
    /\ w_fs w' = fs1 /\ w_stderr w' = w_stderr w
  else
    o = Ret 0
    /\ w_trace w'
       = w_trace w ++ [EvClose out_fd; EvChmod tmpfile 484 0;
                       EvRename tmpfile (outfile w) 0]
    /\ w_hist w' = w_hist w ++ [w_fs w; fs1; w_fs w']
    /\ w_fs w' = <[outfile w := set_mode 484 f]> (delete tmpfile fs1)
    /\ w_stderr w'
       = w_stderr w +:+ "Written: " +:+ pretty total +:+ " bytes" +:+ nl.
Proof.
  intros Ho Hf. apply String.eqb_neq in Ho.
  unfold publish, sys_close, sys_chmod, sys_rename. unfold_monad.
  rewrite Ho. cbn [negb w_fs log set_fds]. rewrite Hf.
  change (Z.lor (Z.lor S_IRWXU S_IRGRP) S_IROTH) with 484.
  destruct (p_chmod_fails P).
  - cbn. by rewrite <- !app_assoc.
  - cbn. rewrite lookup_insert_eq. destruct (p_rename_fails P); cbn;
      by rewrite <- !app_assoc.
Qed.

(** A [mkstemp] that returns -1 has only been recorded. *)
Lemma sys_mkstemp_fail P template w name w2 :
  sys_mkstemp P template w = (Ret (-1, name), w2) ->
  w2 = log (EvMkstemp template (-1)) w.
Proof.
  unfold sys_mkstemp. intros H.
  destruct (negb (String.eqb _ "XXXXXX")); [by injection H|].
  destruct (p_mkstemp P) as [sfx|]; [|by injection H].
  destruct (negb (valid_suffix sfx)); [by injection H|].
  destruct (w_fs w !! _); [by injection H|].
  destruct (alloc_fd (w_fds w)) as [fd|] eqn:Ha; [|by injection H].
  injection H as Hfd _ _. subst fd. apply alloc_fd_free in Ha. lia.
Qed.

Lemma pending_of_created template name fd in_fd w :
  w_fds w !! fd = None ->
  pending_of in_fd (created template name fd w) = pending_of in_fd w
  /\ read_measure in_fd (created template name fd w) = read_measure in_fd w.
Proof.
  intros Hfree. unfold pending_of, read_measure, created. simpl.
  destruct (decide (fd = in_fd)) as [->|Hne].
  - by rewrite lookup_insert_eq, Hfree.
  - by rewrite lookup_insert_ne.
Qed.

(** The run from a successful [mkstemp] to the end of the loop: only the
    temporary file is written; if the loop returns, the file holds the
    conversion of the input, still with mode 0600, the total is its
    length, and [main] goes on with the publishing step; if the loop
    raises an exception, that is how the [try] block ends. *)
Lemma convert_to_file P in_fd w1 fd tmp w2 :
  outfile w1 <> "" ->
  sys_mkstemp P (mkstemp_template (outfile w1)) w1 = (Ret (fd, tmp), w2) ->
  fd <> -1 ->
  let '(oc, w3) := conv_loop P (S (read_measure in_fd w2)) in_fd fd 0 w2 in
  wrote_only_to (FdFile tmp) w2 w3
  /\ w_trace w2 = w_trace w1 ++ [EvMkstemp (mkstemp_template (outfile w1)) fd]
  /\ w_hist w2 = w_hist w1 ++ [w_fs w2]
  /\ w_fs w2 = <[tmp := {| f_data := []; f_mode := 384 |}]> (w_fs w1)
  /\ w_stderr w2 = w_stderr w1 /\ outfile w2 = outfile w1
  /\ match oc with
     | Ret total =>
         w_fs w3 !! tmp
         = Some {| f_data := recoded P in_fd w1; f_mode := 384 |}
         /\ total = Z.of_nat (length (recoded P in_fd w1))
         /\ convert_to_output P in_fd w1 = publish P fd tmp total w3
     | _ => convert_to_output P in_fd w1 = (oc, w3)
     end.
Proof.
  intros Hout Hmk Hfd.
  destruct (sys_mkstemp_ok _ _ _ _ _ _ Hmk Hfd)
    as (sfx & Hsfx & Hv & Hx & Hname & Hnew & Hfree & ->).
  pose proof (pending_of_created (mkstemp_template (outfile w1)) tmp fd in_fd
                w1 Hfree) as [Hpend Hmeas].
  set (w2 := created _ _ _ _) in *.
  assert (Ho2 : w_fds w2 !! fd = Some (FdFile tmp)).
  { unfold w2, created. simpl. by rewrite lookup_insert_eq. }
  pose proof (conv_loop_wrote P (S (read_measure in_fd w2)) in_fd fd
                (FdFile tmp) 0 w2 Ho2 eq_refl) as [Hwrote Ho3].
  pose proof (conv_loop_output P (S (read_measure in_fd w2)) in_fd fd
                (FdFile tmp) 0 w2) as Hcontent.
  assert (Hrun : convert_to_output P in_fd w1
                 = recode P in_fd fd tmp w2).
  { unfold convert_to_output. unfold bind at 1. unfold get.
    apply String.eqb_neq in Hout. rewrite Hout. simpl.
    unfold bind at 1. rewrite Hmk.
    destruct (Z.eqb_spec fd (-1)); done. }
  unfold recode in Hrun. unfold bind at 1 in Hrun. unfold get in Hrun.
  unfold bind at 1 in Hrun.
  destruct (conv_loop P (S (read_measure in_fd w2)) in_fd fd 0 w2)
    as [oc w3].
  split; [exact Hwrote|]. repeat split; try done.
  destruct oc as [total|e|c|]; try done.
  destruct (Hcontent total w3 Ho2 eq_refl ltac:(lia) eq_refl)
    as (Hdata & Htotal & _).
  destruct Hwrote as (_ & _ & _ & Hmode & _).
  specialize (Hmode tmp).
  assert (Hrec : convert_stream P (S (read_measure in_fd w2))
                   (pending_of in_fd w2) = recoded P in_fd w1).
  { unfold recoded. by rewrite Hpend, Hmeas. }
  rewrite Hrec in *.
  assert (Hfs2 : w_fs w2 !! tmp = Some {| f_data := []; f_mode := 384 |}).
  { unfold w2, created. simpl. by rewrite lookup_insert_eq. }
  unfold output_of in Hdata. rewrite Hfs2 in Hdata, Hmode.
  cbn [snd] in Hmode.
  split; [|split; [lia|done]].
  destruct (w_fs w3 !! tmp) as [[d m]|]; [|done].
  simpl in *. by injection Hdata as ->; injection Hmode as ->.
Qed.

(** ** Running [main] in two steps *)

Lemma sconv_after_open P argv w in_fd w1 :
  open_input P argv (set_outfile "" w) = (Ret in_fd, w1) ->
  sconv P argv w = main_catch (convert_to_output P in_fd) w1.
Proof.
  intros Hin. unfold sconv, main, main_catch, main_try. unfold bind at 1.
  by rewrite Hin.
Qed.




(** ** Empty input *)



(** ** Strings and the name of the temporary file *)

Local Arguments String.append : simpl nomatch.

Lemma str_length_app a b :
  String.length (a +:+ b) = (String.length a + String.length b)%nat.
Proof. induction a as [|c a IH]; simpl; [done|by rewrite IH]. Qed.

Lemma str_app_assoc a b c : (a +:+ b) +:+ c = a +:+ (b +:+ c).
Proof. induction a as [|x a IH]; simpl; [done|by rewrite IH]. Qed.

Lemma str_take_app a b k :
  str_take (String.length a + k) (a +:+ b) = a +:+ str_take k b.
Proof. induction a as [|c a IH]; simpl; [done|by rewrite IH]. Qed.

Lemma str_take_all n s : (String.length s <= n)%nat -> str_take n s = s.
Proof.
  revert n. induction s as [|c s IH]; intros [|n] Hn; simpl in *;
    try done; try lia.
  rewrite IH; [done|lia].
Qed.

Lemma str_take_nil n : str_take n "" = "".
Proof. by destruct n. Qed.

Lemma strrchr_end_app a b c :
  strrchr_end (a +:+ b) c
  = match strrchr_end b c with
    | Some n => Some (String.length a + n)%nat
    | None => strrchr_end a c
    end.
Proof.
  induction a as [|x a IH]; simpl.
  - by destruct (strrchr_end b c).
  - rewrite IH. by destruct (strrchr_end b c).
Qed.

Lemma strrchr_end_absent s c :
  str_forallb (fun a => negb (Ascii.eqb a c)) s = true ->
  strrchr_end s c = None.
Proof.
  induction s as [|a s IH]; simpl; [done|].
  intros [Ha Hs]%andb_true_iff. rewrite (IH Hs).
  by destruct (Ascii.eqb a c).
Qed.

Lemma strrchr_end_take s c n :
  strrchr_end s c = Some n ->
  strrchr_end (str_take n s) c = Some n
  /\ String.length (str_take n s) = n.
Proof.
  revert n. induction s as [|a s IH]; intros n; simpl; [done|].
  destruct (strrchr_end s c) as [m|] eqn:Hs.
  - intros [= <-]. destruct (IH m eq_refl) as [H1 H2]. simpl.
    by rewrite H1, H2.
  - destruct (Ascii.eqb a c) eqn:Ha; [|done].
    intros [= <-]. simpl. by rewrite Ha.
Qed.

Lemma str_forallb_impl (f g : ascii -> bool) s :
  (forall a, f a = true -> g a = true) ->
  str_forallb f s = true -> str_forallb g s = true.
Proof.
  intros Hfg. induction s as [|a s IH]; simpl; [done|].
  intros [Ha Hs]%andb_true_iff. by rewrite (Hfg a Ha), IH.
Qed.

Lemma is_alnum_not_slash a : is_alnum a = true -> negb (Ascii.eqb a "/") = true.
Proof.
  destruct (Ascii.eqb_spec a "/") as [->|]; [|done]. by vm_compute.
Qed.

(** A name made of the directory part of [out] and a last component
    without a slash has the same directory part. *)
Lemma get_basedir_sibling out s :
  str_forallb (fun a => negb (Ascii.eqb a "/")) s = true ->
  get_basedir (get_basedir out +:+ s) = get_basedir out.
Proof.
  intros Hs. unfold get_basedir at 1.
  rewrite strrchr_end_app, (strrchr_end_absent s "/" Hs).
  unfold get_basedir.
  destruct (strrchr_end out "/") as [n|] eqn:Ho; [|done].
  destruct (strrchr_end_take out "/" n Ho) as [H1 H2].
  rewrite H1. rewrite <- H2 at 1.
  rewrite <- (Nat.add_0_r (String.length (str_take n out))).
  rewrite str_take_app. simpl.
  clear. induction (str_take n out) as [|a t IH]; simpl; [done|by rewrite IH].
Qed.

Lemma mkstemp_template_fits out :
  (String.length (get_basedir out) + 12 <= 254)%nat ->
  mkstemp_template out = get_basedir out +:+ "sconv-XXXXXX".
Proof.
  intros Hlen. unfold mkstemp_template. apply str_take_all.
  rewrite str_length_app. simpl. lia.
Qed.

Lemma temp_name_fits dir sfx :
  temp_name (dir +:+ "sconv-XXXXXX") sfx = dir +:+ "sconv-" +:+ sfx.
Proof.
  unfold temp_name, str_drop_end. rewrite str_length_app. simpl.
  replace (String.length dir + 12 - 6)%nat with (String.length dir + 6)%nat
    by lia.
  rewrite str_take_app. simpl. by rewrite str_app_assoc.
Qed.

(** ** The temporary file *)

(** X3 (the property of C3, with a bound on the length). With [-o path],
    when [dirname(path)] followed by
    "sconv-XXXXXX" is at most 254 characters long and [mkstemp] succeeds,
    the temporary file is that name with the six X replaced, in the
    directory of the target, empty and with mode 0600. When the loop has
    returned, the descriptor is closed and the file is given the mode
    [S_IRWXU|S_IRGRP|S_IROTH] (0744); if that fails the run ends with
    "Exception: Can't change permissions of output file"; otherwise the file
    is renamed onto the target, and if that fails the run ends with
    "Exception: Can't swap temp file to output file". After either failure the
    temporary file is still there. The exit status is 0 in all three
    cases. *)
Theorem temp_file_created_and_published P argv w in_fd w1 fd tmp w2 :
  open_input P argv (set_outfile "" w) = (Ret in_fd, w1) ->
  outfile w1 <> "" ->
  (String.length (get_basedir (outfile w1)) + 12 <= 254)%nat ->
  sys_mkstemp P (mkstemp_template (outfile w1)) w1 = (Ret (fd, tmp), w2) ->
  fd <> -1 ->
  mkstemp_template (outfile w1) = get_basedir (outfile w1) +:+ "sconv-XXXXXX"
  /\ (exists sfx,
        valid_suffix sfx = true
        /\ tmp = get_basedir (outfile w1) +:+ "sconv-" +:+ sfx)
  /\ get_basedir tmp = get_basedir (outfile w1)
  /\ w_fs w1 !! tmp = None
  /\ w_fs w2 !! tmp = Some {| f_data := []; f_mode := 384 |}
  /\ Z.lor (Z.lor S_IRWXU S_IRGRP) S_IROTH = 484
  /\ forall total w3,
       conv_loop P (S (read_measure in_fd w2)) in_fd fd 0 w2 = (Ret total, w3) ->
       exists f wf,
         w_fs w3 !! tmp = Some f
         /\ sconv P argv w = (0, wf)
         /\ if p_chmod_fails P then
              w_trace wf = w_trace w3 ++ [EvClose fd; EvChmod tmp 484 (-1)]
              /\ w_stderr wf
                 = w_stderr w3
                   +:+ "Exception: Can't change permissions of output file"
                   +:+ nl
              /\ w_fs wf = w_fs w3
            else if p_rename_fails P then
              w_trace wf
              = w_trace w3 ++ [EvClose fd; EvChmod tmp 484 0;
                               EvRename tmp (outfile w1) (-1)]
              /\ w_stderr wf
                 = w_stderr w3
                   +:+ "Exception: Can't swap temp file to output file" +:+ nl
              /\ w_fs wf = <[tmp := set_mode 484 f]> (w_fs w3)
            else
              w_trace wf
              = w_trace w3 ++ [EvClose fd; EvChmod tmp 484 0;
                               EvRename tmp (outfile w1) 0]
              /\ w_stderr wf
                 = w_stderr w3 +:+ "Written: " +:+ pretty total +:+ " bytes"
                   +:+ nl
              /\ w_fs wf
                 = <[outfile w1 := set_mode 484 f]>
                     (delete tmp (<[tmp := set_mode 484 f]> (w_fs w3))).
Proof.
  intros Hin Hout Hlen Hmk Hfd.
  pose proof (mkstemp_template_fits _ Hlen) as Ht.
  destruct (sys_mkstemp_ok _ _ _ _ _ _ Hmk Hfd)
    as (sfx & _ & Hv & _ & Hname & Hnew & _ & Hw2).
  rewrite Ht, temp_name_fits in Hname.
  assert (Hslash : str_forallb (fun a => negb (Ascii.eqb a "/"))
                     ("sconv-" +:+ sfx) = true).
  { simpl. unfold valid_suffix in Hv. apply andb_true_iff in Hv as [_ Hv].
    apply (str_forallb_impl is_alnum); [apply is_alnum_not_slash|done]. }
  split; [done|]. split; [by exists sfx|].
  split; [rewrite Hname; by apply get_basedir_sibling|].
  split; [done|].
  split; [rewrite Hw2; unfold created; simpl; by rewrite lookup_insert_eq|].
  split; [done|].
  intros total w3 Hloop.
  pose proof (convert_to_file P in_fd w1 fd tmp w2 Hout Hmk Hfd) as Hfile.
  rewrite Hloop in Hfile.
  destruct Hfile as (Hwrote & _ & _ & _ & _ & Hout2 & Hf3 & _ & Hrun).
  destruct Hwrote as (_ & Hout3 & _).
  assert (Hout3' : outfile w3 <> "") by congruence.
  pose proof (publish_file P fd tmp total w3 _ Hout3' Hf3) as Hpub.
  rewrite (sconv_after_open _ _ _ _ _ Hin). unfold main_catch. rewrite Hrun.
  destruct (publish P fd tmp total w3) as [o wf].
  rewrite Hout3, Hout2 in Hpub.
  eexists _. destruct (p_chmod_fails P); [|destruct (p_rename_fails P)].
  - destruct Hpub as (-> & Htr & _ & Hfs & Herr).
    eexists. split; [done|]. split; [reflexivity|]. simpl.
    by rewrite Herr.
  - destruct Hpub as (-> & Htr & _ & Hfs & Herr).
    eexists. split; [done|]. split; [reflexivity|]. simpl.
    by rewrite Herr.
  - destruct Hpub as (-> & Htr & _ & Hfs & Herr).
    eexists. split; [done|]. split; [reflexivity|]. done.
Qed.

(** "hi" converted to d/out on a platform where [rename] fails: the
    error is reported and d/sconv-Ab3dE9 stays behind, with the converted
    bytes and mode 0744. *)
Lemma temp_file_created_and_published_witness :
  let P := {| p_wchar_size := 4; p_iconv := Some (utf8_to_wchar 4);
              p_posixly_correct := false; p_mkstemp := Some "Ab3dE9";
              p_chmod_fails := false; p_rename_fails := true |} in
  let w := boot ∅ [RdData (bytes_of "hi")] [] in
  exists wf,
    sconv P ["sconv"; "-o"; "d/out"] w = (0, wf)
    /\ w_stderr wf
       = "Exception: Can't swap temp file to output file" +:+ nl
    /\ w_fs wf !! "d/sconv-Ab3dE9"
       = Some {| f_data := [Byte.x68; Byte.x00; Byte.x00; Byte.x00;
                            Byte.x69; Byte.x00; Byte.x00; Byte.x00];
                 f_mode := 484 |}
    /\ w_fs wf !! "d/out" = None.
Proof.
  intros P w.
  set (argv := ["sconv"; "-o"; "d/out"]).
  set (w1 := set_outfile "d/out" w).
  set (w2 := (sys_mkstemp P (mkstemp_template (outfile w1)) w1).2).
  set (w3 := (conv_loop P (S (read_measure 0 w2)) 0 3 0 w2).2).
  assert (Hin : open_input P argv (set_outfile "" w) = (Ret 0, w1))
    by (vm_compute; reflexivity).
  assert (Hne : outfile w1 <> "") by (vm_compute; congruence).
  assert (Hlen : (String.length (get_basedir (outfile w1)) + 12 <= 254)%nat)
    by (vm_compute; lia).
  assert (Hmk : sys_mkstemp P (mkstemp_template (outfile w1)) w1
                = (Ret (3, "d/sconv-Ab3dE9"), w2))
    by (vm_compute; reflexivity).
  assert (Hloop : conv_loop P (S (read_measure 0 w2)) 0 3 0 w2 = (Ret 8, w3))
    by (vm_compute; reflexivity).
  destruct (temp_file_created_and_published P argv w 0 w1 3 "d/sconv-Ab3dE9"
              w2 Hin Hne Hlen Hmk ltac:(lia))
    as (_ & _ & _ & _ & _ & _ & Hpub).
  destruct (Hpub 8 w3 Hloop) as (f & wf & Hf & Hrun & Hcase).
  change (w_trace wf
          = w_trace w3 ++ [EvClose 3; EvChmod "d/sconv-Ab3dE9" 484 0;
                           EvRename "d/sconv-Ab3dE9" (outfile w1) (-1)]
          /\ w_stderr wf
             = w_stderr w3
               +:+ "Exception: Can't swap temp file to output file" +:+ nl
          /\ w_fs wf = <["d/sconv-Ab3dE9" := set_mode 484 f]> (w_fs w3))
    in Hcase.
  destruct Hcase as (_ & Herr & Hfs).
  assert (Hf3 : w_fs w3 !! "d/sconv-Ab3dE9"
                = Some {| f_data := [Byte.x68; Byte.x00; Byte.x00; Byte.x00;
                                     Byte.x69; Byte.x00; Byte.x00; Byte.x00];
                          f_mode := 384 |})
    by (vm_compute; reflexivity).
  assert (Herr3 : w_stderr w3 = "") by (vm_compute; reflexivity).
  assert (Hout3 : w_fs w3 !! "d/out" = None) by (vm_compute; reflexivity).
  rewrite Hf3 in Hf. injection Hf as <-.
  exists wf. split; [exact Hrun|]. split; [by rewrite Herr, Herr3|].
  rewrite Hfs. split.
  - by rewrite lookup_insert_eq.
  - by rewrite lookup_insert_ne.
Defined.

(** The claim of C3 without the bound on the length: with [-o] and the
    target [long_target], the template handed to [mkstemp] is cut off after
    the XXXXXX that is part of the directory name; the temporary file is
    made one directory above the target's, under a name without "sconv-",
    and from there it is renamed onto the target. *)
Lemma temp_file_long_path_counterexample :
  let P := linux "Ab3dE9" in
  let w := boot ∅ [] [] in
  let tmp := str_repeat 247 "a" +:+ "/Ab3dE9" in
  w_trace (sconv P ["sconv"; "-o"; long_target] w).2
  = [EvMkstemp (str_repeat 247 "a" +:+ "/XXXXXX") 3; EvRead 0 4095 0;
     EvClose 3; EvChmod tmp 484 0; EvRename tmp long_target 0]
  /\ str_repeat 247 "a" +:+ "/XXXXXX"
     <> get_basedir long_target +:+ "sconv-XXXXXX"
  /\ get_basedir tmp <> get_basedir long_target
  /\ (forall sfx, tmp <> get_basedir long_target +:+ "sconv-" +:+ sfx).
Proof.
  intros P w tmp. split; [by vm_compute|].
  split; [by vm_compute|]. split; [by vm_compute|].
  intros sfx Heq.
  assert (String.length tmp
          = String.length (get_basedir long_target +:+ "sconv-" +:+ sfx))
    as Hlen by by rewrite <- Heq.
  rewrite !str_length_app in Hlen. vm_compute in Hlen. lia.
Qed.

(** ** The target path during a run *)

Lemma sys_mkstemp_ret P template w :
  exists fd name w2, sys_mkstemp P template w = (Ret (fd, name), w2).
Proof.
  unfold sys_mkstemp.
  destruct (negb _); [by eexists _, _, _|].
  destruct (p_mkstemp P) as [sfx|]; [|by eexists _, _, _].
  destruct (negb _); [by eexists _, _, _|].
  destruct (w_fs w !! _); [by eexists _, _, _|].
  destruct (alloc_fd _); by eexists _, _, _.
Qed.

(** From the moment the output is opened: the target is not touched
    before the [rename], and an exception leaves it as it was. *)
Lemma convert_to_output_target P in_fd w1 :
  outfile w1 <> "" ->
  (forall sfx, p_mkstemp P = Some sfx ->
     temp_name (mkstemp_template (outfile w1)) sfx <> outfile w1) ->
  let out := outfile w1 in
  let prior := w_fs w1 !! out in
  let '(o, wf) := convert_to_output P in_fd w1 in
  exists new,
    w_hist wf = w_hist w1 ++ new
    /\ (target_unchanged out prior new wf
        \/ (o = Ret 0
            /\ target_published out prior (recoded P in_fd w1) new wf
            /\ w_stderr wf
               = w_stderr w1 +:+ "Written: "
                 +:+ pretty (Z.of_nat (length (recoded P in_fd w1)))
                 +:+ " bytes" +:+ nl))
    /\ (forall e, o = Throw e -> target_unchanged out prior new wf).
Proof.
  intros Hout Hdiff out prior.
  destruct (sys_mkstemp_ret P (mkstemp_template out) w1)
    as (fd & tmp & w2 & Hmk).
  destruct (decide (fd = -1)) as [->|Hfd].
  { (* no temporary file: main returns *)
    assert (convert_to_output P in_fd w1 = (Ret 0, w2)) as ->.
    { unfold convert_to_output. unfold bind at 1. unfold get.
      apply String.eqb_neq in Hout. rewrite Hout. simpl.
      unfold bind. unfold out in Hmk. by rewrite Hmk. }
    apply sys_mkstemp_fail in Hmk as ->.
    exists [w_fs w1]. split; [done|].
    assert (target_unchanged out prior [w_fs w1]
              (log (EvMkstemp (mkstemp_template out) (-1)) w1)) as Hun.
    { split; [by apply Forall_singleton|done]. }
    split; [by left|done]. }
  pose proof (convert_to_file P in_fd w1 fd tmp w2 Hout Hmk Hfd) as Hfile.
  destruct (sys_mkstemp_ok _ _ _ _ _ _ Hmk Hfd)
    as (sfx & Hsfx & _ & _ & Hname & _ & _ & _).
  assert (Hne : tmp <> out) by (rewrite Hname; by apply Hdiff).
  assert (Hobj : FdFile tmp <> FdFile out) by congruence.
  destruct (conv_loop P (S (read_measure in_fd w2)) in_fd fd 0 w2)
    as [oc w3].
  destruct Hfile as (Hwrote & _ & Hh2 & Hfs2 & Herr2 & Hout2 & Hend).
  destruct Hwrote as (Herr3 & Hout3 & Hfs3 & _ & new3 & Hh3 & Hnew3).
  assert (H2 : w_fs w2 !! out = prior).
  { rewrite Hfs2. by rewrite lookup_insert_ne. }
  assert (H3 : w_fs w3 !! out = prior) by by rewrite Hfs3.
  assert (Hpre : Forall (fun s : gmap string file => s !! out = prior)
                   ([w_fs w2] ++ new3)).
  { apply Forall_app. split; [by apply Forall_singleton|].
    eapply Forall_impl; [exact Hnew3|]. simpl. intros s Hs.
    by rewrite Hs. }
  assert (Hh : w_hist w3 = w_hist w1 ++ [w_fs w2] ++ new3).
  { by rewrite Hh3, Hh2, <- app_assoc. }
  assert (Hstop : convert_to_output P in_fd w1 = (oc, w3) ->
            let '(o, wf) := convert_to_output P in_fd w1 in
            exists new,
              w_hist wf = w_hist w1 ++ new
              /\ (target_unchanged out prior new wf
                  \/ (o = Ret 0
                      /\ target_published out prior (recoded P in_fd w1) new wf
                      /\ w_stderr wf
                         = w_stderr w1 +:+ "Written: "
                           +:+ pretty (Z.of_nat (length (recoded P in_fd w1)))
                           +:+ " bytes" +:+ nl))
              /\ (forall e, o = Throw e -> target_unchanged out prior new wf)).
  { intros ->. exists ([w_fs w2] ++ new3). split; [done|].
    assert (target_unchanged out prior ([w_fs w2] ++ new3) w3) by done.
    split; [by left|done]. }
  destruct oc as [total|e|c|]; try by apply Hstop.
  destruct Hend as (Hf3 & Htot & ->).
  assert (Hout3' : outfile w3 <> "") by congruence.
  pose proof (publish_file P fd tmp total w3 _ Hout3' Hf3) as Hpub.
  destruct (publish P fd tmp total w3) as [o wf].
  rewrite Hout3, Hout2 in Hpub. fold out in Hpub.
  set (fs1 := <[tmp := set_mode 484 _]> (w_fs w3)) in *.
  assert (H1 : fs1 !! out = prior).
  { unfold fs1. by rewrite lookup_insert_ne. }
  destruct (p_chmod_fails P); [|destruct (p_rename_fails P)].
  - destruct Hpub as (-> & _ & Hhf & Hfsf & _).
    exists (([w_fs w2] ++ new3) ++ [w_fs w3; w_fs w3]).
    split; [by rewrite Hhf, Hh, <- !app_assoc|].
    assert (target_unchanged out prior
              (([w_fs w2] ++ new3) ++ [w_fs w3; w_fs w3]) wf) as Hun.
    { split; [|by rewrite Hfsf].
      apply Forall_app. split; [done|]. by repeat constructor. }
    split; [by left|done].
  - destruct Hpub as (-> & _ & Hhf & Hfsf & _).
    exists (([w_fs w2] ++ new3) ++ [w_fs w3; fs1; fs1]).
    split; [by rewrite Hhf, Hh, <- !app_assoc|].
    assert (target_unchanged out prior
              (([w_fs w2] ++ new3) ++ [w_fs w3; fs1; fs1]) wf) as Hun.
    { split; [|by rewrite Hfsf].
      apply Forall_app. split; [done|]. by repeat constructor. }
    split; [by left|done].
  - destruct Hpub as (-> & _ & Hhf & Hfsf & Herrf).
    exists (([w_fs w2] ++ new3 ++ [w_fs w3; fs1]) ++ [w_fs wf]).
    split; [by rewrite Hhf, Hh, <- !app_assoc|].
    split; [|done]. right. split; [done|]. split.
    + exists ([w_fs w2] ++ new3 ++ [w_fs w3; fs1]). split; [done|]. split.
      * rewrite app_assoc. apply Forall_app. split; [done|].
        by repeat constructor.
      * rewrite Hfsf. by rewrite lookup_insert_eq.
    + rewrite Herrf, Herr3, Herr2, Htot. done.
Qed.

(** X2 (the property of C1, with a proviso). With [-o], and provided the
    name [mkstemp] picks for
    the temporary file is not the target path itself, an observer of the
    target path sees, after every call the run makes, either what was there
    before the run (a file, or nothing) or, after the final [rename] only,
    the complete converted content with mode 0744. When the run ends in an
    exception (a short write, say), the target is what it was before. *)
Theorem target_never_partial P argv w in_fd w1 :
  open_input P argv (set_outfile "" w) = (Ret in_fd, w1) ->
  outfile w1 <> "" ->
  (forall sfx, p_mkstemp P = Some sfx ->
     temp_name (mkstemp_template (outfile w1)) sfx <> outfile w1) ->
  let out := outfile w1 in
  let prior := w_fs w !! out in
  exists wf new,
    sconv P argv w = (0, wf)
    /\ w_hist wf = w_hist w ++ new
    /\ (target_unchanged out prior new wf
        \/ (target_published out prior (recoded P in_fd w1) new wf
            /\ w_stderr wf
               = w_stderr w1 +:+ "Written: "
                 +:+ pretty (Z.of_nat (length (recoded P in_fd w1)))
                 +:+ " bytes" +:+ nl))
    /\ (forall e w',
          main_try P argv (set_outfile "" w) = (Throw e, w') ->
          target_unchanged out prior new wf).
Proof.
  intros Hin Hout Hdiff out prior.
  pose proof (convert_to_output_target P in_fd w1 Hout Hdiff) as Hcore.
  pose proof (convert_to_output_result P in_fd w1) as Hres.
  assert (Htry : main_try P argv (set_outfile "" w)
                 = convert_to_output P in_fd w1).
  { unfold main_try. unfold bind at 1. by rewrite Hin. }
  rewrite Htry. rewrite (sconv_after_open _ _ _ _ _ Hin). unfold main_catch.
  destruct (open_input_ret _ _ _ _ _ Hin)
    as (optind & argv' & w0 & _ & _ & _ & _ & Hfs & _ & Hopen).
  assert (Hpre : exists pre,
            w_hist w1 = w_hist w ++ pre
            /\ Forall (fun s : gmap string file => s !! out = prior) pre).
  { destruct Hopen as [(_ & _ & Hh & _)|(path & f & _ & _ & _ & _ & Hh & _)].
    - exists []. by rewrite app_nil_r.
    - exists [w_fs w]. split; [done|]. by apply Forall_singleton. }
  destruct Hpre as (pre & Hh1 & Hpre).
  fold out in Hcore. rewrite Hfs in Hcore. fold prior in Hcore.
  destruct (convert_to_output P in_fd w1) as [o w'].
  destruct Hcore as (new & Hh & Hcase & Hthrow).
  assert (Hlift : forall wf,
            w_fs wf = w_fs w' ->
            target_unchanged out prior new w' ->
            target_unchanged out prior (pre ++ new) wf).
  { intros wf Hsame [Hall Hend]. split; [by apply Forall_app|].
    by rewrite Hsame. }
  destruct o as [st|[what|]|c|]; simpl in Hres; try done.
  - subst st. exists w', (pre ++ new).
    split; [done|]. split; [by rewrite Hh, Hh1, <- app_assoc|].
    split; [|done].
    destruct Hcase as [Hun|(_ & (pre' & -> & Hall & Hend) & Herr)].
    + left. by apply Hlift.
    + right. split; [|done].
      exists (pre ++ pre'). split; [by rewrite <- app_assoc|].
      split; [by apply Forall_app|done].
  - eexists _, (pre ++ new). split; [reflexivity|]. simpl.
    split; [by rewrite Hh, Hh1, <- app_assoc|].
    assert (target_unchanged out prior (pre ++ new)
              (set_stderr (w_stderr w' +:+ "Exception: " +:+ what +:+ nl) w'))
      as Hun by (apply Hlift; [done|by eapply Hthrow]).
    split; [by left|done].
  - subst c. exists w', (pre ++ new).
    split; [done|]. split; [by rewrite Hh, Hh1, <- app_assoc|].
    split; [|done].
    destruct Hcase as [Hun|(Hret & _)]; [|done].
    left. by apply Hlift.
Qed.

(** "hi" converted to d/out, which does not exist before: it is absent
    after each of the calls but the last, and complete after the last. *)
Lemma target_never_partial_witness :
  let P := linux "Ab3dE9" in
  let w := boot ∅ [RdData (bytes_of "hi")] [] in
  exists wf pre,
    sconv P ["sconv"; "-o"; "d/out"] w = (0, wf)
    /\ w_hist wf = pre ++ [w_fs wf]
    /\ Forall (fun s : gmap string file => s !! "d/out" = None) pre
    /\ w_fs wf !! "d/out"
       = Some {| f_data := [Byte.x68; Byte.x00; Byte.x00; Byte.x00;
                            Byte.x69; Byte.x00; Byte.x00; Byte.x00];
                 f_mode := 484 |}.
Proof.
  intros P w.
  assert (Hne : outfile (set_outfile "d/out" w) <> "") by (simpl; congruence).
  assert (Hdiff : forall sfx, p_mkstemp P = Some sfx ->
            temp_name (mkstemp_template (outfile (set_outfile "d/out" w))) sfx
            <> outfile (set_outfile "d/out" w)).
  { intros sfx [= <-]. by vm_compute. }
  destruct (target_never_partial P ["sconv"; "-o"; "d/out"] w 0
              (set_outfile "d/out" w) eq_refl Hne Hdiff)
    as (wf & new & Hrun & Hh & Hcase & _).
  exists wf. destruct Hcase as [[_ Hun]|[(pre & -> & Hall & Hend) _]].
  - exfalso. injection Hrun as <-. by vm_compute in Hun.
  - exists pre. split; [exact Hrun|]. split; [exact Hh|].
    split; [exact Hall|exact Hend].
Defined.

(** The claim of C1 without the proviso: the target sconv-aaaaaa does not
    exist, [mkstemp] picks aaaaaa, the first chunk is written and the
    second [write] fails. The run ends in an exception and the target
    path now holds the conversion of the first chunk only. *)
Lemma target_partial_counterexample :
  let P := linux "aaaaaa" in
  let w := boot ∅ [RdData (bytes_of "a"); RdData (bytes_of "b")]
             [WrAll; WrError] in
  let wf := (sconv P ["sconv"; "-o"; "sconv-aaaaaa"] w).2 in
  w_fs w !! "sconv-aaaaaa" = None
  /\ w_fs wf !! "sconv-aaaaaa"
     = Some {| f_data := [Byte.x61; Byte.x00; Byte.x00; Byte.x00];
               f_mode := 384 |}
  /\ w_stderr wf
     = "Exception: Couldn't write the required bytes to stdout" +:+ nl.
Proof. by vm_compute. Qed.

(** ** The option table *)

Lemma prefix_take name full :
  String.prefix name full = true ->
  exists k, (k <= String.length full)%nat /\ name = str_take k full.
Proof.
  revert full. induction name as [|c name IH]; intros full Hp.
  - exists 0%nat. split; [lia|by destruct full].
  - destruct full as [|b full]; [done|]. simpl in Hp.
    destruct (ascii_dec c b) as [->|]; [|done].
    destruct (IH full Hp) as (k & Hk & ->).
    exists (S k). split; [simpl; lia|done].
Qed.

Definition output_file_entry : option_t :=
  {| o_name := "output-file"; o_has_arg := required_argument;
     o_flag := None; o_val := char_code "o" |}.

Definition help_entry : option_t :=
  {| o_name := "help"; o_has_arg := no_argument; o_flag := None;
     o_val := 0 |}.

Lemma lookup_output_file name :
  abbreviates name "output-file" = true ->
  lookup_long long_options name = Found 0 output_file_entry.
Proof.
  unfold abbreviates. intros [Hne Hp]%andb_true_iff.
  apply prefix_take in Hp as (k & Hk & ->). simpl in Hk.
  do 12 (destruct k as [|k]; [try done; by vm_compute|]). lia.
Qed.

Lemma lookup_help name :
  abbreviates name "help" = true ->
  lookup_long long_options name = Found 1 help_entry.
Proof.
  unfold abbreviates. intros [Hne Hp]%andb_true_iff.
  apply prefix_take in Hp as (k & Hk & ->). simpl in Hk.
  do 5 (destruct k as [|k]; [try done; by vm_compute|]). lia.
Qed.

(** Any other name is not found: it is ambiguous (the empty name) or
    unknown. *)
Lemma lookup_other name :
  abbreviates name "output-file" = false ->
  abbreviates name "help" = false ->
  (exists cands, lookup_long long_options name = Ambiguous cands)
  \/ lookup_long long_options name = Unknown.
Proof.
  unfold abbreviates.
  destruct (String.eqb name "") eqn:He.
  { apply String.eqb_eq in He. subst name. intros _ _. left. by eexists. }
  simpl. intros Ho Hh. right.
  unfold lookup_long, long_options. simpl.
  destruct (String.eqb name "output-file") eqn:E1.
  { apply String.eqb_eq in E1. subst name. done. }
  destruct (String.eqb name "help") eqn:E2.
  { apply String.eqb_eq in E2. subst name. done. }
  by rewrite Ho, Hh.
Qed.

(** ** One step of the scan *)

(** What [parse_args] does with the result of one call of [getopt_long]
    (the library has printed its diagnostic by then). *)
Definition after_getopt (P : platform) (fuel : nat) (prog version : string)
  (res : getopt_res * getopt_data) (w : World) : outcome getopt_data * World :=
  let w1 := match r_diag res.1 with
            | Some text => set_stderr (w_stderr w +:+ text) w
            | None => w
            end in
  if r_c res.1 =? -1 then (Ret res.2, w1)
  else match parse_switch prog version res.1 w1 with
       | (Ret _, w2) => parse_loop P fuel prog version res.2 w2
       | (Throw e, w2) => (Throw e, w2)
       | (Exit c, w2) => (Exit c, w2)
       | (OutOfFuel, w2) => (OutOfFuel, w2)
       end.

Lemma parse_loop_S P fuel prog version d w :
  parse_loop P (S fuel) prog version d w
  = after_getopt P fuel prog version
      (getopt_long (p_posixly_correct P) "o:" long_options d) w.
Proof.
  unfold after_getopt. cbn [parse_loop]. unfold bind at 1.
  rewrite sys_getopt_long_run.
  destruct (getopt_long _ _ _ d) as [r d']. cbn [fst snd].
  destruct (r_c r =? -1); [done|]. unfold bind.
  by destruct (parse_switch _ _ _ _) as [[[]|e|c|] w2].
Qed.



(** A short option of this program: [o] takes a value, everything else is
    invalid. *)
Lemma short_option_step c s d :
  process_short_option "o:" c s d
  = if Ascii.eqb c "o" then
      match s with
      | String _ _ =>
          ({| r_c := char_code "o"; r_optarg := Some s; r_longind := None;
              r_diag := None |}, with_nextchar d "")
      | EmptyString =>
          match g_rest d with
          | a :: r =>
              ({| r_c := char_code "o"; r_optarg := Some a;
                  r_longind := None; r_diag := None |}, with_done d a r "")
          | [] =>
              ({| r_c := char_code "?"; r_optarg := None; r_longind := None;
                  r_diag := Some (g_prog d
                                  +:+ ": option requires an argument -- '"
                                  +:+ String c "'" +:+ nl) |},
               with_nextchar d "")
          end
      end
    else (res_err (invalid_option (g_prog d) c), with_nextchar d s).
Proof.
  unfold process_short_option. cbn [strchr].
  destruct (Ascii.eqb_spec c "o") as [->|Ho]; [by destruct s|].
  destruct (Ascii.eqb_spec c ":") as [->|Hc]; [done|done].
Qed.

Lemma parse_switch_o prog version r w :
  r_c r = char_code "o" ->
  parse_switch prog version r w
  = (Ret tt, set_outfile (default "" (r_optarg r)) w).
Proof. intros Hc. unfold parse_switch. by rewrite Hc. Qed.

Lemma parse_switch_question prog version r w :
  r_c r = char_code "?" ->
  parse_switch prog version r w = (Ret tt, w).
Proof. intros Hc. unfold parse_switch. by rewrite Hc. Qed.

Lemma parse_switch_help prog version r w :
  r_c r = 0 -> r_longind r = Some 1%nat ->
  parse_switch prog version r w
  = (Exit 0, set_stderr (w_stderr w +:+ usage prog version) w).
Proof. intros Hc Hi. unfold parse_switch. by rewrite Hc, Hi. Qed.

Lemma after_getopt_help P fuel prog version res w :
  r_c res.1 = 0 -> r_longind res.1 = Some 1%nat -> r_diag res.1 = None ->
  after_getopt P fuel prog version res w
  = (Exit 0, set_stderr (w_stderr w +:+ usage prog version) w).
Proof.
  intros Hc Hi Hd. unfold after_getopt. rewrite Hd.
  by rewrite (parse_switch_help prog version _ w Hc Hi), Hc.
Qed.

(** After an [o] or a ['?'] the loop goes on; standard error has the
    diagnostic, if there was one, and nothing else. *)
Lemma after_getopt_continue P fuel prog version res w :
  r_c res.1 = char_code "o" \/ r_c res.1 = char_code "?" ->
  exists w2 dtext,
    after_getopt P fuel prog version res w
    = parse_loop P fuel prog version res.2 w2
    /\ w_stderr w2 = w_stderr w +:+ dtext
    /\ dtext = default "" (r_diag res.1)
    /\ only_options_changed w w2.
Proof.
  intros Hc. unfold after_getopt.
  set (w1 := match r_diag res.1 with
             | Some text => set_stderr (w_stderr w +:+ text) w
             | None => w
             end).
  assert (Herr1 : w_stderr w1 = w_stderr w +:+ default "" (r_diag res.1)).
  { unfold w1. destruct (r_diag res.1) as [text|]; [done|].
    simpl. clear. induction (w_stderr w) as [|a s IHs]; [done|].
    simpl. by rewrite <- IHs. }
  assert (Hf1 : only_options_changed w w1).
  { unfold w1. destruct (r_diag res.1); by repeat split. }
  assert (Hne : (r_c res.1 =? -1) = false) by by destruct Hc as [-> | ->].
  rewrite Hne.
  destruct Hc as [Hc|Hc].
  - rewrite (parse_switch_o _ _ _ _ Hc). eexists _, _.
    split; [reflexivity|]. split; [exact Herr1|]. split; [done|].
    destruct Hf1 as (?&?&?&?&?&?). by repeat split.
  - rewrite (parse_switch_question _ _ _ _ Hc). eexists _, _.
    split; [reflexivity|]. by split; [exact Herr1|].
Qed.

(** ** An option that lies ahead is reached *)

Lemma short_step_ahead posix h rest c s d pre :
  g_rest d = pre ++ h :: rest ->
  reads_from posix (String c s) pre = true ->
  (r_c (process_short_option "o:" c s d).1 = char_code "o"
   \/ r_c (process_short_option "o:" c s d).1 = char_code "?")
  /\ option_ahead posix h rest (process_short_option "o:" c s d).2.
Proof.
  intros Hrest Hreads. rewrite short_option_step.
  unfold reads_from in Hreads. cbn [cluster_wants_next] in Hreads.
  destruct (Ascii.eqb c "o").
  - destruct s as [|c' s'].
    + destruct pre as [|x pre']; [done|]. rewrite Hrest. simpl.
      split; [by left|]. by exists pre'.
    + simpl. split; [by left|]. by exists pre.
  - simpl. split; [by right|]. by exists pre.
Qed.

Lemma long_text_shape a text :
  long_text a = Some text -> a = String "-" (String "-" text).
Proof.
  destruct a as [|c1 [|c2 t]]; try done. simpl.
  destruct (Ascii.eqb_spec c1 "-") as [->|]; [|done].
  destruct (Ascii.eqb_spec c2 "-") as [->|]; [|done].
  by intros [= ->].
Qed.

Lemma long_step_ahead posix h rest a text d pre :
  g_nextchar d = "" ->
  g_rest d = pre ++ h :: rest ->
  long_text a = Some text ->
  (if consumes_next a
   then match pre with
        | [] => false
        | _ :: pre' => reads_as_option posix pre'
        end
   else reads_as_option posix pre) = true ->
  (r_c (process_long_option "o:" long_options text d).1 = 0
   /\ r_longind (process_long_option "o:" long_options text d).1 = Some 1%nat
   /\ r_diag (process_long_option "o:" long_options text d).1 = None)
  \/ ((r_c (process_long_option "o:" long_options text d).1 = char_code "o"
       \/ r_c (process_long_option "o:" long_options text d).1 = char_code "?")
      /\ option_ahead posix h rest
           (process_long_option "o:" long_options text d).2).
Proof.
  intros Hnext Hrest Htext Hreads.
  unfold consumes_next in Hreads. rewrite Htext in Hreads.
  unfold process_long_option.
  assert (Hsame : reads_as_option posix pre = true ->
            option_ahead posix h rest d).
  { intros H. exists pre. by rewrite Hnext. }
  destruct (split_eq text) as [name value].
  destruct (abbreviates name "output-file") eqn:Ho.
  { rewrite (lookup_output_file name Ho). right.
    destruct value as [v|]; simpl.
    - split; [by left|]. by apply Hsame.
    - destruct pre as [|x pre']; [done|]. rewrite Hrest. simpl.
      split; [by left|]. by exists pre'. }
  assert (Hpre : reads_as_option posix pre = true).
  { by destruct value. }
  destruct (abbreviates name "help") eqn:Hh.
  { rewrite (lookup_help name Hh).
    destruct value as [v|]; simpl.
    - right. split; [by right|]. by apply Hsame.
    - by left. }
  right.
  destruct (lookup_other name Ho Hh) as [[cands ->]| ->]; simpl;
    (split; [by right|by apply Hsame]).
Qed.

Lemma skip_nonoptions_ahead h rest pre :
  NONOPTION_P h = false ->
  reads_as_option false pre = true ->
  exists n pre2,
    skip_nonoptions (pre ++ h :: rest) = (n, pre2 ++ h :: rest)
    /\ reads_as_option false pre2 = true
    /\ match pre2 with a :: _ => NONOPTION_P a = false | [] => True end.
Proof.
  intros Hh. induction pre as [|a pre IH]; intros Hreads.
  - exists [], []. simpl. by rewrite Hh.
  - simpl in Hreads. destruct (String.eqb a "--") eqn:E; [done|].
    destruct (NONOPTION_P a) eqn:Ha.
    + destruct (IH Hreads) as (n & pre2 & Hskip & Hr2 & Hhead).
      exists (a :: n), pre2. simpl. by rewrite Ha, Hskip.
    + exists [], (a :: pre). simpl. rewrite Ha.
      split; [done|]. split; [|done]. by rewrite E.
Qed.

Lemma nonoption_shape a :
  NONOPTION_P a = false -> exists c s, a = String "-" (String c s).
Proof.
  destruct a as [|c1 [|c2 s]]; try done. simpl.
  destruct (Ascii.eqb_spec c1 "-") as [->|]; [|done]. by eexists _, _.
Qed.

(** Where the scan stands once the non-options have been passed over. *)
Lemma permute_ahead posix h rest d pre :
  NONOPTION_P h = false ->
  g_nextchar d = "" ->
  g_rest d = pre ++ h :: rest ->
  reads_as_option posix pre = true ->
  let d1 := if posix then d else permute d in
  g_nextchar d1 = ""
  /\ exists pre2,
       g_rest d1 = pre2 ++ h :: rest
       /\ reads_as_option posix pre2 = true
       /\ match pre2 with a :: _ => NONOPTION_P a = false | [] => True end.
Proof.
  intros Hh Hn Hrest Hreads. destruct posix; simpl.
  - split; [done|]. exists pre. split; [done|]. split; [done|].
    destruct pre as [|a pre']; [done|]. simpl in Hreads.
    destruct (String.eqb a "--"); [done|].
    by destruct (NONOPTION_P a).
  - split; [by rewrite permute_nextchar|].
    destruct (skip_nonoptions_ahead h rest pre Hh Hreads)
      as (n & pre2 & Hskip & Hr2 & Hhead).
    exists pre2. unfold permute. rewrite Hrest, Hskip. done.
Qed.

(** One call of [getopt_long] while the option [h] lies ahead: either the
    scan stands at [h], or the call returns [--help], or it returns an
    option or an error and [h] still lies ahead. *)
Lemma getopt_step_ahead posix h rest d :
  NONOPTION_P h = false ->
  option_ahead posix h rest d ->
  (g_nextchar d = "" /\ g_rest (if posix then d else permute d) = h :: rest)
  \/ (r_c (getopt_long posix "o:" long_options d).1 = 0
      /\ r_longind (getopt_long posix "o:" long_options d).1 = Some 1%nat
      /\ r_diag (getopt_long posix "o:" long_options d).1 = None)
  \/ ((r_c (getopt_long posix "o:" long_options d).1 = char_code "o"
       \/ r_c (getopt_long posix "o:" long_options d).1 = char_code "?")
      /\ option_ahead posix h rest (getopt_long posix "o:" long_options d).2).
Proof.
  intros Hh (pre & Hrest & Hreads). unfold getopt_long.
  destruct (g_nextchar d) as [|c s] eqn:Hn.
  - unfold reads_from in Hreads. simpl in Hreads.
    destruct (permute_ahead posix h rest d pre Hh Hn Hrest Hreads)
      as (Hn1 & pre2 & Hrest1 & Hreads1 & Hhead).
    set (d1 := if posix then d else permute d) in *.
    destruct pre2 as [|a pre3]; [by left|]. right.
    rewrite Hrest1. simpl in Hreads1. cbn [app].
    destruct (String.eqb a "--") eqn:Hdd; [done|].
    rewrite Hhead in *.
    destruct (nonoption_shape a Hhead) as (c2 & s' & ->).
    destruct (Ascii.eqb c2 "-") eqn:Hc2.
    + assert (Hlt : long_text (String "-" (String c2 s')) = Some s').
      { simpl. by rewrite Hc2. }
      destruct (long_step_ahead posix h rest (String "-" (String c2 s')) s'
                  (with_done d1 (String "-" (String c2 s')) (pre3 ++ h :: rest) "")
                  pre3 eq_refl eq_refl Hlt Hreads1) as [H|H]; [by left|by right].
    + right. apply (short_step_ahead posix h rest c2 s' _ pre3); [done|].
      unfold reads_from. unfold consumes_next in Hreads1. simpl in Hreads1.
      by rewrite Hc2 in Hreads1.
  - right. right. by apply (short_step_ahead posix h rest c s d pre).
Qed.

Lemma is_help_shape h :
  is_help h = true ->
  NONOPTION_P h = false /\ String.eqb h "--" = false
  /\ exists text name,
       h = String "-" (String "-" text)
       /\ split_eq text = (name, None)
       /\ abbreviates name "help" = true.
Proof.
  unfold is_help. destruct (long_text h) as [text|] eqn:Ht; [|done].
  apply long_text_shape in Ht as ->.
  destruct (split_eq text) as [name [v|]] eqn:Hs; [done|]. intros Ha.
  split; [done|]. split.
  - destruct text; [|done]. simpl in Hs. by injection Hs as <-.
  - by exists text, name.
Qed.

(** The call that finds [--help]. *)
Lemma getopt_at_help (posix : bool) h rest d :
  is_help h = true ->
  g_nextchar d = "" ->
  g_rest (if posix then d else permute d) = h :: rest ->
  r_c (getopt_long posix "o:" long_options d).1 = 0
  /\ r_longind (getopt_long posix "o:" long_options d).1 = Some 1%nat
  /\ r_diag (getopt_long posix "o:" long_options d).1 = None.
Proof.
  intros Hh Hn Hrest.
  destruct (is_help_shape h Hh) as (Hno & Hdd & text & name & -> & Hs & Ha).
  unfold getopt_long. rewrite Hn, Hrest, Hdd, Hno. simpl.
  unfold process_long_option. rewrite Hs, (lookup_help name Ha). done.
Qed.

(** When [--help] lies ahead and is read as an option, the loop of
    [parse_args] ends in [std::exit(0)], and the usage text is the last
    thing it has printed. *)
Lemma parse_loop_help P fuel prog version d w h rest :
  is_help h = true ->
  option_ahead (p_posixly_correct P) h rest d ->
  (getopt_measure d < fuel)%nat ->
  (parse_loop P fuel prog version d w).1 = Exit 0
  /\ exists text,
       w_stderr (parse_loop P fuel prog version d w).2
       = w_stderr w +:+ text +:+ usage prog version.
Proof.
  intros Hh. revert d w.
  destruct (is_help_shape h Hh) as (Hno & _).
  induction fuel as [|fuel IH]; intros d w Hahead Hlt; [lia|].
  rewrite parse_loop_S.
  pose proof (getopt_long_measure (p_posixly_correct P) "o:" long_options d)
    as Hm.
  destruct (getopt_step_ahead (p_posixly_correct P) h rest d Hno Hahead)
    as [[Hn Hat]|[(Hc & Hi & Hd)|[Hc Hnext]]].
  - destruct (getopt_at_help _ h rest d Hh Hn Hat) as (Hc & Hi & Hd).
    rewrite after_getopt_help by done. split; [done|]. by exists "".
  - rewrite after_getopt_help by done. split; [done|]. by exists "".
  - destruct (after_getopt_continue P fuel prog version _ w Hc)
      as (w2 & dtext & -> & Herr2 & _).
    destruct (getopt_long _ _ _ d) as [r d']. cbn [fst snd] in *.
    destruct Hm as [Hm|Hm]; [by destruct Hc as [Hc|Hc]; rewrite Hc in Hm|].
    destruct (IH d' w2 Hnext ltac:(lia)) as (Hexit & text & Htext).
    split; [done|]. exists (dtext +:+ text).
    by rewrite Htext, Herr2, !str_app_assoc.
Qed.

(** ** --help *)

(** X4 (the property of C9, with a proviso). When [--help] (or a
    beginning of it) is an argument
    that [getopt_long] reads as an option (no earlier argument is [--],
    none is an [-o] or [--output-file] that takes it as its value, and
    with POSIXLY_CORRECT set none is a non-option), then whatever the
    other arguments are, the run prints the usage text on standard error,
    after the diagnostics of [getopt_long] for the arguments before it,
    and ends at once with status 0: no call is made, no file and no
    descriptor is touched, nothing is converted or written. *)
Theorem help_prints_usage_and_exits P prog pre h rest w :
  is_help h = true ->
  reads_as_option (p_posixly_correct P) pre = true ->
  exists wf text,
    sconv P (prog :: pre ++ h :: rest) w = (0, wf)
    /\ w_stderr wf = w_stderr w +:+ text +:+ usage prog VERSION
    /\ w_trace wf = w_trace w /\ w_hist wf = w_hist w
    /\ w_fs wf = w_fs w /\ w_fds wf = w_fds w
    /\ w_stdout wf = w_stdout w /\ w_writes wf = w_writes w.
Proof.
  intros Hh Hreads.
  set (d0 := getopt_init prog (pre ++ h :: rest)).
  assert (Hahead : option_ahead (p_posixly_correct P) h rest d0).
  { by exists pre. }
  destruct (parse_loop_help P (S (getopt_measure d0)) prog VERSION d0
              (set_outfile "" w) h rest Hh Hahead ltac:(lia))
    as (Hexit & text & Herr).
  pose proof (parse_loop_frame P (S (getopt_measure d0)) prog VERSION d0
                (set_outfile "" w)) as Hframe.
  assert (Hrun : sconv P (prog :: pre ++ h :: rest) w
                 = (0, (parse_loop P (S (getopt_measure d0)) prog VERSION d0
                          (set_outfile "" w)).2)).
  { unfold sconv, main, main_catch, main_try, open_input, parse_args.
    unfold bind. cbn [hd tl]. fold d0.
    destruct (parse_loop P (S (getopt_measure d0)) prog VERSION d0
                (set_outfile "" w)) as [o w'].
    simpl in Hexit. by subst o. }
  destruct (parse_loop P (S (getopt_measure d0)) prog VERSION d0
              (set_outfile "" w)) as [o w'].
  destruct Hframe as (Hfs & Hfds & Hso & Hwr & Htr & Hh').
  exists w', text. simpl in *. by repeat split.
Qed.

(** [sconv -x -o out in --help -- -o]: one diagnostic, then the usage
    text; the status is 0 and no call is made. *)
Lemma help_prints_usage_and_exits_witness :
  let w := boot ∅ [RdData (bytes_of "hi")] [] in
  sconv (linux "Ab3dE9")
    ("sconv" :: ["-x"; "-o"; "out"; "in"] ++ "--help" :: ["--"; "-o"]) w
  = (0, set_stderr ("sconv: invalid option -- 'x'" +:+ nl
                    +:+ usage "sconv" VERSION)
          (set_outfile "out" w)).
Proof.
  intros w.
  destruct (help_prints_usage_and_exits (linux "Ab3dE9") "sconv"
              ["-x"; "-o"; "out"; "in"] "--help" ["--"; "-o"] w
              eq_refl eq_refl) as (wf & text & Hrun & _).
  rewrite Hrun. injection Hrun as <-. reflexivity.
Defined.

(** The claim of C9 for any other arguments: in [sconv -o --help] the
    text [--help] is the value of [-o]. No usage text is printed; the
    standard input is converted and a file named --help is made. *)
Lemma help_as_value_counterexample :
  let w := boot ∅ [RdData (bytes_of "hi")] [] in
  let wf := (sconv (linux "Ab3dE9") ["sconv"; "-o"; "--help"] w).2 in
  w_stderr wf = "Written: 8 bytes" +:+ nl
  /\ w_trace wf
     = [EvMkstemp "sconv-XXXXXX" 3; EvRead 0 4095 2; EvIconvOpen true;
        EvIconv (bytes_of "hi") 0 0; EvWrite 3 8 8; EvRead 0 4095 0;
        EvClose 3; EvChmod "sconv-Ab3dE9" 484 0;
        EvRename "sconv-Ab3dE9" "--help" 0]
  /\ w_fs wf !! "--help"
     = Some {| f_data := [Byte.x68; Byte.x00; Byte.x00; Byte.x00;
                          Byte.x69; Byte.x00; Byte.x00; Byte.x00];
               f_mode := 484 |}.
Proof. by vm_compute. Qed.

(** ** What [getopt_long] can return to [parse_args] *)

Lemma lookup_long_found name i p :
  lookup_long long_options name = Found i p ->
  (abbreviates name "output-file" = true /\ i = 0%nat /\ p = output_file_entry)
  \/ (abbreviates name "help" = true /\ i = 1%nat /\ p = help_entry).
Proof.
  destruct (abbreviates name "output-file") eqn:Ho.
  { rewrite (lookup_output_file name Ho). intros [= <- <-]. by left. }
  destruct (abbreviates name "help") eqn:Hh.
  { rewrite (lookup_help name Hh). intros [= <- <-]. by right. }
  destruct (lookup_other name Ho Hh) as [[cands ->]| ->]; done.
Qed.

(** A long option gives [o], 0 (only for [--help] without a value, with
    index 1 and no diagnostic) or ['?']. *)
Lemma long_option_codes text d :
  let r := (process_long_option "o:" long_options text d).1 in
  r_c r = char_code "o" \/ r_c r = char_code "?"
  \/ (r_c r = 0 /\ r_longind r = Some 1%nat /\ r_diag r = None
      /\ exists name, split_eq text = (name, None)
                      /\ abbreviates name "help" = true).
Proof.
  unfold process_long_option.
  destruct (split_eq text) as [name value] eqn:Hs.
  destruct (lookup_long long_options name) as [i p|cands|] eqn:Hl;
    [|by right; left..].
  apply lookup_long_found in Hl as [(_ & -> & ->)|(Hh & -> & ->)].
  - destruct value as [v|]; simpl; [by left|].
    destruct (g_rest d); simpl; [by right; left|by left].
  - destruct value as [v|]; simpl; [by right; left|].
    right; right. repeat split; try done. by exists name.
Qed.

Lemma short_option_codes c s d :
  r_c (process_short_option "o:" c s d).1 = char_code "o"
  \/ r_c (process_short_option "o:" c s d).1 = char_code "?".
Proof.
  rewrite short_option_step.
  destruct (Ascii.eqb c "o"); [|by right].
  destruct s; [|by left]. destruct (g_rest d); [by right|by left].
Qed.

(** The values [parse_args] has to deal with: -1, [o], ['?'], and 0 for
    a [--help]. The [default] branch of its [switch] is never taken. *)
Lemma getopt_long_codes posix d :
  let r := (getopt_long posix "o:" long_options d).1 in
  r_c r = -1 \/ r_c r = char_code "o" \/ r_c r = char_code "?"
  \/ (r_c r = 0 /\ r_longind r = Some 1%nat /\ r_diag r = None).
Proof.
  unfold getopt_long.
  destruct (g_nextchar d) as [|c s].
  - destruct (g_rest _) as [|a r]; [by left|].
    destruct (String.eqb a "--"); [by left|].
    destruct (NONOPTION_P a); [by left|].
    destruct a as [|c1 [|c2 s']]; [by left..|].
    destruct (Ascii.eqb c2 "-").
    + destruct (long_option_codes s'
                  (with_done (if posix then d else permute d)
                     (String c1 (String c2 s')) r ""))
        as [H|[H|(H1 & H2 & H3 & _)]]; [by right; left|by right; right; left|].
      by right; right; right.
    + destruct (short_option_codes c2 s'
                  (with_done (if posix then d else permute d)
                     (String c1 (String c2 s')) r s')) as [H|H];
        [by right; left|by right; right; left].
  - destruct (short_option_codes c s d) as [H|H];
      [by right; left|by right; right; left].
Qed.

Lemma skip_nonoptions_rest rest x :
  x ∈ (skip_nonoptions rest).2 -> x ∈ rest.
Proof.
  induction rest as [|a r IH]; simpl; [done|].
  destruct (NONOPTION_P a); [|done].
  destruct (skip_nonoptions r) as [n r'] eqn:Hs. simpl in *.
  intros Hx. apply elem_of_cons. right. by apply IH.
Qed.

Lemma permute_rest (posix : bool) d x :
  x ∈ g_rest (if posix then d else permute d) -> x ∈ g_rest d.
Proof.
  destruct posix; [done|]. unfold permute.
  pose proof (skip_nonoptions_rest (g_rest d) x) as H.
  destruct (skip_nonoptions (g_rest d)) as [n r]. exact H.
Qed.

Lemma short_option_rest c s d x :
  x ∈ g_rest (process_short_option "o:" c s d).2 -> x ∈ g_rest d.
Proof.
  rewrite short_option_step.
  destruct (Ascii.eqb c "o"); [|done].
  destruct s; [|done]. destruct (g_rest d) as [|a r] eqn:Hr.
  - simpl. by rewrite Hr.
  - simpl. intros Hx. apply elem_of_cons. by right.
Qed.

Lemma long_option_rest text d x :
  x ∈ g_rest (process_long_option "o:" long_options text d).2 ->
  x ∈ g_rest d.
Proof.
  unfold process_long_option.
  destruct (split_eq text) as [name value].
  destruct (lookup_long long_options name) as [i p|cands|]; try done.
  destruct value as [v|]; destruct (o_has_arg p); try done.
  destruct (g_rest d) as [|a r] eqn:Hr.
  - simpl. by rewrite Hr.
  - simpl. intros Hx. apply elem_of_cons. by right.
Qed.

(** The arguments still to be read are among those there were. *)
Lemma getopt_long_rest posix d x :
  x ∈ g_rest (getopt_long posix "o:" long_options d).2 -> x ∈ g_rest d.
Proof.
  unfold getopt_long.
  destruct (g_nextchar d) as [|c s]; [|apply short_option_rest].
  assert (Hall : x ∈ g_rest (if posix then d else permute d) ->
            x ∈ g_rest d) by apply permute_rest.
  destruct (g_rest (if posix then d else permute d)) as [|a r] eqn:Hr.
  { cbn [snd]. by rewrite Hr. }
  assert (Htail : x ∈ r -> x ∈ g_rest d).
  { intros Hx. apply Hall, elem_of_cons. by right. }
  destruct (String.eqb a "--"); [simpl; by intros ?%elem_of_nil|].
  destruct (NONOPTION_P a); [cbn [snd]; by rewrite Hr|].
  destruct a as [|c1 [|c2 s']]; try (cbn [snd]; by rewrite Hr).
  destruct (Ascii.eqb c2 "-").
  - intros Hx%long_option_rest. by apply Htail.
  - intros Hx%short_option_rest. by apply Htail.
Qed.

(** [getopt_long] returns 0 only for an argument that is [--help] or a
    beginning of it. *)
Lemma getopt_long_zero posix d :
  r_c (getopt_long posix "o:" long_options d).1 = 0 ->
  exists h, h ∈ g_rest d /\ is_help h = true.
Proof.
  unfold getopt_long.
  destruct (g_nextchar d) as [|c s].
  - destruct (g_rest (if posix then d else permute d)) as [|a r] eqn:Hr;
      [done|].
    destruct (String.eqb a "--"); [done|].
    destruct (NONOPTION_P a) eqn:Hno; [done|].
    destruct (nonoption_shape a Hno) as (c2 & s' & ->).
    destruct (Ascii.eqb c2 "-") eqn:Hc2.
    + destruct (long_option_codes s'
                  (with_done (if posix then d else permute d)
                     (String "-" (String c2 s')) r ""))
        as [H|[H|(_ & _ & _ & name & Hs & Ha)]]; [by rewrite H..|].
      intros _. exists (String "-" (String c2 s')). split.
      * apply (permute_rest posix). rewrite Hr. apply elem_of_cons. by left.
      * unfold is_help. simpl. by rewrite Hc2, Hs.
    + destruct (short_option_codes c2 s'
                  (with_done (if posix then d else permute d)
                     (String "-" (String c2 s')) r s')) as [H|H];
        by rewrite H.
  - destruct (short_option_codes c s d) as [H|H]; by rewrite H.
Qed.

Lemma parse_loop_outcomes P fuel prog version d w :
  (getopt_measure d < fuel)%nat ->
  match (parse_loop P fuel prog version d w).1 with
  | Ret _ => True
  | Exit c => c = 0 /\ exists h, h ∈ g_rest d /\ is_help h = true
  | _ => False
  end.
Proof.
  revert d w. induction fuel as [|fuel IH]; intros d w Hlt; [lia|].
  rewrite parse_loop_S.
  pose proof (getopt_long_measure (p_posixly_correct P) "o:" long_options d)
    as Hm.
  pose proof (getopt_long_zero (p_posixly_correct P) d) as Hzero.
  pose proof (fun x => getopt_long_rest (p_posixly_correct P) d x) as Hrest.
  destruct (getopt_long_codes (p_posixly_correct P) d)
    as [Hc|[Hc|[Hc|(Hc & Hi & Hd)]]].
  - unfold after_getopt. by rewrite Hc.
  - destruct (after_getopt_continue P fuel prog version _ w (or_introl Hc))
      as (w2 & dtext & -> & _).
    destruct (getopt_long _ _ _ d) as [r d']. cbn [fst snd] in *.
    destruct Hm as [Hm|Hm]; [by rewrite Hc in Hm|].
    specialize (IH d' w2 ltac:(lia)).
    destruct (parse_loop P fuel prog version d' w2) as [[d2|e|c|] w3];
      simpl in *; try done.
    destruct IH as (-> & h & Hin & Hh). split; [done|].
    exists h. split; [by apply Hrest|done].
  - destruct (after_getopt_continue P fuel prog version _ w (or_intror Hc))
      as (w2 & dtext & -> & _).
    destruct (getopt_long _ _ _ d) as [r d']. cbn [fst snd] in *.
    destruct Hm as [Hm|Hm]; [by rewrite Hc in Hm|].
    specialize (IH d' w2 ltac:(lia)).
    destruct (parse_loop P fuel prog version d' w2) as [[d2|e|c|] w3];
      simpl in *; try done.
    destruct IH as (-> & h & Hin & Hh). split; [done|].
    exists h. split; [by apply Hrest|done].
  - rewrite after_getopt_help by done. simpl. split; [done|]. by apply Hzero.
Qed.

(** X1. [parse_args] never throws: the "Invalid option" exception of its
    [default] branch cannot be raised, whatever the arguments are. It
    returns, or it ends the process with [std::exit(0)], and that only
    when one of the arguments is [--help] or a beginning of it. *)
Theorem parse_args_never_throws P argv prog version w :
  match (parse_args P argv prog version w).1 with
  | Ret _ => True
  | Exit c => c = 0 /\ exists h, h ∈ tl argv /\ is_help h = true
  | Throw _ | OutOfFuel => False
  end.
Proof.
  unfold parse_args, bind.
  pose proof (parse_loop_outcomes P
                (S (getopt_measure (getopt_init (hd "" argv) (tl argv))))
                prog version (getopt_init (hd "" argv) (tl argv)) w
                ltac:(lia)) as H.
  by destruct (parse_loop _ _ _ _ _ _) as [[d|e|c|] w'].
Qed.

(** ** The scan does not depend on the fuel, nor on what it has taken *)

Lemma parse_loop_fuel P fuel1 fuel2 prog version d w :
  (getopt_measure d < fuel1)%nat ->
  (getopt_measure d < fuel2)%nat ->
  parse_loop P fuel1 prog version d w = parse_loop P fuel2 prog version d w.
Proof.
  revert fuel2 d w. induction fuel1 as [|fuel1 IH]; intros fuel2 d w H1 H2;
    [lia|].
  destruct fuel2 as [|fuel2]; [lia|].
  rewrite !parse_loop_S. unfold after_getopt.
  pose proof (getopt_long_measure (p_posixly_correct P) "o:" long_options d)
    as Hm.
  destruct (getopt_long _ _ _ d) as [r d']. cbn [fst snd].
  destruct (r_c r =? -1) eqn:Hc; [done|].
  destruct Hm as [Hm|Hm]; [apply Z.eqb_neq in Hc; done|].
  destruct (parse_switch _ _ _ _) as [[[]|e|c|] w2]; try done.
  apply IH; lia.
Qed.

Lemma permute_shift x d :
  permute (shift_done x d) = shift_done x (permute d).
Proof.
  unfold permute, shift_done. simpl.
  by destruct (skip_nonoptions (g_rest d)).
Qed.

Lemma with_done_shift x d a r s :
  with_done (shift_done x d) a r s = shift_done x (with_done d a r s).
Proof. unfold with_done, shift_done. simpl. by rewrite app_assoc. Qed.

Lemma process_short_option_shift optstring c s x d :
  process_short_option optstring c s (shift_done x d)
  = ((process_short_option optstring c s d).1,
     shift_done x (process_short_option optstring c s d).2).
Proof.
  unfold process_short_option.
  destruct (strchr optstring c) as [temp|]; [|done].
  destruct (_ || _); [done|].
  destruct (short_has_arg temp); [done| |by destruct s].
  destruct s; [|done]. simpl.
  destruct (g_rest d) as [|a r]; [done|].
  by rewrite with_done_shift.
Qed.

Lemma process_long_option_shift optstring longopts text x d :
  process_long_option optstring longopts text (shift_done x d)
  = ((process_long_option optstring longopts text d).1,
     shift_done x (process_long_option optstring longopts text d).2).
Proof.
  unfold process_long_option.
  destruct (split_eq text) as [name value].
  destruct (lookup_long longopts name) as [i p|cands|]; [|done..].
  destruct value as [v|]; destruct (o_has_arg p); try done.
  simpl. destruct (g_rest d) as [|a r]; [done|].
  by rewrite with_done_shift.
Qed.

(** [getopt_long] does not look at the arguments it has already taken. *)
Lemma getopt_long_shift posix optstring longopts x d :
  getopt_long posix optstring longopts (shift_done x d)
  = ((getopt_long posix optstring longopts d).1,
     shift_done x (getopt_long posix optstring longopts d).2).
Proof.
  unfold getopt_long.
  change (g_nextchar (shift_done x d)) with (g_nextchar d).
  destruct (g_nextchar d) as [|c s]; [|apply process_short_option_shift].
  assert ((if posix then shift_done x d else permute (shift_done x d))
          = shift_done x (if posix then d else permute d)) as ->.
  { destruct posix; [done|apply permute_shift]. }
  set (d1 := if posix then d else permute d).
  change (g_rest (shift_done x d1)) with (g_rest d1).
  destruct (g_rest d1) as [|a r]; [done|].
  destruct (String.eqb a "--").
  { simpl. unfold shift_done. simpl. by rewrite app_assoc. }
  destruct (NONOPTION_P a); [done|].
  destruct a as [|c1 [|c2 s']]; try done.
  rewrite !with_done_shift.
  destruct (Ascii.eqb c2 "-");
    [apply process_long_option_shift|apply process_short_option_shift].
Qed.

Lemma parse_loop_shift P fuel prog version x d w :
  parse_loop P fuel prog version (shift_done x d) w
  = match parse_loop P fuel prog version d w with
    | (Ret d', w') => (Ret (shift_done x d'), w')
    | other => other
    end.
Proof.
  revert d w. induction fuel as [|fuel IH]; intros d w; [done|].
  rewrite !parse_loop_S. unfold after_getopt. rewrite getopt_long_shift.
  destruct (getopt_long _ _ _ d) as [r d']. cbn [fst snd].
  destruct (r_c r =? -1); [done|].
  destruct (parse_switch _ _ _ _) as [[[]|e|c|] w2]; [apply IH|done..].
Qed.

(** ** Arguments at the front that the scan has dealt with *)

Lemma getopt_long_prog posix d :
  g_prog (getopt_long posix "o:" long_options d).2 = g_prog d.
Proof.
  unfold getopt_long.
  assert (Hperm : g_prog (if posix then d else permute d) = g_prog d).
  { destruct posix; [done|]. unfold permute.
    by destruct (skip_nonoptions (g_rest d)). }
  assert (Hshort : forall c s dd,
            g_prog (process_short_option "o:" c s dd).2 = g_prog dd).
  { intros c s dd. rewrite short_option_step.
    destruct (Ascii.eqb c "o"); [|done].
    destruct s; [|done]. by destruct (g_rest dd). }
  assert (Hlong : forall text dd,
            g_prog (process_long_option "o:" long_options text dd).2
            = g_prog dd).
  { intros text dd. unfold process_long_option.
    destruct (split_eq text) as [name value].
    destruct (lookup_long long_options name) as [i p|cands|]; try done.
    destruct value as [v|]; destruct (o_has_arg p); try done.
    by destruct (g_rest dd). }
  destruct (g_nextchar d) as [|c s]; [|apply Hshort].
  destruct (g_rest _) as [|a r]; [done|].
  destruct (String.eqb a "--"); [done|].
  destruct (NONOPTION_P a); [done|].
  destruct a as [|c1 [|c2 s']]; try done.
  destruct (Ascii.eqb c2 "-"); [by rewrite Hlong|by rewrite Hshort].
Qed.

Lemma parse_loop_prog P fuel prog version d w d' w' :
  parse_loop P fuel prog version d w = (Ret d', w') -> g_prog d' = g_prog d.
Proof.
  revert d w. induction fuel as [|fuel IH]; intros d w; [done|].
  rewrite parse_loop_S. unfold after_getopt.
  pose proof (getopt_long_prog (p_posixly_correct P) d) as Hp.
  destruct (getopt_long _ _ _ d) as [r d1]. cbn [fst snd] in *.
  destruct (r_c r =? -1).
  - intros [= -> _]. done.
  - destruct (parse_switch _ _ _ _) as [[[]|e|c|] w2]; try done.
    intros H%IH. congruence.
Qed.

Lemma parse_args_shape P argv prog version w optind argv' w' :
  parse_args P argv prog version w = (Ret (optind, argv'), w') ->
  exists k T, optind = S k /\ argv' = hd "" argv :: T.
Proof.
  unfold parse_args, bind.
  destruct (parse_loop _ _ _ _ _ _) as [[d|e|c|] w1] eqn:Hloop; try done.
  intros [= <- <- <-]. apply parse_loop_prog in Hloop.
  exists (length (g_done d)), (g_done d ++ g_nonopts d ++ g_rest d).
  split; [done|]. unfold g_argv. by rewrite Hloop.
Qed.

(** If the scan of [lead ++ args] comes, with standard error and
    [outfile] as in [w2], to the point where [lead] is taken and [args]
    is still to be read, then [parse_args] gives what it gives for [args]
    alone from [w2], with [lead] in front. *)
Lemma parse_args_leading P prog lead args prog' version w w2 :
  (exists fuel',
     (getopt_measure (getopt_init prog args) < fuel')%nat
     /\ parse_loop P (S (getopt_measure (getopt_init prog (lead ++ args))))
          prog' version (getopt_init prog (lead ++ args)) w
        = parse_loop P fuel' prog' version
            (shift_done lead (getopt_init prog args)) w2) ->
  parse_args P (prog :: lead ++ args) prog' version w
  = match parse_args P (prog :: args) prog' version w2 with
    | (Ret (optind, argv'), w') =>
        (Ret ((length lead + optind)%nat, prog :: lead ++ tl argv'), w')
    | other => other
    end.
Proof.
  intros (fuel' & Hfuel & Hrun).
  unfold parse_args, bind. cbn [hd tl]. rewrite Hrun, parse_loop_shift.
  rewrite (parse_loop_fuel P fuel' (S (getopt_measure (getopt_init prog args))))
    by (done || lia).
  destruct (parse_loop _ _ _ _ (getopt_init prog args) w2)
    as [[d|e|c|] w'] eqn:Hloop; try done.
  apply parse_loop_prog in Hloop. simpl in Hloop.
  unfold ret, g_optind, g_argv, shift_done. simpl.
  rewrite Hloop, length_app, <- app_assoc.
  do 3 f_equal. lia.
Qed.

Lemma open_input_leading P prog lead args w w2 :
  parse_args P (prog :: lead ++ args) prog VERSION w
  = match parse_args P (prog :: args) prog VERSION w2 with
    | (Ret (optind, argv'), w') =>
        (Ret ((length lead + optind)%nat, prog :: lead ++ tl argv'), w')
    | other => other
    end ->
  open_input P (prog :: lead ++ args) w = open_input P (prog :: args) w2.
Proof.
  intros Hp. unfold open_input. unfold bind at 1 3. cbn [hd]. rewrite Hp.
  destruct (parse_args P (prog :: args) prog VERSION w2)
    as [[[optind argv']|e|c|] w'] eqn:Hargs; try done.
  destruct (parse_args_shape _ _ _ _ _ _ _ _ Hargs) as (k & T & -> & ->).
  cbn [hd tl length].
  rewrite length_app.
  replace (length lead + S k <? S (length lead + length args))%nat
    with (S k <? S (length args))%nat
    by (destruct (Nat.ltb_spec (S k) (S (length args)));
        destruct (Nat.ltb_spec (length lead + S k)
                    (S (length lead + length args))); done || lia).
  replace ((prog :: lead ++ T) !! (length lead + S k)%nat)
    with ((prog :: T) !! S k); [done|].
  replace (length lead + S k)%nat with (S (length lead + k)) by lia.
  change ((prog :: T) !! S k) with (T !! k).
  change ((prog :: lead ++ T) !! S (length lead + k)%nat)
    with ((lead ++ T) !! (length lead + k)%nat).
  rewrite lookup_app_r by lia. f_equal. lia.
Qed.

Lemma main_leading P prog lead args w w2 :
  (exists fuel',
     (getopt_measure (getopt_init prog args) < fuel')%nat
     /\ parse_loop P (S (getopt_measure (getopt_init prog (lead ++ args))))
          prog VERSION (getopt_init prog (lead ++ args)) w
        = parse_loop P fuel' prog VERSION
            (shift_done lead (getopt_init prog args)) w2) ->
  main P (prog :: lead ++ args) w = main P (prog :: args) w2.
Proof.
  intros H. unfold main, main_catch, main_try, bind.
  by rewrite (open_input_leading P prog lead args w w2
                (parse_args_leading P prog lead args prog VERSION w w2 H)).
Qed.

(** ** Options at the front of the arguments *)

Lemma str_app_nil (s : string) : s +:+ "" = s.
Proof. induction s as [|a s IH]; [done|]. simpl. by rewrite IH. Qed.

Lemma set_stderr_same w : set_stderr (w_stderr w) w = w.
Proof. by destruct w. Qed.

(** The first call of [getopt_long] when the first argument starts with a
    dash, has a second character and is not [--]. *)
Lemma getopt_long_front posix prog c s args :
  (Ascii.eqb c "-" && String.eqb s "") = false ->
  getopt_long posix "o:" long_options
    (getopt_init prog (String "-" (String c s) :: args))
  = if Ascii.eqb c "-"
    then process_long_option "o:" long_options s
           (scan_behind prog [String "-" (String c s)] args "")
    else process_short_option "o:" c s
           (scan_behind prog [String "-" (String c s)] args s).
Proof.
  intros Hdd.
  assert (Hne : String.eqb (String "-" (String c s)) "--" = false).
  { cbn [String.eqb]. change (Ascii.eqb "-" "-") with true. cbn iota.
    destruct (Ascii.eqb c "-"); [|done]. by destruct s. }
  unfold getopt_long, getopt_init, permute.
  cbn [g_nextchar g_rest skip_nonoptions NONOPTION_P].
  change (Ascii.eqb "-" "-") with true. cbn [negb].
  by destruct posix; cbn [g_rest g_prog g_done g_nonopts app]; rewrite Hne;
    cbn [NONOPTION_P]; change (Ascii.eqb "-" "-") with true; cbn [negb].
Qed.

(** Inside a cluster without an [o], every character gets its diagnostic
    and the scan goes on behind the cluster. *)
Lemma parse_loop_cluster P fuel prog version p lead args s w :
  no_option_in s = true ->
  parse_loop P (String.length s + fuel) prog version
    (scan_behind p lead args s) w
  = parse_loop P fuel prog version (scan_behind p lead args "")
      (set_stderr (w_stderr w +:+ invalid_options p s) w).
Proof.
  revert w. induction s as [|c s IH]; intros w Hno.
  - simpl. by rewrite str_app_nil, set_stderr_same.
  - simpl in Hno. apply andb_true_iff in Hno as [Hc Hno].
    apply negb_true_iff in Hc.
    cbn [String.length Nat.add]. rewrite parse_loop_S.
    unfold getopt_long. cbn [g_nextchar scan_behind].
    rewrite short_option_step, Hc.
    unfold after_getopt. cbn [fst snd res_err r_diag r_c].
    rewrite parse_switch_question by done.
    change (char_code "?" =? -1) with false. cbn iota.
    change (with_nextchar _ s) with (scan_behind p lead args s).
    rewrite IH by done. cbn [invalid_options g_prog].
    f_equal. unfold set_stderr. cbn. by rewrite str_app_assoc.
Qed.

Lemma parse_loop_invalid_cluster P prog version c s args w :
  c <> "-"%char -> no_option_in (String c s) = true ->
  parse_loop P
    (S (getopt_measure (getopt_init prog ([String "-" (String c s)] ++ args))))
    prog version (getopt_init prog ([String "-" (String c s)] ++ args)) w
  = parse_loop P (3 + getopt_measure (getopt_init prog args)) prog version
      (shift_done [String "-" (String c s)] (getopt_init prog args))
      (set_stderr (w_stderr w +:+ invalid_options prog (String c s)) w).
Proof.
  intros Hc Hno. apply Ascii.eqb_neq in Hc.
  simpl in Hno. apply andb_true_iff in Hno as [Hco Hno].
  apply negb_true_iff in Hco.
  rewrite parse_loop_S. cbn [app].
  rewrite getopt_long_front, Hc by by rewrite Hc.
  rewrite short_option_step, Hco.
  unfold after_getopt. cbn [fst snd res_err r_diag r_c].
  rewrite parse_switch_question by done.
  change (char_code "?" =? -1) with false. cbn iota.
  change (with_nextchar _ s)
    with (scan_behind prog [String "-" (String c s)] args s).
  replace (getopt_measure (getopt_init prog (String "-" (String c s) :: args)))
    with (String.length s + (3 + getopt_measure (getopt_init prog args)))%nat
    by (unfold getopt_measure; simpl; lia).
  rewrite parse_loop_cluster by done.
  change (scan_behind prog [String "-" (String c s)] args "")
    with (shift_done [String "-" (String c s)] (getopt_init prog args)).
  f_equal. unfold set_stderr. cbn. by rewrite str_app_assoc.
Qed.

(** X5. A first argument that is a cluster of short options none of which
    is [o] has no effect on the run, apart from the diagnostics
    "prog: invalid option -- 'c'" that [getopt_long] prints on standard
    error, one for every character of the cluster: nothing is thrown, and
    the run goes on as it would without that argument. *)
Theorem invalid_short_options_reported_and_skipped P prog c s args w :
  c <> "-"%char ->
  no_option_in (String c s) = true ->
  sconv P (prog :: String "-" (String c s) :: args) w
  = sconv P (prog :: args)
      (set_stderr (w_stderr w +:+ invalid_options prog (String c s)) w).
Proof.
  intros Hc Hno. unfold sconv.
  apply (main_leading P prog [String "-" (String c s)] args).
  exists (3 + getopt_measure (getopt_init prog args))%nat.
  split; [lia|]. by apply parse_loop_invalid_cluster.
Qed.

(** [sconv -xy] on the input "hi": two diagnostics, then the conversion
    to standard output. *)
Lemma invalid_short_options_reported_and_skipped_witness :
  let w := boot ∅ [RdData (bytes_of "hi")] [] in
  sconv (linux "Ab3dE9") ["sconv"; "-xy"] w
  = sconv (linux "Ab3dE9") ["sconv"]
      (set_stderr ("sconv: invalid option -- 'x'" +:+ nl
                   +:+ "sconv: invalid option -- 'y'" +:+ nl) w)
  /\ w_stderr (sconv (linux "Ab3dE9") ["sconv"; "-xy"] w).2
     = "sconv: invalid option -- 'x'" +:+ nl
       +:+ "sconv: invalid option -- 'y'" +:+ nl
       +:+ "Written: 8 bytes" +:+ nl.
Proof.
  intros w.
  pose proof (invalid_short_options_reported_and_skipped (linux "Ab3dE9")
                "sconv" "x" "y" [] w ltac:(discriminate) eq_refl) as H.
  split; [exact H|]. rewrite H. by vm_compute.
Defined.

(** A beginning of "output-file" has no ['='] in it. *)
Lemma split_eq_output_file name f :
  abbreviates name "output-file" = true ->
  split_eq name = (name, None)
  /\ split_eq (name +:+ "=" +:+ f) = (name, Some f).
Proof.
  unfold abbreviates. intros [_ Hp]%andb_true_iff.
  apply prefix_take in Hp as (k & Hk & ->). simpl in Hk.
  do 12 (destruct k as [|k]; [by vm_compute|]). lia.
Qed.

(** After a call that returned [o] with the value [f], the loop goes on
    with [outfile] set to [f]. *)
Lemma after_getopt_outfile P fuel prog version f d w :
  after_getopt P fuel prog version
    ({| r_c := char_code "o"; r_optarg := Some f; r_longind := None;
        r_diag := None |}, d) w
  = parse_loop P fuel prog version d (set_outfile f w).
Proof.
  unfold after_getopt. cbn [fst snd r_diag r_c].
  by rewrite parse_switch_o.
Qed.

Lemma after_getopt_outfile_long P fuel prog version f d w :
  after_getopt P fuel prog version
    ({| r_c := char_code "o"; r_optarg := Some f; r_longind := Some 0%nat;
        r_diag := None |}, d) w
  = parse_loop P fuel prog version d (set_outfile f w).
Proof.
  unfold after_getopt. cbn [fst snd r_diag r_c].
  by rewrite parse_switch_o.
Qed.

Lemma abbreviates_nonempty name full :
  abbreviates name full = true -> String.eqb name "" = false.
Proof. unfold abbreviates. by intros [?%negb_true_iff _]%andb_true_iff. Qed.

Lemma parse_loop_output_option P prog version f lead args w :
  output_option f lead ->
  parse_loop P (S (getopt_measure (getopt_init prog (lead ++ args))))
    prog version (getopt_init prog (lead ++ args)) w
  = parse_loop P (getopt_measure (getopt_init prog (lead ++ args)))
      prog version (shift_done lead (getopt_init prog args))
      (set_outfile f w).
Proof.
  intros Hlead. rewrite parse_loop_S.
  destruct Hlead as [|Hf|name Hname|name Hname]; cbn [app].
  - change "-o" with (String "-" (String "o" "")).
    rewrite getopt_long_front by done. cbn [Ascii.eqb Bool.eqb].
    change (Ascii.eqb "o" "-") with false. cbn iota.
    rewrite short_option_step. change (Ascii.eqb "o" "o") with true.
    cbn iota. cbn [scan_behind g_rest]. by rewrite after_getopt_outfile.
  - destruct f as [|c0 f']; [done|].
    change ("-o" +:+ String c0 f')
      with (String "-" (String "o" (String c0 f'))).
    rewrite getopt_long_front by done.
    change (Ascii.eqb "o" "-") with false. cbn iota.
    rewrite short_option_step. change (Ascii.eqb "o" "o") with true.
    cbn iota. by rewrite after_getopt_outfile.
  - change ("--" +:+ name) with (String "-" (String "-" name)).
    rewrite getopt_long_front
      by (by rewrite (abbreviates_nonempty _ _ Hname)).
    change (Ascii.eqb "-" "-") with true. cbn iota.
    unfold process_long_option.
    destruct (split_eq_output_file name f Hname) as [-> _].
    rewrite (lookup_output_file name Hname).
    cbn [output_file_entry o_has_arg o_flag o_val scan_behind g_rest].
    by rewrite after_getopt_outfile_long.
  - change ("--" +:+ name +:+ "=" +:+ f)
      with (String "-" (String "-" (name +:+ "=" +:+ f))).
    rewrite getopt_long_front.
    2:{ change (Ascii.eqb "-" "-") with true. cbn [andb].
        pose proof (abbreviates_nonempty _ _ Hname). by destruct name. }
    change (Ascii.eqb "-" "-") with true. cbn iota.
    unfold process_long_option.
    destruct (split_eq_output_file name f Hname) as [_ ->].
    rewrite (lookup_output_file name Hname).
    cbn [output_file_entry o_has_arg o_flag o_val].
    by rewrite after_getopt_outfile_long.
Qed.

Lemma output_option_measure f lead prog args :
  output_option f lead ->
  (getopt_measure (getopt_init prog args)
   < getopt_measure (getopt_init prog (lead ++ args)))%nat.
Proof.
  intros Hlead. unfold getopt_measure, getopt_init. cbn [g_nextchar g_rest].
  destruct Hlead; simpl; lia.
Qed.

Lemma main_output_option P prog f lead args w :
  output_option f lead ->
  main P (prog :: lead ++ args) w = main P (prog :: args) (set_outfile f w).
Proof.
  intros Hlead. apply main_leading.
  exists (getopt_measure (getopt_init prog (lead ++ args))).
  split; [by apply (output_option_measure f)|].
  by apply parse_loop_output_option.
Qed.

(** X6. [-o f], [-of] (for a non-empty [f]), [--output-file f] and
    [--output-file=f], the last two also with [output-file] cut short to
    any non-empty beginning of it, are four ways to say the same thing:
    given as the first argument(s), each makes the run that the other
    arguments alone make when [outfile] is [f] from the start. *)
Theorem output_file_spellings P prog name f args w :
  abbreviates name "output-file" = true ->
  let run := main P (prog :: args) (set_outfile f w) in
  sconv P (prog :: "-o" :: f :: args) w = run
  /\ (f <> "" -> sconv P (prog :: ("-o" +:+ f) :: args) w = run)
  /\ sconv P (prog :: ("--" +:+ name) :: f :: args) w = run
  /\ sconv P (prog :: ("--" +:+ name +:+ "=" +:+ f) :: args) w = run.
Proof.
  intros Hname run. unfold sconv.
  split; [|split; [|split]].
  - apply (main_output_option P prog f ["-o"; f] args). constructor.
  - intros Hf. apply (main_output_option P prog f ["-o" +:+ f] args).
    by constructor.
  - apply (main_output_option P prog f ["--" +:+ name; f] args).
    by constructor.
  - apply (main_output_option P prog f ["--" +:+ name +:+ "=" +:+ f] args).
    by constructor.
Qed.

(** [sconv --out=d/f in], [sconv -o d/f in], [sconv -od/f in] and
    [sconv --out d/f in] all are the run of [sconv in] with [outfile] set
    to d/f. *)
Lemma output_file_spellings_witness :
  let P := linux "Ab3dE9" in
  let w := boot {[ "in" := {| f_data := bytes_of "hi"; f_mode := 420 |} ]}
             [] [] in
  let run := main P ["sconv"; "in"] (set_outfile "d/f" w) in
  sconv P ["sconv"; "-o"; "d/f"; "in"] w = run
  /\ sconv P ["sconv"; "-od/f"; "in"] w = run
  /\ sconv P ["sconv"; "--out"; "d/f"; "in"] w = run
  /\ sconv P ["sconv"; "--out=d/f"; "in"] w = run.
Proof.
  intros P w run.
  destruct (output_file_spellings P "sconv" "out" "d/f" ["in"] w eq_refl)
    as (H1 & H2 & H3 & H4).
  split; [exact H1|]. split; [by apply H2|]. split; [exact H3|exact H4].
Defined.

(** X7. Of two output files given one after the other, the second
    counts: the run is the one with the second alone. *)
Theorem last_output_file_wins P prog f1 f2 lead1 lead2 args w :
  output_option f1 lead1 ->
  output_option f2 lead2 ->
  sconv P (prog :: lead1 ++ lead2 ++ args) w
  = sconv P (prog :: lead2 ++ args) w.
Proof.
  intros H1 H2. unfold sconv.
  rewrite (main_output_option P prog f1 lead1 (lead2 ++ args)) by done.
  by rewrite !(main_output_option P prog f2 lead2 args).
Qed.

Lemma last_output_file_wins_witness :
  let P := linux "Ab3dE9" in
  let w := boot ∅ [RdData (bytes_of "hi")] [] in
  sconv P ["sconv"; "--output-file=a"; "-o"; "b"] w
  = sconv P ["sconv"; "-o"; "b"] w.
Proof.
  intros P w.
  apply (last_output_file_wins P "sconv" "a" "b" ["--output-file=a"]
           ["-o"; "b"] [] w).
  - by apply (long_joined "a" "output-file").
  - apply short_separate.
Defined.
(** ** The operands and the input *)

Lemma nonoption_not_dashes a :
  NONOPTION_P a = true -> String.eqb a "--" = false.
Proof.
  destruct (String.eqb_spec a "--") as [->|]; [|done]. by vm_compute.
Qed.

Lemma skip_nonoptions_operands rest :
  rest = (skip_nonoptions rest).1 ++ (skip_nonoptions rest).2
  /\ operands false rest
     = (skip_nonoptions rest).1 ++ operands false (skip_nonoptions rest).2
  /\ match (skip_nonoptions rest).2 with
     | a :: _ => NONOPTION_P a = false
     | [] => True
     end.
Proof.
  induction rest as [|a r (IH1 & IH2 & IH3)]; [done|].
  cbn [skip_nonoptions operands].
  destruct (NONOPTION_P a) eqn:Ha.
  - rewrite (nonoption_not_dashes a Ha).
    destruct (skip_nonoptions r) as [n r']. cbn [fst snd] in *.
    split; [by rewrite IH1 at 1|]. split; [by rewrite IH2|done].
  - cbn [fst snd app]. split; [done|]. split; [|done].
    cbn [operands]. by rewrite Ha.
Qed.

Lemma permute_operands d :
  g_nextchar d = "" ->
  operands_ahead false (permute d) = operands_ahead false d
  /\ g_argv (permute d) = g_argv d
  /\ match g_rest (permute d) with
     | a :: _ => NONOPTION_P a = false
     | [] => True
     end.
Proof.
  intros Hn. unfold operands_ahead, operands_from, g_argv, permute.
  destruct (skip_nonoptions_operands (g_rest d)) as (H1 & H2 & H3).
  destruct (skip_nonoptions (g_rest d)) as [n r']. cbn [fst snd] in *.
  cbn [g_nonopts g_rest g_nextchar g_prog g_done]. rewrite Hn.
  cbn [cluster_wants_next]. rewrite H2, H1 at 1.
  by rewrite <- !app_assoc.
Qed.

Lemma with_done_argv d a r s :
  g_rest d = a :: r -> g_argv (with_done d a r s) ≡ₚ g_argv d.
Proof.
  intros Hr. unfold g_argv, with_done.
  cbn [g_prog g_done g_nonopts g_rest]. rewrite Hr.
  constructor. rewrite <- app_assoc. apply Permutation_app_head.
  cbn [app]. by rewrite Permutation_middle.
Qed.

Lemma short_step_operands posix c s d :
  let res := process_short_option "o:" c s d in
  r_c res.1 <> -1
  /\ operands_ahead posix res.2
     = g_nonopts d ++ operands_from posix (String c s) (g_rest d)
  /\ g_argv res.2 ≡ₚ g_argv d.
Proof.
  cbn zeta. rewrite short_option_step.
  unfold operands_ahead, operands_from. cbn [cluster_wants_next].
  destruct (Ascii.eqb c "o").
  - destruct s as [|c' s'].
    + destruct (g_rest d) as [|a r] eqn:Hr.
      * cbn. by rewrite Hr.
      * cbn [fst snd r_c with_done g_nonopts g_rest g_nextchar
             cluster_wants_next].
        split; [done|]. split; [done|]. by apply with_done_argv.
    + by cbn.
  - by cbn.
Qed.

Lemma long_step_operands posix a text d :
  g_nextchar d = "" ->
  long_text a = Some text ->
  let res := process_long_option "o:" long_options text d in
  r_c res.1 <> -1
  /\ operands_ahead posix res.2
     = g_nonopts d
       ++ (if consumes_next a
           then match g_rest d with
                | [] => []
                | _ :: r => operands posix r
                end
           else operands posix (g_rest d))
  /\ g_argv res.2 ≡ₚ g_argv d.
Proof.
  intros Hn Ht. cbn zeta. unfold consumes_next. rewrite Ht.
  unfold process_long_option, operands_ahead, operands_from.
  destruct (split_eq text) as [name value].
  destruct (abbreviates name "output-file") eqn:Ho.
  { rewrite (lookup_output_file name Ho).
    destruct value as [v|]; cbn [output_file_entry o_has_arg o_flag o_val].
    - cbn [fst snd r_c]. by rewrite Hn.
    - destruct (g_rest d) as [|x r] eqn:Hr.
      + cbn [fst snd r_c]. by rewrite Hn, Hr.
      + cbn [fst snd r_c with_done g_nonopts g_rest g_nextchar
             cluster_wants_next].
        split; [done|]. split; [done|]. by apply with_done_argv. }
  assert (Hsame : g_nonopts d
                  ++ (if cluster_wants_next (g_nextchar d)
                      then match g_rest d with
                           | [] => []
                           | _ :: r => operands posix r
                           end
                      else operands posix (g_rest d))
                  = g_nonopts d
                    ++ (if match value with
                           | Some _ => false
                           | None => false
                           end
                        then match g_rest d with
                             | [] => []
                             | _ :: r => operands posix r
                             end
                        else operands posix (g_rest d))).
  { rewrite Hn. by destruct value. }
  destruct (abbreviates name "help") eqn:Hh.
  { rewrite (lookup_help name Hh).
    destruct value as [v|]; cbn [help_entry o_has_arg o_flag o_val];
      cbn [fst snd r_c res_err]; by rewrite Hn. }
  destruct (lookup_other name Ho Hh) as [[cands ->]| ->];
    cbn [fst snd r_c res_err]; rewrite Hn; by destruct value.
Qed.

(** One call of [getopt_long]: the operands stay what they are, [argv]
    is permuted at most, and when the call returns -1 the scan has come
    to the operands. *)
Lemma getopt_step_operands posix d :
  let res := getopt_long posix "o:" long_options d in
  operands_ahead posix res.2 = operands_ahead posix d
  /\ g_argv res.2 ≡ₚ g_argv d
  /\ (r_c res.1 = -1 ->
      operands_ahead posix res.2 = g_nonopts res.2 ++ g_rest res.2).
Proof.
  cbn zeta. unfold getopt_long.
  destruct (g_nextchar d) as [|c s] eqn:Hn.
  2:{ destruct (short_step_operands posix c s d) as (Hc & Hops & Hperm).
      unfold operands_ahead at 2. by rewrite Hn. }
  set (d1 := if posix then d else permute d).
  assert (H1 : operands_ahead posix d1 = operands_ahead posix d
               /\ g_argv d1 = g_argv d /\ g_nextchar d1 = ""
               /\ (posix = false ->
                   match g_rest d1 with
                   | a :: _ => NONOPTION_P a = false
                   | [] => True
                   end)).
  { unfold d1. destruct posix; [done|].
    destruct (permute_operands d Hn) as (? & ? & ?).
    by rewrite permute_nextchar. }
  destruct H1 as (Hops1 & Hargv1 & Hn1 & Hhead). rewrite <- Hops1, <- Hargv1.
  clearbody d1. clear d Hn Hops1 Hargv1.
  destruct (g_rest d1) as [|a r] eqn:Hr.
  { cbn [fst snd]. split; [done|]. split; [done|]. intros _.
    unfold operands_ahead, operands_from. by rewrite Hn1, Hr. }
  destruct (String.eqb a "--") eqn:Hdd.
  { cbn [fst snd]. unfold operands_ahead, operands_from, g_argv.
    cbn [g_nonopts g_rest g_nextchar g_prog g_done cluster_wants_next
         operands].
    rewrite Hn1, Hr. cbn [cluster_wants_next operands]. rewrite Hdd.
    split; [by rewrite app_nil_r|]. split; [|done].
    constructor. rewrite app_nil_r, <- !app_assoc.
    apply Permutation_app_head. cbn [app].
    by rewrite <- Permutation_middle. }
  destruct (NONOPTION_P a) eqn:Ha.
  { cbn [fst snd]. split; [done|]. split; [done|]. intros _.
    destruct posix; [|by specialize (Hhead eq_refl); congruence].
    unfold operands_ahead, operands_from. rewrite Hn1, Hr.
    cbn [cluster_wants_next operands]. by rewrite Hdd, Ha. }
  destruct (nonoption_shape a Ha) as (c2 & s' & ->).
  assert (Hwd : g_rest (with_done d1 (String "-" (String c2 s')) r s') = r)
    by done.
  assert (Hperm : forall s0,
            g_argv (with_done d1 (String "-" (String c2 s')) r s0)
            ≡ₚ g_argv d1) by (intros s0; by apply with_done_argv).
  assert (Hd1 : operands_ahead posix d1
                = g_nonopts d1
                  ++ (if consumes_next (String "-" (String c2 s'))
                      then match r with
                           | [] => []
                           | _ :: r' => operands posix r'
                           end
                      else operands posix r)).
  { unfold operands_ahead, operands_from. rewrite Hn1, Hr.
    cbn [cluster_wants_next operands]. by rewrite Hdd, Ha. }
  rewrite Hd1.
  destruct (Ascii.eqb c2 "-") eqn:Hc2.
  - destruct (long_step_operands posix (String "-" (String c2 s')) s'
                (with_done d1 (String "-" (String c2 s')) r "") eq_refl)
      as (Hc & Hops & Hp).
    { cbn. by rewrite Hc2. }
    split; [exact Hops|]. split; [by rewrite Hp|done].
  - destruct (short_step_operands posix c2 s'
                (with_done d1 (String "-" (String c2 s')) r s'))
      as (Hc & Hops & Hp).
    split; [|split; [by rewrite Hp|done]]. rewrite Hops.
    unfold consumes_next, operands_from. cbn [long_text short_cluster].
    change (Ascii.eqb "-" "-") with true. rewrite Hc2. by cbn.
Qed.

Lemma parse_loop_operands P fuel prog version d w d' w' :
  parse_loop P fuel prog version d w = (Ret d', w') ->
  g_nonopts d' ++ g_rest d' = operands_ahead (p_posixly_correct P) d
  /\ g_argv d' ≡ₚ g_argv d.
Proof.
  revert d w. induction fuel as [|fuel IH]; intros d w; [done|].
  rewrite parse_loop_S. unfold after_getopt.
  destruct (getopt_step_operands (p_posixly_correct P) d)
    as (Hops & Hperm & Hend).
  destruct (getopt_long _ _ _ d) as [r d1]. cbn [fst snd] in *.
  destruct (r_c r =? -1) eqn:Hc.
  - apply Z.eqb_eq in Hc. intros [= <- _].
    split; [by rewrite <- Hops, Hend|done].
  - destruct (parse_switch _ _ _ _) as [[[]|e|c|] w2]; try done.
    intros [H1 H2]%IH. split; [by rewrite H1|by rewrite H2].
Qed.

Lemma parse_args_operands P prog args prog' version w optind argv' w' :
  parse_args P (prog :: args) prog' version w = (Ret (optind, argv'), w') ->
  drop optind argv' = operands (p_posixly_correct P) args
  /\ argv' ≡ₚ prog :: args
  /\ (1 <= optind <= length argv')%nat.
Proof.
  unfold parse_args, bind. cbn [hd tl].
  destruct (parse_loop _ _ _ _ _ _) as [[d|e|c|] w1] eqn:Hloop; try done.
  intros [= <- <- <-].
  destruct (parse_loop_operands _ _ _ _ _ _ _ _ Hloop) as [Hops Hperm].
  unfold g_optind, g_argv. cbn [drop].
  rewrite drop_app_length. split; [done|]. split; [done|].
  cbn [length]. rewrite length_app. lia.
Qed.

(** X8. [parse_args] changes [argv] by a permutation only, and the index
    it returns splits the result in two: behind it are the operands, in
    the order they were given (the arguments that are no options and no
    values of options, and whatever follows [--]); so the options and
    their values are before it. *)
Theorem parse_args_permutes_argv P argv prog version w optind argv' w' :
  parse_args P argv prog version w = (Ret (optind, argv'), w') ->
  argv <> [] ->
  argv' ≡ₚ argv
  /\ (1 <= optind <= length argv)%nat
  /\ drop optind argv' = operands (p_posixly_correct P) (tl argv).
Proof.
  intros Hargs Hne. destruct argv as [|p args]; [done|].
  destruct (parse_args_operands _ _ _ _ _ _ _ _ _ Hargs) as (H1 & H2 & H3).
  split; [done|]. split; [by rewrite <- H2|done].
Qed.

Lemma parse_args_permutes_argv_witness :
  let argv := ["sconv"; "a"; "-o"; "out"; "b"; "-x"; "--"; "-c"] in
  parse_args (linux "Ab3dE9") argv "sconv" VERSION (boot ∅ [] [])
  = (Ret (5%nat, ["sconv"; "-o"; "out"; "-x"; "--"; "a"; "b"; "-c"]),
     set_stderr ("sconv: invalid option -- 'x'" +:+ nl)
       (set_outfile "out" (boot ∅ [] [])))
  /\ ["sconv"; "-o"; "out"; "-x"; "--"; "a"; "b"; "-c"] ≡ₚ argv
  /\ operands false (tl argv) = ["a"; "b"; "-c"].
Proof.
  intros argv.
  assert (Hrun : parse_args (linux "Ab3dE9") argv "sconv" VERSION
                   (boot ∅ [] [])
                 = (Ret (5%nat, ["sconv"; "-o"; "out"; "-x"; "--"; "a"; "b";
                                 "-c"]),
                    set_stderr ("sconv: invalid option -- 'x'" +:+ nl)
                      (set_outfile "out" (boot ∅ [] []))))
    by (vm_compute; reflexivity).
  destruct (parse_args_permutes_argv _ _ _ _ _ _ _ _ Hrun ltac:(discriminate))
    as (H1 & _ & H3).
  split; [exact Hrun|]. split; [exact H1|]. symmetry. exact H3.
Defined.

Lemma open_input_operands P prog args w :
  open_input P (prog :: args) w
  = (parse_args P (prog :: args) prog VERSION ;;
     open_operand (operands (p_posixly_correct P) args)) w.
Proof.
  unfold open_input, bind. cbn [hd].
  destruct (parse_args P (prog :: args) prog VERSION w)
    as [[[optind argv']|e|c|] w0] eqn:Hargs; try done.
  destruct (parse_args_operands _ _ _ _ _ _ _ _ _ Hargs)
    as (Hdrop & Hperm & Hlo & Hhi).
  rewrite <- Hdrop. rewrite <- (Permutation_length Hperm).
  destruct (drop optind argv') as [|path more] eqn:Hd.
  - apply (f_equal length) in Hd. rewrite length_drop in Hd. simpl in Hd.
    by destruct (Nat.ltb_spec optind (length argv')); [lia|].
  - assert (Hlook : argv' !! optind = Some path).
    { rewrite <- (Nat.add_0_r optind), <- lookup_drop. by rewrite Hd. }
    apply lookup_lt_Some in Hlook as Hlt.
    destruct (Nat.ltb_spec optind (length argv')); [|lia].
    by rewrite Hlook.
Qed.

(** X9. The input is the first operand, and the standard input when
    there is none; operands after the first are not looked at. *)
Theorem input_is_first_operand P prog args w :
  open_input P (prog :: args) w
  = (parse_args P (prog :: args) prog VERSION ;;
     open_operand (operands (p_posixly_correct P) args)) w.
Proof. apply open_input_operands. Qed.

(** ** The fatal errors *)

Lemma parse_args_no_throw P argv prog version w e w' :
  parse_args P argv prog version w <> (Throw e, w').
Proof.
  unfold parse_args, bind.
  pose proof (parse_loop_outcomes P
                (S (getopt_measure (getopt_init (hd "" argv) (tl argv))))
                prog version (getopt_init (hd "" argv) (tl argv)) w
                ltac:(lia)) as H.
  by destruct (parse_loop _ _ _ _ _ _) as [[d|e0|c|] w0].
Qed.

(** X10. When the first operand cannot be opened (there is no such
    file), the run ends with "Exception: Can't open file '...' as input"
    and status 0. The [open] is the only call made: no temporary file is
    created, even when an output file was asked for, and nothing is read
    or written. *)
Theorem input_open_failure P prog args w r w0 path more :
  parse_args P (prog :: args) prog VERSION (set_outfile "" w) = (Ret r, w0) ->
  operands (p_posixly_correct P) args = path :: more ->
  w_fs w !! path = None ->
  exists wf,
    sconv P (prog :: args) w = (0, wf)
    /\ w_stderr wf
       = w_stderr w0 +:+ "Exception: Can't open file '" +:+ path
         +:+ "' as input" +:+ nl
    /\ w_trace wf = w_trace w ++ [EvOpen path (-1)]
    /\ w_fs wf = w_fs w /\ w_fds wf = w_fds w /\ w_stdout wf = w_stdout w.
Proof.
  intros Hargs Hops Hnone.
  pose proof (parse_args_frame P (prog :: args) prog VERSION
                (set_outfile "" w)) as Hframe.
  rewrite Hargs in Hframe. cbn [snd] in Hframe.
  destruct Hframe as (Hfs & Hfds & Hout & Hwr & Htr & Hh).
  unfold sconv, main, main_catch, main_try. unfold bind at 1.
  rewrite open_input_operands. unfold bind at 1. rewrite Hargs, Hops.
  cbn [open_operand]. unfold bind, sys_open.
  rewrite Hfs. cbn [set_outfile w_fs]. rewrite Hnone.
  change (-1 =? -1) with true. cbn iota. unfold throw.
  eexists. split; [reflexivity|].
  cbn [set_stderr log w_stderr w_trace w_fs w_fds w_stdout].
  rewrite Htr, Hfs, Hfds, Hout. by rewrite !str_app_assoc.
Qed.

(** [sconv -o out missing]: one failed [open], the message, and no file
    named out or sconv-Ab3dE9. *)
Lemma input_open_failure_witness :
  let w := boot ∅ [RdData (bytes_of "hi")] [] in
  exists wf,
    sconv (linux "Ab3dE9") ["sconv"; "-o"; "out"; "missing"] w = (0, wf)
    /\ w_stderr wf
       = "Exception: Can't open file 'missing' as input" +:+ nl
    /\ w_trace wf = [EvOpen "missing" (-1)]
    /\ w_fs wf = ∅.
Proof.
  intros w.
  destruct (input_open_failure (linux "Ab3dE9") "sconv"
              ["-o"; "out"; "missing"] w
              (3%nat, ["sconv"; "-o"; "out"; "missing"])
              (set_outfile "out" w) "missing" []
              eq_refl eq_refl eq_refl)
    as (wf & Hrun & Herr & Htr & Hfs & _).
  exists wf. by repeat split.
Defined.

Lemma sys_open_ret path w :
  exists fd w', sys_open path w = (Ret fd, w').
Proof.
  unfold sys_open.
  destruct (w_fs w !! path), (alloc_fd (w_fds w)); by eexists _, _.
Qed.

Lemma convert_chunk_throws P out_fd rv buf total w e w' :
  convert_chunk P out_fd rv buf total w = (Throw e, w') ->
  e = StdExn "This system can't convert from UTF-8 to WCHAR_T"
  \/ e = StdExn "Couldn't write the required bytes to stdout".
Proof.
  destruct (p_iconv P) as [cd|] eqn:Hcd.
  - rewrite (convert_chunk_run P cd) by done.
    destruct (sys_write_ret out_fd (chunk_stored P cd rv buf)
                (chunk_to_write P cd rv buf) (before_write P cd rv buf w))
      as (w2 & -> & _).
    destruct (negb _); [|done]. intros [= <- _]. by right.
  - rewrite convert_chunk_unsupported by done. intros [= <- _]. by left.
Qed.

Lemma conv_loop_throws P fuel in_fd out_fd total w e w' :
  conv_loop P fuel in_fd out_fd total w = (Throw e, w') ->
  e = StdExn "This system can't convert from UTF-8 to WCHAR_T"
  \/ e = StdExn "Couldn't write the required bytes to stdout".
Proof.
  revert total w. induction fuel as [|fuel IH]; intros total w; [done|].
  rewrite conv_loop_S.
  destruct (sys_read_run in_fd (buf_sz - 1) w) as (rv & buf & fds' & -> & _).
  destruct (rv >? 0); [|done].
  destruct (convert_chunk P out_fd rv buf total _) as [[t|e0|c|] w2] eqn:Hc;
    try done.
  - apply IH.
  - intros [= <- _]. by apply convert_chunk_throws in Hc.
Qed.

Lemma publish_throws P out_fd tmpfile total w e w' :
  publish P out_fd tmpfile total w = (Throw e, w') ->
  e = StdExn "Can't change permissions of output file"
  \/ e = StdExn "Can't swap temp file to output file".
Proof.
  unfold publish. unfold_monad.
  destruct (negb (String.eqb (outfile w) "")); [|done].
  unfold sys_close, sys_chmod, sys_rename. cbn [log set_fds w_fs].
  destruct (w_fs w !! tmpfile) as [f|]; [destruct (p_chmod_fails P)|].
  - intros [= <- _]. by left.
  - cbn [negb Z.eqb]. cbn [log set_fs w_fs].
    destruct (_ !! tmpfile) as [f'|]; [destruct (p_rename_fails P)|].
    + intros [= <- _]. by right.
    + done.
    + intros [= <- _]. by right.
  - intros [= <- _]. by left.
Qed.

(** X11. The five fatal errors. An exception that leaves the [try] block
    of [main] is a [std::exception] with one of five messages; in
    particular the "Invalid option" exception of [parse_args] is never
    among them, and the handler for other exceptions is never entered. *)
Theorem fatal_errors_enumerated P argv w e w' :
  main_try P argv w = (Throw e, w') ->
  exists what,
    e = StdExn what
    /\ ((exists path, what = "Can't open file '" +:+ path +:+ "' as input")
        \/ what = "This system can't convert from UTF-8 to WCHAR_T"
        \/ what = "Couldn't write the required bytes to stdout"
        \/ what = "Can't change permissions of output file"
        \/ what = "Can't swap temp file to output file").
Proof.
  unfold main_try. unfold bind at 1.
  destruct (open_input P argv w) as [[in_fd|e0|c|] w1] eqn:Hopen; try done.
  2:{ intros [= <- <-]. revert Hopen. unfold open_input. unfold bind at 1.
      destruct (parse_args P argv (hd "" argv) VERSION w)
        as [[[optind argv']|e1|c|] w0] eqn:Hargs; try done.
      - destruct (_ <? _)%nat; [|done]. unfold bind.
        destruct (sys_open_ret (default "" (argv' !! optind)) w0)
          as (fd & w2 & ->).
        destruct (fd =? -1); [|done]. intros [= <- _].
        eexists. split; [reflexivity|]. left. by eexists.
      - by destruct (parse_args_no_throw P argv (hd "" argv) VERSION w e1 w0). }
  unfold convert_to_output. unfold bind at 1. cbn [get].
  assert (Hrecode : forall out_fd tmp w2,
            recode P in_fd out_fd tmp w2 = (Throw e, w') ->
            exists what,
              e = StdExn what
              /\ ((exists path,
                     what = "Can't open file '" +:+ path +:+ "' as input")
                  \/ what = "This system can't convert from UTF-8 to WCHAR_T"
                  \/ what = "Couldn't write the required bytes to stdout"
                  \/ what = "Can't change permissions of output file"
                  \/ what = "Can't swap temp file to output file")).
  { intros out_fd tmp w2. unfold recode. unfold bind at 1. cbn [get].
    unfold bind at 1.
    destruct (conv_loop P _ in_fd out_fd 0 w2) as [[t|e0|c|] w3] eqn:Hloop;
      try done.
    - intros [-> | ->]%publish_throws; eexists; (split; [reflexivity|]); auto.
    - intros [= <- _].
      apply conv_loop_throws in Hloop as [-> | ->];
        eexists; (split; [reflexivity|]); auto. }
  destruct (negb (String.eqb (outfile w1) "")); [|by apply Hrecode].
  unfold bind at 1.
  destruct (sys_mkstemp_ret P (mkstemp_template (outfile w1)) w1)
    as (fd & name & w2 & ->).
  destruct (fd =? -1); [done|]. by apply Hrecode.
Qed.

Lemma fatal_errors_enumerated_witness :
  exists what,
    StdExn "Couldn't write the required bytes to stdout" = StdExn what
    /\ ((exists path, what = "Can't open file '" +:+ path +:+ "' as input")
        \/ what = "This system can't convert from UTF-8 to WCHAR_T"
        \/ what = "Couldn't write the required bytes to stdout"
        \/ what = "Can't change permissions of output file"
        \/ what = "Can't swap temp file to output file").
Proof.
  apply (fatal_errors_enumerated (linux "Ab3dE9") ["sconv"]
           (boot ∅ [RdData (bytes_of "hi")] [WrShort 3])
           (StdExn "Couldn't write the required bytes to stdout")
           (conv_loop (linux "Ab3dE9") 1 0 1 0
              (boot ∅ [RdData (bytes_of "hi")] [WrShort 3])).2).
  by vm_compute.
Defined.

(** ** What reaches the output, however the loop ends *)

Lemma fmap_app_nil (o : option (list byte)) :
  (fun old => old ++ []) <$> o = o.
Proof. destruct o; simpl; [by rewrite app_nil_r|done]. Qed.

(** Whatever a [write] returns, what it has passed on is a beginning of
    the buffer. *)
Lemma sys_write_delivers fd buf count w o :
  w_fds w !! fd = Some o ->
  exists k,
    output_of o (sys_write fd buf count w).2
    = (fun old => old ++ take k buf) <$> output_of o w.
Proof.
  intros Hfd. unfold sys_write. rewrite Hfd.
  assert (Hdel : forall bs ws ev,
            output_of o (log ev (deliver o bs (set_writes ws w)))
            = (fun old => old ++ bs) <$> output_of o w).
  { intros bs ws ev. destruct o as [| |p|]; try done. simpl.
    rewrite lookup_alter_eq. by destruct (w_fs w !! p). }
  assert (Hskip : forall ev ws,
            output_of o (log ev (set_writes ws w))
            = (fun old => old ++ take 0 buf) <$> output_of o w).
  { intros ev ws. cbn [take]. rewrite fmap_app_nil. by destruct o. }
  destruct (writable o) eqn:Ho.
  - destruct (w_writes w) as [|[|k|] rest]; cbn [fst snd];
      try (eexists; apply Hdel). exists 0%nat. apply Hskip.
  - exists 0%nat. cbn [snd take]. rewrite fmap_app_nil. by destruct o.
Qed.

Lemma convert_chunk_delivers P out_fd rv buf total o w :
  w_fds w !! out_fd = Some o ->
  exists part,
    output_of o (convert_chunk P out_fd rv buf total w).2
    = (fun old => old ++ part) <$> output_of o w
    /\ part `prefix_of` match p_iconv P with
                        | Some cd => chunk_stored P cd rv buf
                        | None => []
                        end.
Proof.
  intros Ho. destruct (p_iconv P) as [cd|] eqn:Hcd.
  - rewrite (convert_chunk_run P cd) by done.
    destruct (sys_write_delivers out_fd (chunk_stored P cd rv buf)
                (chunk_to_write P cd rv buf) (before_write P cd rv buf w) o Ho)
      as (k & Hout).
    exists (take k (chunk_stored P cd rv buf)).
    split; [|by exists (drop k (chunk_stored P cd rv buf)); rewrite take_drop].
    assert (Hb : output_of o (before_write P cd rv buf w) = output_of o w)
      by by destruct o.
    rewrite <- Hb, <- Hout.
    destruct (sys_write _ _ _ _) as [[written|e|c|] w']; try done.
    by destruct (negb _).
  - rewrite convert_chunk_unsupported by done. exists [].
    split; [|done]. rewrite fmap_app_nil. by destruct o.
Qed.

(** However the loop ends, what has arrived at the output is a beginning
    of the conversion of the input; it is all of it when the loop
    returns, and then the total has grown by its length. *)
Lemma conv_loop_delivers P fuel in_fd out_fd o total w :
  w_fds w !! out_fd = Some o ->
  writable o = true ->
  (read_measure in_fd w < fuel)%nat ->
  exists part,
    output_of o (conv_loop P fuel in_fd out_fd total w).2
    = (fun old => old ++ part) <$> output_of o w
    /\ part `prefix_of` convert_stream P fuel (pending_of in_fd w)
    /\ match (conv_loop P fuel in_fd out_fd total w).1 with
       | Ret total' =>
           part = convert_stream P fuel (pending_of in_fd w)
           /\ total' = total + Z.of_nat (length part)
       | _ => True
       end.
Proof.
  revert total w. induction fuel as [|fuel IH]; intros total w Ho Hw Hlt;
    [lia|].
  rewrite conv_loop_S. cbn [convert_stream].
  pose proof (sys_read_next in_fd (buf_sz - 1) w) as Hnext.
  pose proof (sys_read_keeps in_fd (buf_sz - 1) w) as (Hkeep & Hfs & Hso & _).
  assert (Hout1 : output_of o (sys_read in_fd (buf_sz - 1) w).2
                  = output_of o w).
  { destruct o; cbn [output_of]; by rewrite ?Hso, ?Hfs. }
  destruct (next_chunk (buf_sz - 1) (pending_of in_fd w))
    as [[got pending']|].
  2:{ destruct Hnext as (rv & Hrv & Hle).
      destruct (sys_read in_fd (buf_sz - 1) w) as [[[rv' buf]|e|c|] w1];
        try done.
      simpl in Hrv. injection Hrv as -> ->.
      destruct (Z.gtb_spec rv 0) as [Hgt|Hgt]; [lia|].
      exists []. cbn [fst snd] in *. rewrite Hout1, fmap_app_nil.
      split; [done|]. split; [done|]. split; [done|]. simpl. lia. }
  destruct Hnext as (Hread & Hpos & Hm). rewrite Hread in *.
  cbn [snd] in Hout1.
  destruct (Z.gtb_spec (Z.of_nat (length got)) 0) as [Hgt|Hgt]; [|lia].
  set (w1 := log _ _) in *.
  assert (Ho1 : w_fds w1 !! out_fd = Some o) by by apply Hkeep.
  destruct (convert_chunk_delivers P out_fd (Z.of_nat (length got)) got
              total o w1 Ho1) as (part1 & Hpart1 & Hpre1).
  destruct (p_iconv P) as [cd|] eqn:Hcd.
  2:{ rewrite convert_chunk_unsupported in * by done.
      exists part1. by rewrite Hpart1, Hout1. }
  destruct (convert_chunk_spec P cd out_fd (Z.of_nat (length got)) got
              total w1 Hcd ltac:(lia)) as [Hrun Hfull].
  pose proof (convert_chunk_frame P out_fd (Z.of_nat (length got)) got
                total w1) as Hf.
  rewrite Hrun in Hpart1, Hf. rewrite Hrun. cbn [snd] in *.
  set (w2 := (sys_write out_fd _ _ _).2) in *.
  destruct Hf as (Hfds & _).
  destruct (Z.eqb_spec (chunk_to_write P cd (Z.of_nat (length got)) got)
              (write_ret (before_write P cd (Z.of_nat (length got)) got w1)
                 out_fd (chunk_to_write P cd (Z.of_nat (length got)) got)))
    as [Heq|Hne].
  2:{ exists part1. cbn [fst snd]. rewrite Hpart1, Hout1.
      split; [done|]. split; [|done]. by apply prefix_app_r. }
  assert (Hp2 : pending_of in_fd w2 = pending').
  { unfold pending_of. rewrite Hfds. unfold w1. simpl.
    by rewrite lookup_insert_eq. }
  assert (Hm2 : (read_measure in_fd w2 < fuel)%nat).
  { unfold read_measure. rewrite Hfds. unfold w1. simpl.
    rewrite lookup_insert_eq. lia. }
  destruct (IH (total + chunk_to_write P cd (Z.of_nat (length got)) got) w2
              ltac:(by rewrite Hfds) Hw Hm2) as (part2 & Hpart2 & Hpre2 & Hret).
  rewrite Hp2 in *.
  exists (chunk_stored P cd (Z.of_nat (length got)) got ++ part2).
  rewrite Hpart2, (Hfull (eq_sym Heq) o Ho1), Hout1, fmap_app_app.
  split; [done|]. split; [by apply prefix_app|].
  destruct (conv_loop P fuel in_fd out_fd _ w2).1; try done.
  destruct Hret as [-> ->]. split; [done|].
  rewrite (chunk_to_write_length P cd) by lia. rewrite !length_app. lia.
Qed.

Lemma only_calls_refl Q w : only_calls Q w w.
Proof. exists []. by rewrite app_nil_r. Qed.

Lemma only_calls_trans Q w1 w2 w3 :
  only_calls Q w1 w2 -> only_calls Q w2 w3 -> only_calls Q w1 w3.
Proof.
  intros (n1 & H1 & Q1) (n2 & H2 & Q2). exists (n1 ++ n2).
  split; [by rewrite H2, H1, app_assoc|by apply Forall_app].
Qed.

Lemma only_calls_log (Q : event -> Prop) ev w :
  Q ev -> only_calls Q w (log ev w).
Proof. intros HQ. exists [ev]. split; [done|by apply Forall_singleton]. Qed.

Lemma sys_read_calls in_fd out_fd w :
  only_calls (loop_call in_fd out_fd) w (sys_read in_fd (buf_sz - 1) w).2.
Proof.
  destruct (sys_read_trace in_fd (buf_sz - 1) w) as (rv & buf & _ & _ & Htr).
  exists [EvRead in_fd (buf_sz - 1) rv]. split; [done|].
  by apply Forall_singleton.
Qed.

Lemma convert_chunk_calls P in_fd out_fd rv buf total w :
  only_calls (loop_call in_fd out_fd) w
    (convert_chunk P out_fd rv buf total w).2.
Proof.
  destruct (p_iconv P) as [cd|] eqn:Hcd.
  - rewrite (convert_chunk_run P cd) by done.
    destruct (sys_write_ret out_fd (chunk_stored P cd rv buf)
                (chunk_to_write P cd rv buf) (before_write P cd rv buf w))
      as (w2 & Hrun & _ & _ & _ & Htr & _).
    rewrite Hrun.
    assert (only_calls (loop_call in_fd out_fd) w w2).
    { eexists. split; [rewrite Htr; unfold before_write; simpl;
                       by rewrite <- !app_assoc|].
      by repeat constructor. }
    by destruct (negb _).
  - rewrite convert_chunk_unsupported by done. by apply only_calls_log.
Qed.

Lemma conv_loop_calls P fuel in_fd out_fd total w :
  only_calls (loop_call in_fd out_fd) w
    (conv_loop P fuel in_fd out_fd total w).2.
Proof.
  apply (conv_loop_inv P in_fd out_fd
           (fun w' => only_calls (loop_call in_fd out_fd) w w')).
  - intros w0 H0. eapply only_calls_trans; [exact H0|apply sys_read_calls].
  - intros w0 rv buf total0 H0.
    eapply only_calls_trans; [exact H0|apply convert_chunk_calls].
  - apply only_calls_refl.
Qed.

Lemma open_input_keeps_stdout P argv w in_fd w1 :
  open_input P argv w = (Ret in_fd, w1) ->
  w_fds w !! STDOUT_FILENO = Some FdStdout ->
  w_fds w1 !! STDOUT_FILENO = Some FdStdout.
Proof.
  intros Hopen Hout.
  destruct (open_input_ret P argv w in_fd w1 Hopen)
    as (optind & argv' & w0 & _ & _ & _ & _ & _ & _ & Hcase).
  destruct Hcase as [(_ & _ & _ & ->)|(path & f & _ & Halloc & _ & _ & _ & ->)];
    [done|].
  apply alloc_fd_free in Halloc as [Hfree _].
  rewrite lookup_insert_ne; [done|]. intros ->. congruence.
Qed.

(** X12. Without an output file, in a process whose descriptor 1 is the
    standard output: whatever happens, what the run has added to the
    standard output is a beginning of the conversion of the input, chunk
    by chunk; the file system is as it was; and the only calls made after
    the input is open are those of the loop ([read], [iconv_open],
    [iconv], [write] to descriptor 1). The run ends with "Written: N
    bytes", and then all of the conversion is on the standard output and
    N is its length, or with an "Exception: " line. *)
Theorem stdout_run_delivers P argv w in_fd w1 :
  open_input P argv (set_outfile "" w) = (Ret in_fd, w1) ->
  outfile w1 = "" ->
  w_fds w !! STDOUT_FILENO = Some FdStdout ->
  exists wf part,
    sconv P argv w = (0, wf)
    /\ w_stdout wf = w_stdout w ++ part
    /\ part `prefix_of` recoded P in_fd w1
    /\ w_fs wf = w_fs w
    /\ only_calls (loop_call in_fd STDOUT_FILENO) w1 wf
    /\ ((part = recoded P in_fd w1
         /\ w_stderr wf
            = w_stderr w1 +:+ "Written: "
              +:+ pretty (Z.of_nat (length part)) +:+ " bytes" +:+ nl)
        \/ exists what,
             w_stderr wf = w_stderr w1 +:+ "Exception: " +:+ what +:+ nl).
Proof.
  intros Hopen Hempty Hstdout.
  pose proof (open_input_keeps_stdout P argv _ in_fd w1 Hopen Hstdout) as Ho1.
  destruct (open_input_ret P argv _ in_fd w1 Hopen)
    as (optind & argv' & w0 & _ & _ & _ & Hso1 & Hfs1 & _).
  cbn [set_outfile w_stdout w_fs] in Hso1, Hfs1.
  rewrite (sconv_after_open P argv w in_fd w1 Hopen).
  unfold main_catch, convert_to_output. unfold bind at 1. cbn [get].
  rewrite Hempty. cbn [String.eqb negb]. unfold recode.
  unfold bind at 1. cbn [get]. unfold bind at 1.
  destruct (conv_loop_delivers P (S (read_measure in_fd w1)) in_fd
              STDOUT_FILENO FdStdout 0 w1 Ho1 eq_refl ltac:(lia))
    as (part & Hout & Hpre & Hret).
  destruct (conv_loop_wrote P (S (read_measure in_fd w1)) in_fd STDOUT_FILENO
              FdStdout 0 w1 Ho1 eq_refl)
    as [(Herr3 & Hof3 & Hfs3 & _) _].
  pose proof (conv_loop_calls P (S (read_measure in_fd w1)) in_fd
                STDOUT_FILENO 0 w1) as Hcalls.
  pose proof (conv_loop_proper P (S (read_measure in_fd w1)) in_fd
                STDOUT_FILENO 0 w1 ltac:(lia)) as Hproper.
  destruct (conv_loop P (S (read_measure in_fd w1)) in_fd STDOUT_FILENO 0 w1)
    as [oc w3].
  cbn [fst snd output_of] in *. injection Hout as Hout.
  assert (Hfs : w_fs w3 = w_fs w).
  { rewrite <- Hfs1. apply map_eq. intros p. by apply Hfs3. }
  destruct oc as [total|[what|]|c|]; try done.
  - destruct Hret as [-> ->].
    rewrite publish_stdout by by rewrite Hof3.
    eexists _, _. split; [reflexivity|].
    cbn [set_stderr w_stdout w_fs w_stderr].
    split; [by rewrite Hout, Hso1|]. split; [done|]. split; [done|].
    split; [exact Hcalls|]. left. split; [done|].
    by rewrite Herr3, Z.add_0_l.
  - eexists _, part. split; [reflexivity|].
    cbn [set_stderr w_stdout w_fs w_stderr].
    split; [by rewrite Hout, Hso1|]. split; [done|]. split; [done|].
    split; [exact Hcalls|]. right. exists what. by rewrite Herr3.
Qed.

(** [sconv] when the input comes as "hi" and then "yo" and the second
    [write] stops after 3 bytes: the first chunk and 3 bytes of the
    second have gone out. *)
Lemma stdout_run_delivers_witness :
  let w := boot ∅ [RdData (bytes_of "hi"); RdData (bytes_of "yo")]
             [WrAll; WrShort 3] in
  exists wf,
    sconv (linux "Ab3dE9") ["sconv"] w = (0, wf)
    /\ w_stdout wf
       = [Byte.x68; Byte.x00; Byte.x00; Byte.x00;
          Byte.x69; Byte.x00; Byte.x00; Byte.x00;
          Byte.x79; Byte.x00; Byte.x00]
    /\ w_stdout wf `prefix_of` recoded (linux "Ab3dE9") 0 w
    /\ w_fs wf = ∅.
Proof.
  intros w.
  destruct (stdout_run_delivers (linux "Ab3dE9") ["sconv"] w 0 w
              eq_refl eq_refl eq_refl)
    as (wf & part & Hrun & Hso & Hpre & Hfs & _).
  exists wf. split; [exact Hrun|].
  assert (Hwf : wf = (sconv (linux "Ab3dE9") ["sconv"] w).2)
    by by rewrite Hrun.
  assert (Hval : w_stdout (sconv (linux "Ab3dE9") ["sconv"] w).2
                 = [Byte.x68; Byte.x00; Byte.x00; Byte.x00;
                    Byte.x69; Byte.x00; Byte.x00; Byte.x00;
                    Byte.x79; Byte.x00; Byte.x00])
    by (vm_compute; reflexivity).
  rewrite <- Hwf in Hval. split; [exact Hval|].
  split; [|exact Hfs]. rewrite Hso. exact Hpre.
Defined.

Lemma set_stderr_fs e w : w_fs (set_stderr e w) = w_fs w.
Proof. done. Qed.

Lemma set_stderr_stderr e w : w_stderr (set_stderr e w) = e.
Proof. done. Qed.

(** X13. With an output file, when the loop ends in an exception (the
    converter is missing, or a [write] did not take all it was given):
    the temporary file is left behind, with mode 0600 and holding a
    beginning of the conversion of the input; its descriptor is still
    open; no [close], [chmod] or [rename] is called; and the run ends
    with the "Exception: " line and status 0. *)
Theorem failed_conversion_leaves_temp_file P argv w in_fd w1 fd tmp w2 e w3 :
  open_input P argv (set_outfile "" w) = (Ret in_fd, w1) ->
  outfile w1 <> "" ->
  sys_mkstemp P (mkstemp_template (outfile w1)) w1 = (Ret (fd, tmp), w2) ->
  fd <> -1 ->
  conv_loop P (S (read_measure in_fd w2)) in_fd fd 0 w2 = (Throw e, w3) ->
  exists what part,
    e = StdExn what
    /\ sconv P argv w
       = (0, set_stderr (w_stderr w1 +:+ "Exception: " +:+ what +:+ nl) w3)
    /\ w_fs w3 !! tmp = Some {| f_data := part; f_mode := 384 |}
    /\ part `prefix_of` recoded P in_fd w1
    /\ w_fds w3 !! fd = Some (FdFile tmp)
    /\ only_calls (loop_call in_fd fd) w2 w3
    /\ forall p, p <> tmp -> w_fs w3 !! p = w_fs w !! p.
Proof.
  intros Hopen Hout Hmk Hfd Hloop.
  destruct (open_input_ret P argv _ in_fd w1 Hopen)
    as (optind & argv' & w0 & _ & _ & _ & _ & Hfs1 & _).
  cbn [set_outfile w_fs] in Hfs1.
  pose proof (convert_to_file P in_fd w1 fd tmp w2 Hout Hmk Hfd) as Hfile.
  destruct (sys_mkstemp_ok P _ w1 fd tmp w2 Hmk Hfd)
    as (sfx & _ & _ & _ & _ & Hnone & Hfree & ->).
  destruct (pending_of_created (mkstemp_template (outfile w1)) tmp fd in_fd w1
              Hfree) as [Hpend Hmeas].
  set (w2 := created _ _ _ _) in *.
  assert (Ho2 : w_fds w2 !! fd = Some (FdFile tmp))
    by (unfold w2, created; simpl; by rewrite lookup_insert_eq).
  destruct (conv_loop_delivers P (S (read_measure in_fd w2)) in_fd fd
              (FdFile tmp) 0 w2 Ho2 eq_refl ltac:(lia))
    as (part & Hdel & Hpre & _).
  destruct (conv_loop_wrote P (S (read_measure in_fd w2)) in_fd fd
              (FdFile tmp) 0 w2 Ho2 eq_refl) as [_ Ho3].
  pose proof (conv_loop_calls P (S (read_measure in_fd w2)) in_fd fd 0 w2)
    as Hcalls.
  pose proof (conv_loop_proper P (S (read_measure in_fd w2)) in_fd fd 0 w2
                ltac:(lia)) as Hproper.
  rewrite Hloop in *. cbn [fst snd] in *.
  destruct Hfile as ((Herr3 & _ & Hfs3 & Hmode & _) & _ & _ & Hfs2 & Herr2
                     & _ & Hrun).
  destruct e as [what|]; [|done].
  exists what, part. split; [done|].
  split.
  { rewrite (sconv_after_open P argv w in_fd w1 Hopen).
    unfold main_catch. by rewrite Hrun, Herr3, Herr2. }
  cbn [output_of] in Hdel.
  assert (Hf2 : w_fs w2 !! tmp = Some {| f_data := []; f_mode := 384 |})
    by (by rewrite Hfs2, lookup_insert_eq).
  specialize (Hmode tmp). rewrite Hf2 in Hdel, Hmode.
  destruct (w_fs w3 !! tmp) as [[data mode]|]; [|done].
  cbn in Hdel, Hmode. injection Hdel as ->. injection Hmode as ->.
  split; [done|]. split; [by rewrite Hmeas, Hpend in Hpre|].
  split; [done|]. split; [done|].
  intros p Hp. rewrite Hfs3 by congruence.
  by rewrite Hfs2, lookup_insert_ne, Hfs1.
Qed.

(** [sconv -o d/out] when the second [write] fails: d/sconv-Ab3dE9 is
    left with the conversion of the first chunk, and there is no
    d/out. *)
Lemma failed_conversion_leaves_temp_file_witness :
  let P := linux "Ab3dE9" in
  let w := boot ∅ [RdData (bytes_of "a"); RdData (bytes_of "b")]
             [WrAll; WrError] in
  exists wf,
    sconv P ["sconv"; "-o"; "d/out"] w = (0, wf)
    /\ w_stderr wf
       = "Exception: Couldn't write the required bytes to stdout" +:+ nl
    /\ w_fs wf !! "d/sconv-Ab3dE9"
       = Some {| f_data := [Byte.x61; Byte.x00; Byte.x00; Byte.x00];
                 f_mode := 384 |}
    /\ w_fs wf !! "d/out" = None.
Proof.
  intros P w.
  remember (set_outfile "d/out" w) as w1 eqn:E1.
  remember (sys_mkstemp P (mkstemp_template "d/out") w1).2 as w2 eqn:E2.
  remember (conv_loop P (S (read_measure 0 w2)) 0 3 0 w2).2 as w3 eqn:E3.
  assert (Hin : open_input P ["sconv"; "-o"; "d/out"] (set_outfile "" w)
                = (Ret 0, w1)) by (subst; vm_compute; reflexivity).
  assert (Hne : outfile w1 <> "") by (subst; discriminate).
  assert (Herr1 : w_stderr w1 = "") by (subst; reflexivity).
  assert (Hmk : sys_mkstemp P (mkstemp_template (outfile w1)) w1
                = (Ret (3, "d/sconv-Ab3dE9"), w2))
    by (subst; vm_compute; reflexivity).
  assert (Hloop : conv_loop P (S (read_measure 0 w2)) 0 3 0 w2
                  = (Throw (StdExn
                       "Couldn't write the required bytes to stdout"), w3))
    by (subst; vm_compute; reflexivity).
  assert (Hf3 : w_fs w3 !! "d/sconv-Ab3dE9"
                = Some {| f_data := [Byte.x61; Byte.x00; Byte.x00; Byte.x00];
                          f_mode := 384 |})
    by (subst; vm_compute; reflexivity).
  assert (Hw : w_fs w !! "d/out" = None) by (vm_compute; reflexivity).
  destruct (failed_conversion_leaves_temp_file P ["sconv"; "-o"; "d/out"] w
              0 w1 3 "d/sconv-Ab3dE9" w2 _ w3 Hin Hne Hmk
              ltac:(discriminate) Hloop)
    as (what & part & Hwhat & Hrun & _ & _ & _ & _ & Hother).
  injection Hwhat as <-. rewrite Herr1 in Hrun.
  eexists. split; [exact Hrun|].
  rewrite set_stderr_fs, set_stderr_stderr.
  split; [reflexivity|]. split; [exact Hf3|].
  rewrite Hother by discriminate. exact Hw.
Defined.

(** ** When the converter is missing *)

(** X14. On a system without a converter from UTF-8 to WCHAR_T, and
    without an output file: [iconv_open] is called only after a [read]
    has returned data. So when the first [read] returns nothing the run
    ends with "Written: 0 bytes" as if all were well; otherwise the chunk
    is taken off the input, [iconv_open] fails, nothing is written, and
    the run ends with the exception's message. The status is 0 either
    way. *)
Theorem unsupported_conversion P argv w in_fd w1 rv buf :
  p_iconv P = None ->
  open_input P argv (set_outfile "" w) = (Ret in_fd, w1) ->
  outfile w1 = "" ->
  (sys_read in_fd 4095 w1).1 = Ret (rv, buf) ->
  exists wf,
    sconv P argv w = (0, wf)
    /\ w_stdout wf = w_stdout w
    /\ w_trace wf
       = w_trace w1
         ++ EvRead in_fd 4095 rv :: (if rv >? 0 then [EvIconvOpen false] else [])
    /\ w_stderr wf
       = w_stderr w1
         +:+ (if rv >? 0
              then "Exception: This system can't convert from UTF-8 to WCHAR_T"
              else "Written: 0 bytes")
         +:+ nl.
Proof.
  intros Hcd Hopen Hempty Hread.
  destruct (open_input_ret P argv _ in_fd w1 Hopen)
    as (optind & argv' & w0 & _ & _ & _ & Hso1 & _).
  cbn [set_outfile w_stdout] in Hso1.
  rewrite (sconv_after_open P argv w in_fd w1 Hopen).
  unfold main_catch, convert_to_output. unfold bind at 1. cbn [get].
  rewrite Hempty. cbn [String.eqb negb]. unfold recode.
  unfold bind at 1. cbn [get]. unfold bind at 1.
  rewrite conv_loop_S. change (buf_sz - 1)%nat with 4095%nat.
  destruct (sys_read_keeps in_fd 4095 w1) as (_ & _ & Hso & Herr & Hof & _).
  destruct (sys_read_trace in_fd 4095 w1) as (rv' & buf' & Hrv & _ & Htr).
  destruct (sys_read in_fd 4095 w1) as [o w2]. cbn [fst snd] in *.
  subst o. injection Hrv as <- <-.
  destruct (rv >? 0).
  - rewrite convert_chunk_unsupported by done.
    eexists. split; [reflexivity|].
    cbn [set_stderr log w_stdout w_trace w_stderr].
    split; [by rewrite Hso|]. split; [by rewrite Htr, <- app_assoc|].
    by rewrite Herr.
  - rewrite publish_stdout by by rewrite Hof.
    eexists. split; [reflexivity|].
    cbn [set_stderr w_stdout w_trace w_stderr].
    split; [by rewrite Hso|]. split; [done|]. by rewrite Herr.
Qed.

Lemma unsupported_conversion_witness :
  let P := {| p_wchar_size := 4; p_iconv := None;
              p_posixly_correct := false; p_mkstemp := Some "Ab3dE9";
              p_chmod_fails := false; p_rename_fails := false |} in
  (exists wf,
     sconv P ["sconv"] (boot ∅ [RdData (bytes_of "hi")] []) = (0, wf)
     /\ w_stdout wf = []
     /\ w_trace wf = [EvRead 0 4095 2; EvIconvOpen false]
     /\ w_stderr wf
        = "Exception: This system can't convert from UTF-8 to WCHAR_T"
          +:+ nl)
  /\ (exists wf,
        sconv P ["sconv"] (boot ∅ [] []) = (0, wf)
        /\ w_stdout wf = []
        /\ w_trace wf = [EvRead 0 4095 0]
        /\ w_stderr wf = "Written: 0 bytes" +:+ nl).
Proof.
  intros P. split.
  - exact (unsupported_conversion P ["sconv"]
             (boot ∅ [RdData (bytes_of "hi")] []) 0
             (boot ∅ [RdData (bytes_of "hi")] []) 2 (bytes_of "hi")
             eq_refl eq_refl eq_refl eq_refl).
  - exact (unsupported_conversion P ["sconv"] (boot ∅ [] []) 0
             (boot ∅ [] []) 0 [] eq_refl eq_refl eq_refl eq_refl).
Defined.

(** ** Long options that are no options *)

Lemma lookup_unknown name :
  name <> "" ->
  abbreviates name "output-file" = false ->
  abbreviates name "help" = false ->
  lookup_long long_options name = Unknown.
Proof.
  intros Hne Ho Hh.
  destruct (lookup_other name Ho Hh) as [[cands Ha]|]; [|done].
  exfalso. revert Ha. unfold lookup_long, long_options. simpl.
  unfold abbreviates in Ho, Hh.
  assert (He : String.eqb name "" = false) by by apply String.eqb_neq.
  rewrite He in Ho, Hh. simpl in Ho, Hh.
  destruct (String.eqb name "output-file"); [done|].
  destruct (String.eqb name "help"); [done|].
  by rewrite Ho, Hh.
Qed.

(** X15. A first argument [--text] whose name (the text up to an [=])
    is not a beginning of [output-file] or of [help] has no effect on the
    run apart from the diagnostic "prog: unrecognized option '--text'"
    that [getopt_long] prints on standard error. *)
Theorem unrecognized_long_option_reported_and_skipped P prog text name value
    args w :
  split_eq text = (name, value) ->
  name <> "" ->
  abbreviates name "output-file" = false ->
  abbreviates name "help" = false ->
  sconv P (prog :: ("--" +:+ text) :: args) w
  = sconv P (prog :: args)
      (set_stderr (w_stderr w +:+ prog +:+ ": unrecognized option '--"
                   +:+ text +:+ "'" +:+ nl) w).
Proof.
  intros Hs Hne Ho Hh. unfold sconv.
  apply (main_leading P prog ["--" +:+ text] args).
  exists (getopt_measure (getopt_init prog (["--" +:+ text] ++ args))).
  split; [unfold getopt_measure; simpl; lia|].
  rewrite parse_loop_S. cbn [app].
  change ("--" +:+ text) with (String "-" (String "-" text)).
  rewrite getopt_long_front.
  2:{ change (Ascii.eqb "-" "-") with true. cbn [andb].
      destruct text; [|done]. simpl in Hs. by injection Hs as <-. }
  change (Ascii.eqb "-" "-") with true. cbn iota.
  unfold process_long_option. rewrite Hs, (lookup_unknown name Hne Ho Hh).
  unfold after_getopt. cbn [fst snd res_err r_diag r_c].
  rewrite parse_switch_question by done.
  change (char_code "?" =? -1) with false. cbn iota.
  change (scan_behind prog [String "-" (String "-" text)] args "")
    with (shift_done [String "-" (String "-" text)] (getopt_init prog args)).
  done.
Qed.

Lemma unrecognized_long_option_reported_and_skipped_witness :
  let w := boot ∅ [RdData (bytes_of "hi")] [] in
  sconv (linux "Ab3dE9") ["sconv"; "--verbose=2"; "-o"; "out"] w
  = sconv (linux "Ab3dE9") ["sconv"; "-o"; "out"]
      (set_stderr ("sconv: unrecognized option '--verbose=2'" +:+ nl) w).
Proof.
  intros w.
  apply (unrecognized_long_option_reported_and_skipped (linux "Ab3dE9")
           "sconv" "verbose=2" "verbose" (Some "2") ["-o"; "out"] w);
    [reflexivity|discriminate|reflexivity|reflexivity].
Defined.

(** ** The directory part of a path *)

Lemma strrchr_end_split s c :
  match strrchr_end s c with
  | Some n =>
      exists pre post,
        s = pre +:+ String c post
        /\ n = S (String.length pre)
        /\ strchr post c = None
  | None => strchr s c = None
  end.
Proof.
  induction s as [|a s IH]; [done|]. cbn [strrchr_end strchr].
  destruct (strrchr_end s c) as [n|].
  - destruct IH as (pre & post & -> & -> & Hpost).
    by exists (String a pre), post.
  - destruct (Ascii.eqb_spec a c) as [->|Hne].
    + by exists "", s.
    + destruct (Ascii.eqb_spec c a) as [->|]; done.
Qed.

Lemma str_skip_app a b n :
  str_skip (String.length a + n) (a +:+ b) = str_skip n b.
Proof. induction a as [|c a IH]; [done|]. simpl. apply IH. Qed.

Lemma str_skip_app_le a b n :
  (n <= String.length a)%nat -> str_skip n (a +:+ b) = str_skip n a +:+ b.
Proof.
  revert a. induction n as [|n IH]; intros a Hn; [by destruct a|].
  destruct a as [|c a]; [simpl in Hn; lia|]. simpl. apply IH.
  simpl in Hn. lia.
Qed.

(** X16. [get_basedir] cuts a path behind its last slash: the path is
    the result followed by a name without a slash; the result is empty
    exactly when the path has no slash, and otherwise ends in a slash;
    and the result is its own directory part. *)
Theorem get_basedir_splits fname :
  exists base,
    fname = get_basedir fname +:+ base
    /\ strchr base "/" = None
    /\ (get_basedir fname = "" <-> strchr fname "/" = None)
    /\ (get_basedir fname <> "" -> str_last 1 (get_basedir fname) = "/")
    /\ get_basedir (get_basedir fname) = get_basedir fname.
Proof.
  pose proof (strrchr_end_split fname "/") as Hsplit.
  destruct (strrchr_end fname "/") as [n|] eqn:Hn.
  - destruct Hsplit as (pre & post & -> & -> & Hpost).
    assert (Hdir : get_basedir (pre +:+ String "/" post) = pre +:+ "/").
    { unfold get_basedir. rewrite Hn.
      replace (S (String.length pre)) with (String.length pre + 1)%nat by lia.
      by rewrite str_take_app. }
    rewrite Hdir. exists post.
    split; [by rewrite str_app_assoc|]. split; [done|].
    split; [|split].
    + split; [by destruct pre|]. intros Hnone. exfalso. revert Hnone. clear.
      induction pre as [|a pre IH]; [done|]. cbn [String.append strchr].
      by destruct (Ascii.eqb "/" a).
    + intros _. unfold str_last. rewrite str_length_app. cbn [String.length].
      replace (String.length pre + 1 - 1)%nat
        with (String.length pre + 0)%nat by lia.
      by rewrite str_skip_app.
    + unfold get_basedir. rewrite strrchr_end_app. cbn [strrchr_end].
      change (Ascii.eqb "/" "/") with true. cbn iota.
      by rewrite str_take_app.
  - assert (Hdir : get_basedir fname = "") by (unfold get_basedir; by rewrite Hn).
    rewrite Hdir. exists fname. by repeat split.
Qed.

(** ** A directory name that does not leave room for the template *)

Lemma append_not_template t x :
  str_forallb (fun a => Ascii.eqb a "X") t = false ->
  (String.length t <= 6)%nat ->
  x +:+ t <> "XXXXXX".
Proof.
  intros Ht Hlen Heq.
  assert (Hall : str_forallb (fun a => Ascii.eqb a "X") (x +:+ t) = true)
    by by rewrite Heq.
  revert Hall. clear Heq. induction x as [|a x IH]; simpl.
  - by rewrite Ht.
  - intros [_ H]%andb_true_iff. by apply IH.
Qed.

(** The template is cut so that its last six characters are not all
    X. *)
Lemma mkstemp_template_cut out :
  (243 <= String.length (get_basedir out) <= 253)%nat ->
  mkstemp_template out
  = get_basedir out
    +:+ str_take (254 - String.length (get_basedir out)) "sconv-XXXXXX"
  /\ String.eqb (str_last 6 (mkstemp_template out)) "XXXXXX" = false.
Proof.
  intros Hlen. unfold mkstemp_template.
  set (dir := get_basedir out) in *.
  assert (Hcut : str_take 254 (dir +:+ "sconv-XXXXXX")
                 = dir +:+ str_take (254 - String.length dir) "sconv-XXXXXX").
  { replace 254%nat
      with (String.length dir + (254 - String.length dir))%nat at 1 by lia.
    apply str_take_app. }
  rewrite Hcut. split; [done|]. apply String.eqb_neq.
  unfold str_last. rewrite str_length_app.
  remember (254 - String.length dir)%nat as k eqn:Hk.
  assert (Hk' : (1 <= k <= 11)%nat) by lia.
  destruct (decide (k < 6)%nat) as [Hlt|Hge].
  - replace (String.length dir + String.length (str_take k "sconv-XXXXXX") - 6)%nat
      with (String.length dir - (6 - k))%nat.
    2:{ do 6 (destruct k as [|k]; [simpl; lia|]). lia. }
    rewrite str_skip_app_le by lia.
    apply append_not_template.
    + do 6 (destruct k as [|k]; [done || lia|]). lia.
    + do 6 (destruct k as [|k]; [simpl; lia|]). lia.
  - replace (String.length dir + String.length (str_take k "sconv-XXXXXX") - 6)%nat
      with (String.length dir + (k - 6))%nat.
    2:{ do 12 (destruct k as [|k]; [simpl; lia|]). lia. }
    rewrite str_skip_app.
    do 6 (destruct k as [|k]; [lia|]).
    do 6 (destruct k as [|k]; [done|]). lia.
Qed.

(** X17. With an output file whose directory part is 243 to 253
    characters long, [snprintf] cuts the template within "sconv-XXXXXX",
    so what [mkstemp] is given does not end in XXXXXX and [mkstemp]
    fails: the run ends there with status 0, without a message, without
    having read or written anything. *)
Theorem long_directory_silent P argv w in_fd w1 :
  open_input P argv (set_outfile "" w) = (Ret in_fd, w1) ->
  (243 <= String.length (get_basedir (outfile w1)) <= 253)%nat ->
  let template :=
    get_basedir (outfile w1)
    +:+ str_take (254 - String.length (get_basedir (outfile w1)))
          "sconv-XXXXXX" in
  sconv P argv w = (0, log (EvMkstemp template (-1)) w1)
  /\ String.length template = 254%nat.
Proof.
  intros Hopen Hlen template.
  destruct (mkstemp_template_cut (outfile w1) Hlen) as [Hcut Hlast].
  fold template in Hcut.
  assert (Hne : String.eqb (outfile w1) "" = false).
  { destruct (outfile w1); [simpl in Hlen; lia|done]. }
  split.
  - rewrite (sconv_after_open P argv w in_fd w1 Hopen).
    unfold main_catch, convert_to_output. unfold bind at 1. cbn [get].
    rewrite Hne. cbn [negb]. unfold bind, sys_mkstemp.
    rewrite Hcut in *. by rewrite Hlast.
  - unfold template. rewrite str_length_app.
    remember (String.length (get_basedir (outfile w1))) as n eqn:Hn.
    assert (String.length (str_take (254 - n) "sconv-XXXXXX") = 254 - n)%nat;
      [|lia].
    remember (254 - n)%nat as k eqn:Hk.
    assert (Hk' : (k <= 11)%nat) by lia.
    do 12 (destruct k as [|k]; [done|]). lia.
Qed.

(** [sconv -o aaa...a/f] with 242 a's: [mkstemp] is given 243
    characters of directory and "sconv-XXXXX", and that is the end of the
    run. *)
Lemma long_directory_silent_witness :
  let w := boot ∅ [RdData (bytes_of "hi")] [] in
  let out := str_repeat 242 "a" +:+ "/f" in
  sconv (linux "Ab3dE9") ["sconv"; "-o"; out] w
  = (0, log (EvMkstemp (str_repeat 242 "a" +:+ "/sconv-XXXXX") (-1))
          (set_outfile out w)).
Proof.
  intros w out.
  assert (Hin : open_input (linux "Ab3dE9") ["sconv"; "-o"; out]
                  (set_outfile "" w) = (Ret 0, set_outfile out w))
    by (vm_compute; reflexivity).
  assert (Hlen : (243 <= String.length (get_basedir (outfile (set_outfile out w)))
                  <= 253)%nat) by (vm_compute; lia).
  destruct (long_directory_silent (linux "Ab3dE9") ["sconv"; "-o"; out] w 0
              (set_outfile out w) Hin Hlen) as [Hrun _].
  assert (Ht : get_basedir (outfile (set_outfile out w))
                +:+ str_take
                      (254 - String.length
                               (get_basedir (outfile (set_outfile out w))))
                      "sconv-XXXXXX"
                = str_repeat 242 "a" +:+ "/sconv-XXXXX")
    by (vm_compute; reflexivity).
  rewrite Ht in Hrun. exact Hrun.
Defined.
